(** * soul-rings: the MandalaBase and Ornament canvas components

    A shallow embedding of [src/components/MandalaBase.tsx] and
    [src/components/Ornaments.tsx], and the properties of their drawing
    routines and render loops.

    Conventions of the embedding.
    - A JavaScript [number] is a real number, and [Math.sin], [Math.cos],
      [Math.PI], [Math.ceil] and [Math.max] are the functions of analysis.
      Arithmetic on coordinates, angles and widths is exact.  The one
      product whose result is turned into a whole number of pixels
      ([size * dpr] under [Math.ceil]) is rounded to binary64 as IEEE 754
      has it, since a rounding error there moves the result by a pixel.
      Infinities and NaN are outside the model.
    - The 2D context is a record of its drawing state, the stack of saved
      states, the current path and the list of paint operations applied to
      the bitmap so far.  An assignment to a context attribute stores the
      assigned value when the attribute takes it and is ignored otherwise
      (a line width that is not positive, a negative blur, an alpha outside
      [0, 1], a string that is no colour).  The calls that can raise a DOM
      exception ([arc], [ellipse], [createRadialGradient], [addColorStop])
      raise it, and an exception keeps the mutations made before it.
    - The host (window, animation frame scheduler, resize events) is a
      record [World]; closures handed to the host are constructors that the
      event loop dispatches on. *)

From Stdlib Require Import Reals Lra List String Ascii ZArith NArith Lia Bool.
From Stdlib Require Import Epsilon.
Import ListNotations.

Local Open Scope string_scope.
Local Open Scope list_scope.
Local Open Scope R_scope.

(** ** JavaScript values and control *)

Module JS.

Definition number : Type := R.

Definition Math_PI : number := PI.
Definition Math_sin (x : number) : number := sin x.
Definition Math_cos (x : number) : number := cos x.
Definition Math_ceil (x : number) : number := IZR (Zceil x).
Definition Math_max (x y : number) : number := Rmax x y.

(** The binary64 number nearest to a real number, ties to even: [binade]
    is the exponent [e] with [2^e <= |x| < 2^(e+1)], [ulp] the distance
    between neighbouring binary64 numbers there (53 bits of precision,
    subnormal below [2^-1022]). *)
Definition binade (x : R) : Z := Zfloor (ln (Rabs x) / ln 2).

Definition ulp (x : R) : R := powerRZ 2 (Z.max (binade x) (-1022) - 52).

Definition nearest_even (m : R) : Z :=
  let f := Zfloor m in
  if Rlt_dec (m - IZR f) (1 / 2) then f
  else if Rlt_dec (1 / 2) (m - IZR f) then (f + 1)%Z
  else if Z.even f then f else (f + 1)%Z.

Definition binary64 (x : R) : R :=
  if Req_dec_T x 0 then 0 else IZR (nearest_even (x / ulp x)) * ulp x.

(** [x * y] as the machine computes it. *)
Definition times (x y : number) : number := binary64 (x * y).

(** [x || d] on numbers: [0] is the falsy number. *)
Definition number_or (x d : number) : number :=
  if Req_dec_T x 0 then d else x.

(** The DOM exceptions the canvas calls of this program can raise. *)
Inductive exn : Set := IndexSizeError | SyntaxError.

Inductive outcome (A : Type) : Type :=
| Ret (a : A)
| Throw (e : exn).
Arguments Ret {A} a.
Arguments Throw {A} e.

(** A computation over a mutable store [S]: the store survives a throw. *)
Definition M (S A : Type) : Type := S -> outcome A * S.

Definition ret {S A : Type} (a : A) : M S A := fun s => (Ret a, s).

Definition throw {S A : Type} (e : exn) : M S A := fun s => (Throw e, s).

Definition bind {S A B : Type} (m : M S A) (k : A -> M S B) : M S B :=
  fun s =>
    match m s with
    | (Ret a, s') => k a s'
    | (Throw e, s') => (Throw e, s')
    end.

Definition gets {S A : Type} (f : S -> A) : M S A := fun s => (Ret (f s), s).

Definition modify {S : Type} (f : S -> S) : M S unit := fun s => (Ret tt, f s).

(** [for (let i = from; i < bound; i++) body(i)].  The guard is tested
    before every iteration; [fuel] bounds the number of iterations. *)
Fixpoint for_from {S : Type} (fuel i : nat) (bound : number)
    (body : nat -> M S unit) : M S unit :=
  match fuel with
  | O => ret tt
  | Datatypes.S fuel' =>
      if Rlt_dec (INR i) bound
      then bind (body i) (fun _ => for_from fuel' (Datatypes.S i) bound body)
      else ret tt
  end.

(** [for (let i = 0; i < bound; i++) body(i)]: [ceil bound] iterations
    reach the exit of the loop (lemma [for_lt_exits_by_guard]). *)
Definition for_lt {S : Type} (bound : number) (body : nat -> M S unit) : M S unit :=
  for_from (Z.to_nat (Zceil bound)) 0 bound body.

(** The body run on the indices of a list, in order: an unrolled loop. *)
Fixpoint each {S : Type} (l : list nat) (body : nat -> M S unit) : M S unit :=
  match l with
  | [] => ret tt
  | i :: rest => bind (body i) (fun _ => each rest body)
  end.

End JS.

Import JS.

Declare Scope js_scope.
Delimit Scope js_scope with js.
Notation "x <- m ;; k" := (bind m (fun x => k))
  (at level 61, m at next level, right associativity) : js_scope.
Notation "m ;; k" := (bind m (fun _ => k))
  (at level 61, right associativity) : js_scope.
Local Open Scope js_scope.

(** ** Colour strings *)

Module Css.

Record rgba : Set := mk_rgba { red : N; green : N; blue : N; opacity : N }.

Definition hex_digit (c : ascii) : option N :=
  let n := N_of_ascii c in
  if ((48 <=? n) && (n <=? 57))%N then Some (n - 48)%N
  else if ((97 <=? n) && (n <=? 102))%N then Some (n - 87)%N
  else if ((65 <=? n) && (n <=? 70))%N then Some (n - 55)%N
  else None.

Fixpoint hex_digits (s : string) : option (list N) :=
  match s with
  | EmptyString => Some []
  | String c rest =>
      match hex_digit c, hex_digits rest with
      | Some d, Some ds => Some (d :: ds)
      | _, _ => None
      end
  end.

(** ASCII white space around a colour string is skipped. *)
Definition is_space (c : ascii) : bool :=
  let n := N_of_ascii c in
  ((n =? 9) || (n =? 10) || (n =? 12) || (n =? 13) || (n =? 32))%N.

Fixpoint trim_left (s : string) : string :=
  match s with
  | EmptyString => EmptyString
  | String c rest => if is_space c then trim_left rest else s
  end.

Fixpoint trim_right (s : string) : string :=
  match s with
  | EmptyString => EmptyString
  | String c rest =>
      match trim_right rest with
      | EmptyString => if is_space c then EmptyString else String c EmptyString
      | rest' => String c rest'
      end
  end.

Definition trim (s : string) : string := trim_right (trim_left s).

(** The colour of the digits that follow [#]: 3, 4, 6 or 8 of them. *)
Definition hex_notation (digits : list N) : option rgba :=
  match digits with
  | [r; g; b] => Some (mk_rgba (17 * r) (17 * g) (17 * b) 255)
  | [r; g; b; a] => Some (mk_rgba (17 * r) (17 * g) (17 * b) (17 * a))
  | [r1; r2; g1; g2; b1; b2] =>
      Some (mk_rgba (16 * r1 + r2) (16 * g1 + g2) (16 * b1 + b2) 255)
  | [r1; r2; g1; g2; b1; b2; a1; a2] =>
      Some (mk_rgba (16 * r1 + r2) (16 * g1 + g2) (16 * b1 + b2) (16 * a1 + a2))
  | _ => None
  end.

(** The canvas also takes colour names, functional notations, system
    colours and strings with escapes or comments.  This development does
    not decide those: [other_notation] stands for the verdict of the
    canvas on them and is left unspecified (some function from strings to
    verdicts), so that a property below holds whatever that verdict is. *)
Definition other_notation : string -> option rgba :=
  epsilon (inhabits (fun _ : string => @None rgba)) (fun _ => True).

(** The colour a string denotes for the canvas.  Decided here: [#]
    followed by hex digits only ([#rgb], [#rgba], [#rrggbb], [#rrggbbaa]
    are colours, any other number of digits is not), the keyword
    [transparent], the literal [rgba(0,0,0,0)] and the empty string (no
    colour), each with white space around it or not.  Channels and opacity
    are bytes (opacity 255 is opaque).  [None]: not a colour. *)
Definition color (s : string) : option rgba :=
  let t := trim s in
  if String.eqb t "transparent" then Some (mk_rgba 0 0 0 0)
  else if String.eqb t "rgba(0,0,0,0)" then Some (mk_rgba 0 0 0 0)
  else
    match t with
    | String c ds =>
        if Ascii.eqb c "#" then
          match hex_digits ds with
          | Some digits => hex_notation digits
          | None => other_notation t
          end
        else other_notation t
    | EmptyString => None
    end.

Definition is_color (s : string) : bool :=
  match color s with
  | Some _ => true
  | None => false
  end.

(** [#] followed by hex digits, but not 3, 4, 6 or 8 of them: a string
    that is certainly no colour. *)
Definition malformed_hex (s : string) : bool :=
  match trim s with
  | String c ds =>
      Ascii.eqb c "#" &&
      match hex_digits ds with
      | Some digits =>
          match hex_notation digits with
          | Some _ => false
          | None => true
          end
      | None => false
      end
  | EmptyString => false
  end.

(** A colour written with six hex digits, [#rrggbb]: its three channels. *)
Definition hex6 (s : string) : option (N * N * N) :=
  match s with
  | String c ds =>
      if Ascii.eqb c "#" then
        match hex_digits ds with
        | Some [r1; r2; g1; g2; b1; b2] =>
            Some (16 * r1 + r2, 16 * g1 + g2, 16 * b1 + b2)%N
        | _ => None
        end
      else None
  | EmptyString => None
  end.

End Css.

(** ** The 2D rendering context *)

Module Canvas2D.

(** The matrix [[a c e] [b d f] [0 0 1]]. *)
Record Matrix : Type := mkMatrix { ma : R; mb : R; mc : R; md : R; me : R; mf : R }.

Definition identity : Matrix := mkMatrix 1 0 0 1 0 0.

Record Gradient : Type := mkGradient {
  gx0 : R; gy0 : R; gr0 : R;
  gx1 : R; gy1 : R; gr1 : R;
  stops : list (R * Css.rgba)
}.

(** A fill or stroke style: the colour that a string denotes, or a
    gradient.  (The canvas keeps the colour; the string it gives back when
    the attribute is read is not modelled.) *)
Inductive Style : Type :=
| Color (s : string)
| GradientStyle (g : Gradient).

(** The part of the context that [save] pushes and [restore] pops. *)
Record DrawState : Type := mkDrawState {
  strokeStyle : Style;
  fillStyle : Style;
  lineWidth : R;
  lineJoin : string;
  lineCap : string;
  shadowColor : string;
  shadowBlur : R;
  globalAlpha : R;
  globalCompositeOperation : string;
  transform : Matrix
}.

Definition default_state : DrawState :=
  mkDrawState (Color "#000000") (Color "#000000") 1 "miter" "butt"
              "rgba(0, 0, 0, 0)" 0 1 "source-over" identity.

Inductive Segment : Type :=
| MoveTo (x y : R)
| LineTo (x y : R)
| QuadraticCurveTo (cpx cpy x y : R)
| BezierCurveTo (cp1x cp1y cp2x cp2y x y : R)
| Arc (x y radius startAngle endAngle : R) (counterclockwise : bool)
| Ellipse (x y radiusX radiusY rotation startAngle endAngle : R)
| ClosePath.

(** A segment of the current path, with the transform in force when it was
    added. *)
Record PathItem : Type := mkPathItem { ctm : Matrix; seg : Segment }.

Inductive PaintOp : Type :=
| ClearRect (m : Matrix) (x y w h : R)
| Fill (st : DrawState) (p : list PathItem)
| Stroke (st : DrawState) (p : list PathItem)
| ResetBitmap.

Record Ctx : Type := mkCtx {
  cur : DrawState;
  saved : list DrawState;
  path : list PathItem;
  surface : list PaintOp
}.

(** The context of a canvas whose bitmap was just (re)allocated. *)
Definition reset (c : Ctx) : Ctx :=
  mkCtx default_state [] [] (surface c ++ [ResetBitmap]).

Definition set_cur (f : DrawState -> DrawState) : M Ctx unit :=
  modify (fun c => mkCtx (f (cur c)) (saved c) (path c) (surface c)).

Definition set_path (f : list PathItem -> list PathItem) : M Ctx unit :=
  modify (fun c => mkCtx (cur c) (saved c) (f (path c)) (surface c)).

Definition paint (op : Ctx -> PaintOp) : M Ctx unit :=
  modify (fun c => mkCtx (cur c) (saved c) (path c) (surface c ++ [op c])).

Definition save : M Ctx unit :=
  modify (fun c => mkCtx (cur c) (cur c :: saved c) (path c) (surface c)).

Definition restore : M Ctx unit :=
  modify (fun c =>
    match saved c with
    | [] => c
    | s :: rest => mkCtx s rest (path c) (surface c)
    end).

(** Whether a value is a fill or stroke style: a gradient, or a string
    that is a colour. *)
Definition is_style (v : Style) : bool :=
  match v with
  | Color s => Css.is_color s
  | GradientStyle _ => true
  end.

(** Attribute updates of a drawing state: what an assignment to the
    attribute leaves.  A value the attribute does not take leaves the
    state as it is: a string that is no colour for [strokeStyle],
    [fillStyle] and [shadowColor], a line width that is not positive, a
    negative shadow blur, an alpha outside [0, 1].  ([lineJoin], [lineCap]
    and [globalCompositeOperation] are only ever assigned the constants
    ["round"] and ["lighter"], which they take.) *)
Definition with_strokeStyle (v : Style) (s : DrawState) : DrawState :=
  if is_style v then
    mkDrawState v (fillStyle s) (lineWidth s) (lineJoin s)
      (lineCap s) (shadowColor s) (shadowBlur s) (globalAlpha s)
      (globalCompositeOperation s) (transform s)
  else s.

Definition with_fillStyle (v : Style) (s : DrawState) : DrawState :=
  if is_style v then
    mkDrawState (strokeStyle s) v (lineWidth s) (lineJoin s)
      (lineCap s) (shadowColor s) (shadowBlur s) (globalAlpha s)
      (globalCompositeOperation s) (transform s)
  else s.

Definition with_lineWidth (v : R) (s : DrawState) : DrawState :=
  if Rlt_dec 0 v then
    mkDrawState (strokeStyle s) (fillStyle s) v (lineJoin s)
      (lineCap s) (shadowColor s) (shadowBlur s) (globalAlpha s)
      (globalCompositeOperation s) (transform s)
  else s.

Definition with_lineJoin (v : string) (s : DrawState) : DrawState :=
  mkDrawState (strokeStyle s) (fillStyle s) (lineWidth s) v
    (lineCap s) (shadowColor s) (shadowBlur s) (globalAlpha s)
    (globalCompositeOperation s) (transform s).

Definition with_lineCap (v : string) (s : DrawState) : DrawState :=
  mkDrawState (strokeStyle s) (fillStyle s) (lineWidth s)
    (lineJoin s) v (shadowColor s) (shadowBlur s) (globalAlpha s)
    (globalCompositeOperation s) (transform s).

Definition with_shadowColor (v : string) (s : DrawState) : DrawState :=
  if Css.is_color v then
    mkDrawState (strokeStyle s) (fillStyle s) (lineWidth s)
      (lineJoin s) (lineCap s) v (shadowBlur s) (globalAlpha s)
      (globalCompositeOperation s) (transform s)
  else s.

Definition with_shadowBlur (v : R) (s : DrawState) : DrawState :=
  if Rlt_dec v 0 then s
  else
    mkDrawState (strokeStyle s) (fillStyle s) (lineWidth s)
      (lineJoin s) (lineCap s) (shadowColor s) v (globalAlpha s)
      (globalCompositeOperation s) (transform s).

Definition with_globalAlpha (v : R) (s : DrawState) : DrawState :=
  if Rlt_dec v 0 then s
  else if Rlt_dec 1 v then s
  else
    mkDrawState (strokeStyle s) (fillStyle s) (lineWidth s)
      (lineJoin s) (lineCap s) (shadowColor s) (shadowBlur s) v
      (globalCompositeOperation s) (transform s).

Definition with_globalCompositeOperation (v : string) (s : DrawState)
  : DrawState :=
  mkDrawState (strokeStyle s) (fillStyle s) (lineWidth s)
    (lineJoin s) (lineCap s) (shadowColor s) (shadowBlur s) (globalAlpha s)
    v (transform s).

Definition with_transform (f : Matrix -> Matrix) (s : DrawState) : DrawState :=
  mkDrawState (strokeStyle s) (fillStyle s) (lineWidth s)
    (lineJoin s) (lineCap s) (shadowColor s) (shadowBlur s) (globalAlpha s)
    (globalCompositeOperation s) (f (transform s)).

Definition set_strokeStyle (v : Style) : M Ctx unit :=
  set_cur (with_strokeStyle v).

Definition set_fillStyle (v : Style) : M Ctx unit :=
  set_cur (with_fillStyle v).

Definition set_lineWidth (v : R) : M Ctx unit :=
  set_cur (with_lineWidth v).

Definition set_lineJoin (v : string) : M Ctx unit :=
  set_cur (with_lineJoin v).

Definition set_lineCap (v : string) : M Ctx unit :=
  set_cur (with_lineCap v).

Definition set_shadowColor (v : string) : M Ctx unit :=
  set_cur (with_shadowColor v).

Definition set_shadowBlur (v : R) : M Ctx unit :=
  set_cur (with_shadowBlur v).

Definition set_globalAlpha (v : R) : M Ctx unit :=
  set_cur (with_globalAlpha v).

Definition set_globalCompositeOperation (v : string) : M Ctx unit :=
  set_cur (with_globalCompositeOperation v).

Definition set_transform (f : Matrix -> Matrix) : M Ctx unit :=
  set_cur (with_transform f).

(** [setTransform(a, b, c, d, e, f)] replaces the current matrix. *)
Definition setTransform (a b c d e f : R) : M Ctx unit :=
  set_transform (fun _ => mkMatrix a b c d e f).

(** [translate], [rotate] and [scale] multiply the current matrix on the
    right. *)
Definition translate (tx ty : R) : M Ctx unit :=
  set_transform (fun m =>
    mkMatrix (ma m) (mb m) (mc m) (md m)
             (ma m * tx + mc m * ty + me m) (mb m * tx + md m * ty + mf m)).

Definition rotate (angle : R) : M Ctx unit :=
  set_transform (fun m =>
    mkMatrix (ma m * cos angle + mc m * sin angle)
             (mb m * cos angle + md m * sin angle)
             (mc m * cos angle - ma m * sin angle)
             (md m * cos angle - mb m * sin angle)
             (me m) (mf m)).

Definition scale (sx sy : R) : M Ctx unit :=
  set_transform (fun m =>
    mkMatrix (ma m * sx) (mb m * sx) (mc m * sy) (md m * sy) (me m) (mf m)).

Definition add_segment (s : Segment) : M Ctx unit :=
  c <- gets cur ;;
  set_path (fun p => p ++ [mkPathItem (transform c) s]).

Definition beginPath : M Ctx unit := set_path (fun _ => []).

Definition moveTo (x y : R) : M Ctx unit := add_segment (MoveTo x y).

Definition lineTo (x y : R) : M Ctx unit := add_segment (LineTo x y).

Definition quadraticCurveTo (cpx cpy x y : R) : M Ctx unit :=
  add_segment (QuadraticCurveTo cpx cpy x y).

Definition bezierCurveTo (cp1x cp1y cp2x cp2y x y : R) : M Ctx unit :=
  add_segment (BezierCurveTo cp1x cp1y cp2x cp2y x y).

Definition closePath : M Ctx unit := add_segment ClosePath.

(** [arc] raises IndexSizeError on a negative radius. *)
Definition arc (x y radius startAngle endAngle : R) (counterclockwise : bool)
  : M Ctx unit :=
  if Rlt_dec radius 0 then throw IndexSizeError
  else add_segment (Arc x y radius startAngle endAngle counterclockwise).

(** [ellipse] raises IndexSizeError on a negative radius. *)
Definition ellipse (x y radiusX radiusY rotation startAngle endAngle : R)
  : M Ctx unit :=
  if Rlt_dec radiusX 0 then throw IndexSizeError
  else if Rlt_dec radiusY 0 then throw IndexSizeError
  else add_segment (Ellipse x y radiusX radiusY rotation startAngle endAngle).

Definition fill : M Ctx unit := paint (fun c => Fill (cur c) (path c)).

Definition stroke : M Ctx unit := paint (fun c => Stroke (cur c) (path c)).

Definition clearRect (x y w h : R) : M Ctx unit :=
  paint (fun c => ClearRect (transform (cur c)) x y w h).

(** [createRadialGradient] raises IndexSizeError on a negative radius. *)
Definition createRadialGradient (x0 y0 r0 x1 y1 r1 : R) : M Ctx Gradient :=
  if Rlt_dec r0 0 then throw IndexSizeError
  else if Rlt_dec r1 0 then throw IndexSizeError
  else ret (mkGradient x0 y0 r0 x1 y1 r1 []).

(** [gradient.addColorStop(offset, color)] raises IndexSizeError on an
    offset outside [0, 1] and SyntaxError on a string that is not a colour. *)
Definition addColorStop (g : Gradient) (offset : R) (color : string)
  : M Ctx Gradient :=
  if Rlt_dec offset 0 then throw IndexSizeError
  else if Rlt_dec 1 offset then throw IndexSizeError
  else
    match Css.color color with
    | None => throw SyntaxError
    | Some c =>
        ret (mkGradient (gx0 g) (gy0 g) (gr0 g) (gx1 g) (gy1 g) (gr1 g)
                        (stops g ++ [(offset, c)]))
    end.

End Canvas2D.

(** ** The host: window, canvas element, scheduler *)

Module Host.

Import Canvas2D.

(** [OrnamentProps]: every property is optional. *)
Record OrnamentProps : Type := mkOrnamentProps {
  prop_size : option number;
  prop_color : option string;
  prop_glow : option number;
  prop_rotation : option number;
  prop_pulse : option bool
}.

(** The destructured properties a render of Ornament closes over. *)
Record Config : Type := mkConfig {
  size : number;
  color : string;
  glow : number;
  rotation : number;
  pulse : bool
}.

Definition or_default {A : Type} (o : option A) (d : A) : A :=
  match o with Some v => v | None => d end.

Definition destructure (p : OrnamentProps) : Config :=
  mkConfig (or_default (prop_size p) 160)
           (or_default (prop_color p) "#ff02e6")
           (or_default (prop_glow p) 28)
           (or_default (prop_rotation p) 0)
           (or_default (prop_pulse p) false).

(** The closures the components hand to the host. *)
Inductive FrameCallback : Type :=
| MandalaRender
| OrnamentFrame (cfg : Config).

Inductive ResizeListener : Type :=
| MandalaResize
| OrnamentOnResize (cfg : Config).

(** What an effect returns to React for teardown; the number is the
    identity of the resize closure the effect created. *)
Inductive Cleanup : Type :=
| MandalaCleanup (resize : nat)
| OrnamentCleanup (onResize : nat).

(** The canvas element: backing size, [style.width] and [style.height] in
    px when set, and its 2D context. *)
Record CanvasElement : Type := mkCanvas {
  width : number;
  height : number;
  style_width : option number;
  style_height : option number;
  context : Ctx
}.

(** The page.  [innerWidth] and [innerHeight] are the viewport in CSS
    pixels, whole numbers of the host. *)
Record World : Type := mkWorld {
  innerWidth : number;
  innerHeight : number;
  devicePixelRatio : number;
  canvasRef : bool;      (* canvasRef.current is the element, or null *)
  context2d : bool;      (* getContext("2d") is the context, or null *)
  canvas : CanvasElement;
  listeners : list (nat * ResizeListener);   (* resize listeners of window *)
  callbacks : list (nat * FrameCallback);    (* pending animation frame callbacks *)
  handle : nat;          (* last animation frame handle given out *)
  closures : nat;        (* closures created so far *)
  rafRef : option nat;
  tRef : number
}.

Definition set_canvas (f : CanvasElement -> CanvasElement) : M World unit :=
  modify (fun w => mkWorld (innerWidth w) (innerHeight w) (devicePixelRatio w)
    (canvasRef w) (context2d w) (f (canvas w)) (listeners w) (callbacks w)
    (handle w) (closures w) (rafRef w) (tRef w)).

Definition set_listeners
    (f : list (nat * ResizeListener) -> list (nat * ResizeListener))
  : M World unit :=
  modify (fun w => mkWorld (innerWidth w) (innerHeight w) (devicePixelRatio w)
    (canvasRef w) (context2d w) (canvas w) (f (listeners w)) (callbacks w)
    (handle w) (closures w) (rafRef w) (tRef w)).

Definition set_callbacks
    (f : list (nat * FrameCallback) -> list (nat * FrameCallback))
  : M World unit :=
  modify (fun w => mkWorld (innerWidth w) (innerHeight w) (devicePixelRatio w)
    (canvasRef w) (context2d w) (canvas w) (listeners w) (f (callbacks w))
    (handle w) (closures w) (rafRef w) (tRef w)).

Definition set_handle (h : nat) : M World unit :=
  modify (fun w => mkWorld (innerWidth w) (innerHeight w) (devicePixelRatio w)
    (canvasRef w) (context2d w) (canvas w) (listeners w) (callbacks w)
    h (closures w) (rafRef w) (tRef w)).

Definition set_closures (n : nat) : M World unit :=
  modify (fun w => mkWorld (innerWidth w) (innerHeight w) (devicePixelRatio w)
    (canvasRef w) (context2d w) (canvas w) (listeners w) (callbacks w)
    (handle w) n (rafRef w) (tRef w)).

Definition set_rafRef (v : option nat) : M World unit :=
  modify (fun w => mkWorld (innerWidth w) (innerHeight w) (devicePixelRatio w)
    (canvasRef w) (context2d w) (canvas w) (listeners w) (callbacks w)
    (handle w) (closures w) v (tRef w)).

Definition set_tRef (v : number) : M World unit :=
  modify (fun w => mkWorld (innerWidth w) (innerHeight w) (devicePixelRatio w)
    (canvasRef w) (context2d w) (canvas w) (listeners w) (callbacks w)
    (handle w) (closures w) (rafRef w) v).

Definition set_viewport (iw ih : number) : M World unit :=
  modify (fun w => mkWorld iw ih (devicePixelRatio w)
    (canvasRef w) (context2d w) (canvas w) (listeners w) (callbacks w)
    (handle w) (closures w) (rafRef w) (tRef w)).

(** The conversion of a number to [canvas.width] or [canvas.height],
    attributes of type unsigned long limited to 0 .. 2147483647: the number
    is truncated towards zero and taken modulo 2^32, and a result above
    2147483647 gives the default of the attribute. *)
Definition unsigned_long (default v : number) : number :=
  let z := ((if Rlt_dec v 0 then Zceil v else Zfloor v) mod 4294967296)%Z in
  if (z <=? 2147483647)%Z then IZR z else default.

(** What [style.width = `${px}px`] leaves of the declared width [old]: a
    negative length is no width, and the assignment is ignored. *)
Definition declared (old : option number) (px : number) : option number :=
  if Rlt_dec px 0 then old else Some px.

(** The attributes [width] and [height] take the value [v], a whole number
    in 0 .. 2147483647: the bitmap is reallocated and the context returns
    to its default state. *)
Definition set_width (v : number) : M World unit :=
  set_canvas (fun c =>
    mkCanvas v (height c) (style_width c) (style_height c) (reset (context c))).

Definition set_height (v : number) : M World unit :=
  set_canvas (fun c =>
    mkCanvas (width c) v (style_width c) (style_height c) (reset (context c))).

(** [canvas.width = v] and [canvas.height = v] for a number [v]; the
    defaults are 300 and 150. *)
Definition assign_width (v : number) : M World unit :=
  set_width (unsigned_long 300 v).

Definition assign_height (v : number) : M World unit :=
  set_height (unsigned_long 150 v).

Definition set_style_width (px : number) : M World unit :=
  set_canvas (fun c =>
    mkCanvas (width c) (height c) (declared (style_width c) px)
      (style_height c) (context c)).

Definition set_style_height (px : number) : M World unit :=
  set_canvas (fun c =>
    mkCanvas (width c) (height c) (style_width c)
      (declared (style_height c) px) (context c)).

(** Run context calls on the context of the canvas. *)
Definition on_ctx {A : Type} (m : M Ctx A) : M World A :=
  fun w =>
    let (r, c') := m (context (canvas w)) in
    (r, snd (set_canvas (fun c =>
               mkCanvas (width c) (height c) (style_width c) (style_height c) c')
             w)).

(** A new closure: its identity. *)
Definition new_closure : M World nat :=
  n <- gets closures ;;
  set_closures (S n) ;;
  ret (S n).

(** [window.addEventListener("resize", l)]: a listener already present is
    not added again. *)
Definition addEventListener (id : nat) (l : ResizeListener) : M World unit :=
  set_listeners (fun ls =>
    if existsb (fun e => Nat.eqb (fst e) id) ls then ls else ls ++ [(id, l)]).

Definition removeEventListener (id : nat) : M World unit :=
  set_listeners (filter (fun e => negb (Nat.eqb (fst e) id))).

(** [requestAnimationFrame(cb)]: handles count up from 1. *)
Definition requestAnimationFrame (cb : FrameCallback) : M World nat :=
  h <- gets handle ;;
  set_handle (S h) ;;
  set_callbacks (fun cbs => cbs ++ [(S h, cb)]) ;;
  ret (S h).

Definition cancelAnimationFrame (h : nat) : M World unit :=
  set_callbacks (filter (fun e => negb (Nat.eqb (fst e) h))).

End Host.

(** ** MandalaBase.tsx *)

Module MandalaBase.

Import Canvas2D Host.

(** [window.innerWidth] and [window.innerHeight] are whole numbers of
    the host in 0 .. 2147483647: the attributes take them as they are. *)
Definition resize : M World unit :=
  iw <- gets innerWidth ;;
  set_width iw ;;
  ih <- gets innerHeight ;;
  set_height ih.

Definition center : M World (number * number) :=
  w <- gets (fun w => width (canvas w)) ;;
  h <- gets (fun w => height (canvas w)) ;;
  ret (w / 2, h / 2).

Definition drawGlowingRing (x y radius thickness : number) (color : string)
  : M Ctx unit :=
  let innerRadius := radius - thickness / 2 in
  let outerRadius := radius + thickness / 2 in
  gradient <- createRadialGradient x y innerRadius x y outerRadius ;;
  gradient <- addColorStop gradient 0 "transparent" ;;
  gradient <- addColorStop gradient 0.4 (color ++ "80")%string ;;
  gradient <- addColorStop gradient 0.5 color ;;
  gradient <- addColorStop gradient 0.6 (color ++ "80")%string ;;
  gradient <- addColorStop gradient 1 "transparent" ;;
  save ;;
  set_globalCompositeOperation "lighter" ;;
  set_fillStyle (GradientStyle gradient) ;;
  beginPath ;;
  arc x y outerRadius 0 (Math_PI * 2) false ;;
  arc x y innerRadius 0 (Math_PI * 2) true ;;
  closePath ;;
  fill ;;
  restore.

Record CircleOptions : Type := mkCircleOptions {
  opt_color : option string;
  opt_lineWidth : option number;
  opt_dotted : option bool;
  opt_dotCount : option number
}.

Definition drawCircle (x y radius : number) (options : CircleOptions)
  : M Ctx unit :=
  let color := or_default (opt_color options) "#ff00ff" in
  let lineWidth := or_default (opt_lineWidth options) 2 in
  let dotted := or_default (opt_dotted options) false in
  let dotCount := or_default (opt_dotCount options) 120 in
  save ;;
  set_strokeStyle (Color color) ;;
  set_lineWidth lineWidth ;;
  (if dotted then
     let angleStep := (Math_PI * 2) / dotCount in
     for_lt dotCount (fun i =>
       let angle := INR i * angleStep in
       let dotX := x + Math_cos angle * radius in
       let dotY := y + Math_sin angle * radius in
       beginPath ;;
       arc dotX dotY 2 0 (Math_PI * 2) false ;;
       set_fillStyle (Color color) ;;
       fill)
   else
     beginPath ;;
     arc x y radius 0 (Math_PI * 2) false ;;
     stroke) ;;
  restore.

Definition render : M World unit :=
  c <- center ;;
  let (x, y) := c in
  w <- gets (fun w => width (canvas w)) ;;
  h <- gets (fun w => height (canvas w)) ;;
  on_ctx (
    clearRect 0 0 w h ;;
    drawGlowingRing x y 170 60 "#ff00ff" ;;
    drawCircle x y 200
      (mkCircleOptions (Some "#ff66ff") (Some 4) None None) ;;
    drawCircle x y 230
      (mkCircleOptions (Some "#ff00ff") None (Some true) (Some 160))) ;;
  _ <- requestAnimationFrame MandalaRender ;;
  ret tt.

(** The body of [useEffect]: [None] is the early [return;]. *)
Definition effect : M World (option Cleanup) :=
  present <- gets canvasRef ;;
  if negb present then ret None else
  ctx <- gets context2d ;;
  if negb ctx then ret None else
  resize_id <- new_closure ;;
  resize ;;
  addEventListener resize_id MandalaResize ;;
  render ;;
  ret (Some (MandalaCleanup resize_id)).

(** [() => window.removeEventListener("resize", resize)]. *)
Definition cleanup (resize_id : nat) : M World unit :=
  removeEventListener resize_id.

End MandalaBase.

(** ** Ornaments.tsx *)

Module Ornament.

Import Canvas2D Host.

(** helper: high-DPI resize *)
Definition resizeCanvas (cfg : Config) : M World unit :=
  d <- gets devicePixelRatio ;;
  let dpr := number_or d 1 in
  assign_width (Math_ceil (times (size cfg) dpr)) ;;
  assign_height (Math_ceil (times (size cfg) dpr)) ;;
  set_style_width (size cfg) ;;
  set_style_height (size cfg) ;;
  ctx <- gets context2d ;;
  if ctx then on_ctx (setTransform dpr 0 0 dpr 0 0) else ret tt.

Record StrokeOptions : Type := mkStrokeOptions {
  opt_w : option number;
  opt_blur : option number;
  opt_alpha : option number
}.

(** [opts = {}] *)
Definition no_options : StrokeOptions := mkStrokeOptions None None None.

(** neon stroke helper: stroke with glow + inner stroke for crispness *)
Definition neonStroke (cfg : Config) (path : M Ctx unit) (opts : StrokeOptions)
  : M Ctx unit :=
  let w := or_default (opt_w opts) 2.2 in
  let blur := or_default (opt_blur opts) (glow cfg) in
  let alpha := or_default (opt_alpha opts) 1 in
  save ;;
  set_lineJoin "round" ;;
  set_lineCap "round" ;;
  set_globalAlpha alpha ;;

  set_shadowColor (color cfg) ;;
  set_shadowBlur blur ;;
  set_strokeStyle (Color (color cfg)) ;;
  set_lineWidth (w * 2.6) ;;
  path ;;
  stroke ;;

  (* crisp core *)
  set_shadowBlur 0 ;;
  set_strokeStyle (Color (color cfg)) ;;
  set_lineWidth w ;;
  path ;;
  stroke ;;

  restore.

Definition crownRadius : number := 36.
Definition crownCount : number := 7.

(** One turn of the crown loop: a petal. *)
Definition petal (i : nat) : M Ctx unit :=
  let a := (- Math_PI / 2) + (INR i - (crownCount - 1) / 2) * (Math_PI / 10) in
  let tipX := Math_cos a * (crownRadius + 6) in
  let tipY := Math_sin a * (crownRadius + 6) - 14 in
  let baseLeftX := Math_cos (a - 0.12) * crownRadius in
  let baseLeftY := Math_sin (a - 0.12) * crownRadius - 8 in
  let baseRightX := Math_cos (a + 0.12) * crownRadius in
  let baseRightY := Math_sin (a + 0.12) * crownRadius - 8 in
  moveTo baseLeftX baseLeftY ;;
  quadraticCurveTo (tipX * 0.9) (tipY * 0.9) tipX tipY ;;
  quadraticCurveTo (tipX * 0.95) (tipY * 0.95) baseRightX baseRightY.

(** The five path procedures handed to [neonStroke], in source order. *)
Definition crown_path : M Ctx unit := stroke.

Definition oval_path : M Ctx unit :=
  beginPath ;;
  ellipse 0 (-2) 46 64 0 0 (Math_PI * 2).

Definition rod_path : M Ctx unit :=
  beginPath ;;
  moveTo 0 (-72) ;;
  lineTo 0 (-12) ;;
  moveTo 0 8 ;;
  lineTo 0 52.

Definition circlet_path : M Ctx unit :=
  beginPath ;;
  (* horizontal crossbar near center *)
  moveTo (-18) 6 ;;
  quadraticCurveTo 0 (-2) 18 6 ;;
  (* small circle intersection *)
  moveTo 0 8 ;;
  arc 0 8 12 0 (Math_PI * 2) false.

Definition pendant_path : M Ctx unit :=
  beginPath ;;
  (* upper small loop *)
  ellipse 0 38 14 10 0 0 (Math_PI * 2) ;;
  (* lower small loop (slightly offset) *)
  ellipse 0 56 10 7 0 0 (Math_PI * 2) ;;
  (* bottom teardrop / pendant *)
  moveTo 0 66 ;;
  bezierCurveTo 6 76 8 86 0 92 ;;
  bezierCurveTo (-8) 86 (-6) 76 0 66.

(** draw ornament centered at (0,0), oriented up (pointing to -Y).
    [scale = 1] when the argument is left out. *)
Definition drawOrnamentAt (cfg : Config) (scale_arg : option number)
  : M Ctx unit :=
  let scale := or_default scale_arg 1 in
  save ;;
  Canvas2D.scale scale scale ;;

  (* Top petal crown: a crown of triangular petals *)
  beginPath ;;
  for_lt crownCount petal ;;
  neonStroke cfg crown_path (mkStrokeOptions (Some 2.2) None None) ;;

  (* Main outer oval frame around the mid section *)
  neonStroke cfg oval_path
    (mkStrokeOptions (Some 4) (Some (glow cfg * 1.02)) None) ;;

  (* Central vertical rod / spike *)
  neonStroke cfg rod_path
    (mkStrokeOptions (Some 3.2) (Some (glow cfg * 0.9)) None) ;;

  (* Small cross/loop in the middle (looks like a circlet) *)
  neonStroke cfg circlet_path (mkStrokeOptions (Some 2.0) None None) ;;

  (* Lower decorative double-circle & tear *)
  neonStroke cfg pendant_path (mkStrokeOptions (Some 2.0) None None) ;;

  (* small inner accent dots *)
  set_fillStyle (Color (color cfg)) ;;
  set_globalAlpha 0.9 ;;
  beginPath ;;
  arc 0 (-18) 2.6 0 (Math_PI * 2) false ;;
  fill ;;
  beginPath ;;
  arc 0 34 2.2 0 (Math_PI * 2) false ;;
  fill ;;

  restore.

(** The locals [pulseFactor] and [scale] of [frame]. *)
Definition pulseFactor (cfg : Config) (now : number) : number :=
  if pulse cfg then 0.965 + 0.035 * Math_sin (now / 250) else 1.0.

Definition baseDesignHeight : number := 160.

Definition scale (cfg : Config) (now : number) : number :=
  (size cfg / baseDesignHeight) * pulseFactor cfg now.

(** animation loop: supports optional pulse *)
Definition frame (cfg : Config) (now : number) : M World unit :=
  set_tRef (now / 1000) ;;
  let pulseFactor := pulseFactor cfg now in

  (* clear & center *)
  w <- gets (fun w => width (canvas w)) ;;
  h <- gets (fun w => height (canvas w)) ;;
  on_ctx (
    clearRect 0 0 w h ;;
    save ;;
    let cssSize := size cfg in
    translate (cssSize / 2) (cssSize / 2 - 6) ;;
    rotate (rotation cfg) ;;
    let scale := (size cfg / baseDesignHeight) * pulseFactor in

    (* draw outer soft halo (radial gradient) *)
    g <- createRadialGradient 0 (-8) 6 0 (-8) (Math_max 80 (size cfg * 0.7)) ;;
    g <- addColorStop g 0 (color cfg ++ "22")%string ;;
    g <- addColorStop g 1 "rgba(0,0,0,0)" ;;
    set_fillStyle (GradientStyle g) ;;
    beginPath ;;
    ellipse 0 (-8) (72 * scale) (98 * scale) 0 0 (Math_PI * 2) ;;
    fill ;;

    drawOrnamentAt cfg (Some scale) ;;

    restore) ;;
  id <- requestAnimationFrame (OrnamentFrame cfg) ;;
  set_rafRef (Some id).

(** The body of [useEffect]: [None] is the early [return;]. *)
Definition effect (cfg : Config) : M World (option Cleanup) :=
  present <- gets canvasRef ;;
  if negb present then ret None else
  ctx <- gets context2d ;;
  if negb ctx then ret None else
  resizeCanvas cfg ;;
  id <- requestAnimationFrame (OrnamentFrame cfg) ;;
  set_rafRef (Some id) ;;
  onResize_id <- new_closure ;;
  addEventListener onResize_id (OrnamentOnResize cfg) ;;
  ret (Some (OrnamentCleanup onResize_id)).

(** [if (rafRef.current)]: [null] and [0] are falsy. *)
Definition truthy (r : option nat) : bool :=
  match r with
  | None => false
  | Some h => negb (Nat.eqb h 0)
  end.

Definition cleanup (onResize_id : nat) : M World unit :=
  r <- gets rafRef ;;
  (if truthy r then cancelAnimationFrame (or_default r O) else ret tt) ;;
  removeEventListener onResize_id.

End Ornament.

(** ** React and the event loop of the host *)

Module EventLoop.

Import Canvas2D Host.

Definition run_callback (cb : FrameCallback) (now : number) : M World unit :=
  match cb with
  | MandalaRender => MandalaBase.render
  | OrnamentFrame cfg => Ornament.frame cfg now
  end.

Definition run_listener (l : ResizeListener) : M World unit :=
  match l with
  | MandalaResize => MandalaBase.resize
  | OrnamentOnResize cfg => Ornament.resizeCanvas cfg
  end.

(** What the host does to the page. *)
Inductive Event : Type :=
| AnimationFrame (now : number)     (* the pending frame callbacks run *)
| WindowResize (w h : number).      (* the viewport changes, "resize" fires *)

(** The callbacks pending when the frame starts run once, in request
    order, with the frame's timestamp; a request made meanwhile waits for
    the next frame.  An exception ends the callback that raised it only. *)
Definition animation_frame (now : number) (w : World) : World :=
  fold_left (fun w e => snd (run_callback (snd e) now w))
            (callbacks w)
            (snd (set_callbacks (fun _ => []) w)).

Definition window_resize (iw ih : number) (w : World) : World :=
  fold_left (fun w e => snd (run_listener (snd e) w))
            (listeners w)
            (snd (set_viewport iw ih w)).

Definition step (w : World) (e : Event) : World :=
  match e with
  | AnimationFrame now => animation_frame now w
  | WindowResize iw ih => window_resize iw ih w
  end.

Definition run (es : list Event) (w : World) : World := fold_left step es w.

Inductive Component : Type :=
| MandalaBaseComponent
| OrnamentComponent (props : OrnamentProps).

(** Mounting runs the effect; unmounting runs the cleanup the effect
    returned, if it returned one. *)
Definition mount (c : Component) : M World (option Cleanup) :=
  match c with
  | MandalaBaseComponent => MandalaBase.effect
  | OrnamentComponent props => Ornament.effect (destructure props)
  end.

Definition unmount (cl : option Cleanup) : M World unit :=
  match cl with
  | None => ret tt
  | Some (MandalaCleanup id) => MandalaBase.cleanup id
  | Some (OrnamentCleanup id) => Ornament.cleanup id
  end.

(** The paint operations applied to the canvas so far. *)
Definition painted (w : World) : list PaintOp := surface (context (canvas w)).

End EventLoop.

(** ** Vocabulary of the properties *)

Module Spec.

Import Canvas2D Host EventLoop.

Definition transparent : Css.rgba := Css.mk_rgba 0 0 0 0.

(** A colour at another opacity: 128 of 255 is 50.2 %, 255 is 100 %. *)
Definition with_opacity (c : Css.rgba) (o : N) : Css.rgba :=
  Css.mk_rgba (Css.red c) (Css.green c) (Css.blue c) o.

(** The gradient of a glow ring: from [radius - thickness/2] to
    [radius + thickness/2] around [(x, y)], with the five colour stops. *)
Definition glow_gradient (x y radius thickness : R) (c : Css.rgba) : Gradient :=
  mkGradient x y (radius - thickness / 2) x y (radius + thickness / 2)
    [(0, transparent); (0.4, with_opacity c 128); (0.5, with_opacity c 255);
     (0.6, with_opacity c 128); (1, transparent)].

(** The glow-ring primitive, called on the context [c] with a colour string
    that denotes [rgb], returns, and paints one fill whose style is the glow
    gradient of [rgb]. *)
Definition builds_glow_gradient (x y radius thickness : R) (color : string)
    (rgb : Css.rgba) (c : Ctx) : Prop :=
  exists st p,
    MandalaBase.drawGlowingRing x y radius thickness color c
      = (Ret tt, mkCtx (cur c) (saved c) p (surface c ++ [Fill st p])) /\
    fillStyle st = GradientStyle (glow_gradient x y radius thickness rgb).

(** A full circle as a path item. *)
Definition circle (m : Matrix) (x y r : R) (counterclockwise : bool) : PathItem :=
  mkPathItem m (Arc x y r 0 (PI * 2) counterclockwise).

(** The paint operation of a glow ring drawn from the drawing state
    [base]: an annulus filled with the glow gradient, blended "lighter". *)
Definition glow_ring (base : DrawState) (x y radius thickness : R)
    (c : Css.rgba) : PaintOp :=
  Fill (with_fillStyle (GradientStyle (glow_gradient x y radius thickness c))
          (with_globalCompositeOperation "lighter" base))
       [circle (transform base) x y (radius + thickness / 2) false;
        circle (transform base) x y (radius - thickness / 2) true;
        mkPathItem (transform base) ClosePath].

(** The paint operation of a solid ring. *)
Definition solid_ring (base : DrawState) (x y radius : R) (color : string)
    (width : R) : PaintOp :=
  Stroke (with_lineWidth width (with_strokeStyle (Color color) base))
         [circle (transform base) x y radius false].

(** The [i]-th of [n] points evenly spaced on the circle of the given
    radius around [(x, y)]: at angle [i * (2 PI / n)]. *)
Definition dot_centre (x y radius : R) (n : nat) (i : nat) : R * R :=
  (x + cos (INR i * (PI * 2 / INR n)) * radius,
   y + sin (INR i * (PI * 2 / INR n)) * radius).

(** The paint operation of the [i]-th dot of a dotted ring: a filled
    circle of radius 2. *)
Definition dot (base : DrawState) (x y radius : R) (color : string)
    (width : R) (n : nat) (i : nat) : PaintOp :=
  Fill (with_fillStyle (Color color)
          (with_lineWidth width (with_strokeStyle (Color color) base)))
       [circle (transform base) (fst (dot_centre x y radius n i))
               (snd (dot_centre x y radius n i)) 2 false].

Definition dotted_ring (base : DrawState) (x y radius : R) (color : string)
    (width : R) (n : nat) : list PaintOp :=
  map (dot base x y radius color width n) (seq 0 n).

Definition distance (p q : R * R) : R :=
  sqrt ((fst p - fst q)² + (snd p - snd q)²).

Definition magenta : Css.rgba := Css.mk_rgba 255 0 255 255.

(** One frame of MandalaBase painted from the drawing state [base] on a
    surface of [w] by [h] pixels: the surface is cleared, then come the glow
    ring (radius 170, thickness 60, magenta), the solid ring (radius 200,
    colour #ff66ff, line width 4) and the dotted ring (radius 230, magenta,
    160 dots), all three around [(x, y)]. *)
Definition mandala_frame (base : DrawState) (x y w h : R) : list PaintOp :=
  [ClearRect (transform base) 0 0 w h;
   glow_ring base x y 170 60 magenta;
   solid_ring base x y 200 "#ff66ff" 4]
  ++ dotted_ring base x y 230 "#ff00ff" 2 160.

(** A page on which the component can mount: the canvas element and its 2D
    context are there, and nothing listens or waits for a frame yet. *)
Definition fresh_page (w : World) : Prop :=
  canvasRef w = true /\ context2d w = true /\
  listeners w = [] /\ callbacks w = [].

(** A page without the canvas element or without its 2D context. *)
Definition no_surface (w : World) : Prop :=
  canvasRef w = false \/ context2d w = false.


(** The page [w] with [c'] as the context of its canvas. *)
Definition repaint (w : World) (c' : Ctx) : World :=
  mkWorld (innerWidth w) (innerHeight w) (devicePixelRatio w)
    (canvasRef w) (context2d w)
    (mkCanvas (width (canvas w)) (height (canvas w))
       (style_width (canvas w)) (style_height (canvas w)) c')
    (listeners w) (callbacks w) (handle w) (closures w) (rafRef w) (tRef w).


(** A page before anything is mounted on it: a viewport of [vw] by [vh]
    CSS pixels at the given device pixel ratio, and a canvas element of the
    default size 300 by 150 with an untouched context. *)
Definition blank_page (vw vh dpr : R) : World :=
  mkWorld vw vh dpr true true
    (mkCanvas 300 150 None None (mkCtx default_state [] [] []))
    [] [] 0 0 None 0.



(** A path procedure that only builds the current path: it returns, and
    paints nothing and leaves the drawing state and the saved states
    alone. *)
Definition path_only (proc : M Ctx unit) : Prop :=
  forall c, exists p,
    proc c = (Ret tt, mkCtx (cur c) (saved c) p (surface c)).

(** A path procedure that returns and leaves the stack of saved states as
    it found it. *)
Definition balanced (proc : M Ctx unit) : Prop :=
  forall c, exists c', proc c = (Ret tt, c') /\ saved c' = saved c.

(** The drawing states of the two passes of the neon stroke, from the
    state [s] at the call. *)
Definition halo_state (cfg : Config) (opts : Ornament.StrokeOptions)
    (s : DrawState) : DrawState :=
  with_lineWidth (or_default (Ornament.opt_w opts) 2.2 * 2.6)
    (with_strokeStyle (Color (color cfg))
       (with_shadowBlur (or_default (Ornament.opt_blur opts) (glow cfg))
          (with_shadowColor (color cfg)
             (with_globalAlpha (or_default (Ornament.opt_alpha opts) 1)
                (with_lineCap "round" (with_lineJoin "round" s)))))).

Definition core_state (cfg : Config) (opts : Ornament.StrokeOptions)
    (s : DrawState) : DrawState :=
  with_lineWidth (or_default (Ornament.opt_w opts) 2.2)
    (with_strokeStyle (Color (color cfg))
       (with_shadowBlur 0 (halo_state cfg opts s))).

(** The neon stroke, called on the context [c], returns after exactly two
    strokes: the first with line width [w * 2.6], the configured blur and
    the configured colour, the second with line width [w] and no blur;
    [w] defaults to 2.2 and the blur to the configured glow. *)
Definition stroked_twice (cfg : Config) (proc : M Ctx unit)
    (opts : Ornament.StrokeOptions) (c : Ctx) : Prop :=
  let w := or_default (Ornament.opt_w opts) 2.2 in
  let blur := or_default (Ornament.opt_blur opts) (glow cfg) in
  exists st1 p1 st2 p2 c',
    Ornament.neonStroke cfg proc opts c = (Ret tt, c') /\
    surface c' = surface c ++ [Stroke st1 p1; Stroke st2 p2] /\
    lineWidth st1 = w * 2.6 /\ shadowBlur st1 = blur /\
    shadowColor st1 = color cfg /\ strokeStyle st1 = Color (color cfg) /\
    lineWidth st2 = w /\ shadowBlur st2 = 0.


(** [T] is a period of [f]. *)
Definition periodic (f : R -> R) (T : R) : Prop :=
  forall t, f (t + T) = f t.

(** The context calls of one Ornament frame on a surface of [w] by [h]
    pixels, from [clearRect] to the last [restore]. *)
Definition frame_drawing (cfg : Config) (now w h : R) : M Ctx unit :=
  clearRect 0 0 w h ;;
  save ;;
  translate (size cfg / 2) (size cfg / 2 - 6) ;;
  rotate (rotation cfg) ;;
  g <- createRadialGradient 0 (-8) 6 0 (-8) (Math_max 80 (size cfg * 0.7)) ;;
  g <- addColorStop g 0 (color cfg ++ "22")%string ;;
  g <- addColorStop g 1 "rgba(0,0,0,0)" ;;
  set_fillStyle (GradientStyle g) ;;
  beginPath ;;
  ellipse 0 (-8) (72 * Ornament.scale cfg now) (98 * Ornament.scale cfg now)
    0 0 (Math_PI * 2) ;;
  fill ;;
  Ornament.drawOrnamentAt cfg (Some (Ornament.scale cfg now)) ;;
  restore.

(** The gradient of the halo behind the glyph: the colour at opacity
    34/255 (13 %) fading to transparent. *)
Definition halo_gradient (cfg : Config) (c : Css.rgba) : Gradient :=
  mkGradient 0 (-8) 6 0 (-8) (Rmax 80 (size cfg * 0.7))
    [(0, with_opacity c 34); (1, transparent)].

(** Context calls that only add to the paint operations applied so far. *)
Definition appends {A : Type} (m : M Ctx A) : Prop :=
  forall c, exists ops, surface (snd (m c)) = surface c ++ ops.


(** The pulse factor as C1 words it: a sinusoid of the time elapsed since
    the animation loop started, for a loop that started when the clock of
    the frame scheduler read [started] and a frame at timestamp [now]. *)
Definition pulse_since_loop_start (started now : R) : R :=
  0.965 + 0.035 * sin ((now - started) / 250).


(** A mounted Ornament between events: its resize listener is attached,
    and either no frame is pending (the last one raised an exception) or
    exactly its own, under the handle kept in [rafRef]. *)
Definition ornament_running (cfg : Config) (id : nat) (w : World) : Prop :=
  listeners w = [(id, OrnamentOnResize cfg)] /\
  (callbacks w = [] \/
   exists h, callbacks w = [(S h, OrnamentFrame cfg)] /\ rafRef w = Some (S h)).

(** A page on which nothing listens and nothing waits for a frame. *)
Definition quiet (w : World) : Prop :=
  listeners w = [] /\ callbacks w = [].


(** A mounted MandalaBase between events: its resize listener is the one
    listener, one [render] is pending, the canvas has the size of the
    viewport, and the context is in its default state with nothing
    saved. *)
Definition mandala_running (id : nat) (w : World) : Prop :=
  listeners w = [(id, MandalaResize)] /\
  (exists h, callbacks w = [(h, MandalaRender)]) /\
  width (canvas w) = innerWidth w /\
  height (canvas w) = innerHeight w /\
  cur (context (canvas w)) = default_state /\
  saved (context (canvas w)) = [].

(** Whether a paint operation is a stroke. *)
Definition is_stroke (op : PaintOp) : bool :=
  match op with
  | Stroke _ _ => true
  | _ => false
  end.


(** The crown of Ornament.  Petal [i] of the seven leans by
    [(i - 3) * PI / 10] from the upward vertical (the canvas has y
    downwards). *)
Definition lean (i : nat) : R := (INR i - 3) * (PI / 10).

(** The tip of a petal: on the circle of radius 42 around [(0, -14)]. *)
Definition petal_tip (i : nat) : R * R :=
  (sin (lean i) * 42, - cos (lean i) * 42 - 14).

(** The two feet of a petal: 0.12 rad to either side of its axis, on the
    circle of radius 36 around [(0, -8)]. *)
Definition petal_left (i : nat) : R * R :=
  (sin (lean i - 0.12) * 36, - cos (lean i - 0.12) * 36 - 8).

Definition petal_right (i : nat) : R * R :=
  (sin (lean i + 0.12) * 36, - cos (lean i + 0.12) * 36 - 8).

(** The path of a petal: from the left foot to the tip and on to the right
    foot, by two quadratic curves with control points at 0.9 and 0.95 of
    the tip. *)
Definition petal_segments (m : Matrix) (i : nat) : list PathItem :=
  [mkPathItem m (MoveTo (fst (petal_left i)) (snd (petal_left i)));
   mkPathItem m (QuadraticCurveTo (fst (petal_tip i) * 0.9)
                   (snd (petal_tip i) * 0.9)
                   (fst (petal_tip i)) (snd (petal_tip i)));
   mkPathItem m (QuadraticCurveTo (fst (petal_tip i) * 0.95)
                   (snd (petal_tip i) * 0.95)
                   (fst (petal_right i)) (snd (petal_right i)))].

(** The five paths of the glyph, under the transform [m]. *)
Definition crown (m : Matrix) : list PathItem :=
  flat_map (petal_segments m) (seq 0 7).

Definition oval (m : Matrix) : list PathItem :=
  [mkPathItem m (Ellipse 0 (-2) 46 64 0 0 (PI * 2))].

Definition rod (m : Matrix) : list PathItem :=
  [mkPathItem m (MoveTo 0 (-72)); mkPathItem m (LineTo 0 (-12));
   mkPathItem m (MoveTo 0 8); mkPathItem m (LineTo 0 52)].

Definition circlet (m : Matrix) : list PathItem :=
  [mkPathItem m (MoveTo (-18) 6); mkPathItem m (QuadraticCurveTo 0 (-2) 18 6);
   mkPathItem m (MoveTo 0 8); mkPathItem m (Arc 0 8 12 0 (PI * 2) false)].

Definition pendant (m : Matrix) : list PathItem :=
  [mkPathItem m (Ellipse 0 38 14 10 0 0 (PI * 2));
   mkPathItem m (Ellipse 0 56 10 7 0 0 (PI * 2));
   mkPathItem m (MoveTo 0 66);
   mkPathItem m (BezierCurveTo 6 76 8 86 0 92);
   mkPathItem m (BezierCurveTo (-8) 86 (-6) 76 0 66)].

(** The two strokes of a neon stroke of the path [p] from the drawing
    state [s]: the blurred halo, then the crisp core. *)
Definition neon (cfg : Config) (opts : Ornament.StrokeOptions)
    (s : DrawState) (p : list PathItem) : list PaintOp :=
  [Stroke (halo_state cfg opts s) p; Stroke (core_state cfg opts s) p].

(** The drawing state of the two accent dots. *)
Definition accent_state (cfg : Config) (s : DrawState) : DrawState :=
  with_globalAlpha 0.9 (with_fillStyle (Color (color cfg)) s).

(** What the glyph paints from the drawing state [s] (already scaled): the
    crown, stroked twice in each pass, then the oval, the rod, the circlet
    and the pendant as neon strokes, then the two accent dots. *)
Definition glyph (cfg : Config) (s : DrawState) : list PaintOp :=
  let m := transform s in
  let crown_opts := Ornament.mkStrokeOptions (Some 2.2) None None in
  [Stroke (halo_state cfg crown_opts s) (crown m);
   Stroke (halo_state cfg crown_opts s) (crown m);
   Stroke (core_state cfg crown_opts s) (crown m);
   Stroke (core_state cfg crown_opts s) (crown m)]
  ++ neon cfg (Ornament.mkStrokeOptions (Some 4) (Some (glow cfg * 1.02)) None)
       s (oval m)
  ++ neon cfg (Ornament.mkStrokeOptions (Some 3.2) (Some (glow cfg * 0.9)) None)
       s (rod m)
  ++ neon cfg (Ornament.mkStrokeOptions (Some 2.0) None None) s (circlet m)
  ++ neon cfg (Ornament.mkStrokeOptions (Some 2.0) None None) s (pendant m)
  ++ [Fill (accent_state cfg s)
        [mkPathItem m (Arc 0 (-18) 2.6 0 (PI * 2) false)];
      Fill (accent_state cfg s)
        [mkPathItem m (Arc 0 34 2.2 0 (PI * 2) false)]].

(** The drawing state [s] scaled by [k] in both axes. *)
Definition scaled (k : R) (s : DrawState) : DrawState :=
  with_transform
    (fun m => mkMatrix (ma m * k) (mb m * k) (mc m * k) (md m * k)
                (me m) (mf m))
    s.

(** The mirror image of a point across the vertical axis. *)
Definition mirror (p : R * R) : R * R := (- fst p, snd p).


(** The drawing state in which a frame of Ornament paints its halo, from
    the state [s] at the start of the frame: translated to the centre of
    the surface (6 px higher), rotated, and with the halo gradient of the
    colour [rgb] as fill style. *)
Definition halo_state_of_frame (cfg : Config) (rgb : Css.rgba) (s : DrawState)
  : DrawState :=
  with_fillStyle (GradientStyle (halo_gradient cfg rgb))
    (with_transform
       (fun m =>
          let e := ma m * (size cfg / 2) + mc m * (size cfg / 2 - 6) + me m in
          let f := mb m * (size cfg / 2) + md m * (size cfg / 2 - 6) + mf m in
          mkMatrix (ma m * cos (rotation cfg) + mc m * sin (rotation cfg))
                   (mb m * cos (rotation cfg) + md m * sin (rotation cfg))
                   (mc m * cos (rotation cfg) - ma m * sin (rotation cfg))
                   (md m * cos (rotation cfg) - mb m * sin (rotation cfg))
                   e f)
       s).

(** What one frame of Ornament paints on a surface of [w] by [h] pixels
    from the drawing state [s]: the clearing, the halo ellipse, the
    glyph. *)
Definition ornament_frame (cfg : Config) (rgb : Css.rgba) (now w h : R)
    (s : DrawState) : list PaintOp :=
  let hs := halo_state_of_frame cfg rgb s in
  ClearRect (transform s) 0 0 w h ::
  Fill hs [mkPathItem (transform hs)
             (Ellipse 0 (-8) (72 * Ornament.scale cfg now)
                (98 * Ornament.scale cfg now) 0 0 (PI * 2))] ::
  glyph cfg (scaled (Ornament.scale cfg now) hs).

End Spec.

(** * Properties *)

Import Canvas2D Host EventLoop.

(** ** Loops *)

Section Loops.

Context {S : Type}.

Lemma bind_Ret {A B : Type} (m : M S A) (k : A -> M S B) s a s' :
  m s = (Ret a, s') -> bind m k s = k a s'.
Proof. intros H. unfold bind. rewrite H. reflexivity. Qed.

Lemma bind_Throw {A B : Type} (m : M S A) (k : A -> M S B) s e s' :
  m s = (Throw e, s') -> bind m k s = (Throw e, s').
Proof. intros H. unfold bind. rewrite H. reflexivity. Qed.

Lemma Zceil_INR (n : nat) : Zceil (INR n) = Z.of_nat n.
Proof.
  apply Zceil_eq. rewrite <- INR_IZR_INZ. lra.
Qed.


(** With the bound a natural number [i + k], [k] units of fuel run the
    body on [i], ..., [i + k - 1]. *)
Lemma for_from_nat (k : nat) : forall (i : nat) (body : nat -> M S unit) s,
  for_from k i (INR (i + k)) body s = each (seq i k) body s.
Proof.
  induction k as [|k IH]; intros i body s; [reflexivity|].
  cbn [for_from seq each].
  destruct (Rlt_dec (INR i) (INR (i + Datatypes.S k))) as [_|Hn].
  - unfold bind. destruct (body i s) as [[[]|e] s1]; [|reflexivity].
    replace (i + Datatypes.S k)%nat with (Datatypes.S i + k)%nat by lia.
    apply IH.
  - exfalso. apply Hn. apply lt_INR. lia.
Qed.

Lemma for_lt_nat (n : nat) (body : nat -> M S unit) s :
  for_lt (INR n) body s = each (seq 0 n) body s.
Proof.
  unfold for_lt. rewrite Zceil_INR, Nat2Z.id. apply (for_from_nat n 0).
Qed.

(** Past the bound the guard fails: more fuel changes nothing. *)
Lemma for_from_past (k i : nat) (bound : number) (body : nat -> M S unit) s :
  bound <= INR i -> for_from k i bound body s = (Ret tt, s).
Proof.
  intros H. destruct k as [|k]; [reflexivity|].
  cbn [for_from]. destruct (Rlt_dec (INR i) bound); [lra|reflexivity].
Qed.

Lemma for_from_more_fuel (extra : nat) (bound : number) (body : nat -> M S unit) :
  forall (k i : nat) s,
  bound <= INR (i + k) ->
  for_from (k + extra) i bound body s = for_from k i bound body s.
Proof.
  induction k as [|k IH]; intros i s H.
  - rewrite Nat.add_0_r in H. cbn [for_from Nat.add].
    apply for_from_past. exact H.
  - cbn [for_from Nat.add].
    destruct (Rlt_dec (INR i) bound); [|reflexivity].
    unfold bind. destruct (body i s) as [[[]|e] s1]; [|reflexivity].
    apply IH. replace (Datatypes.S i + k)%nat with (i + Datatypes.S k)%nat by lia.
    exact H.
Qed.

(** [for_lt] leaves the loop by its guard: any larger fuel gives the same
    run. *)
Lemma for_lt_exits_by_guard (extra : nat) (bound : number)
    (body : nat -> M S unit) s :
  for_from (Z.to_nat (Zceil bound) + extra) 0 bound body s = for_lt bound body s.
Proof.
  unfold for_lt. apply for_from_more_fuel. cbn [Nat.add].
  destruct (Zceil_bound bound) as [_ Hup].
  destruct (Z.le_gt_cases 0 (Zceil bound)) as [Hpos|Hneg].
  - rewrite INR_IZR_INZ, Z2Nat.id by exact Hpos. exact Hup.
  - apply Rle_trans with (IZR (Zceil bound)); [exact Hup|].
    apply Rle_trans with 0; [apply IZR_le; lia|apply pos_INR].
Qed.

End Loops.

(** ** Running canvas calls *)

Ltac canvas_unfold :=
  cbv beta delta
      [bind ret throw gets modify set_cur set_path paint save restore
       set_strokeStyle set_fillStyle set_lineWidth set_lineJoin set_lineCap
       set_shadowColor set_shadowBlur set_globalAlpha
       set_globalCompositeOperation set_transform setTransform translate
       rotate Canvas2D.scale add_segment beginPath moveTo lineTo
       quadraticCurveTo bezierCurveTo closePath arc ellipse fill stroke
       clearRect createRadialGradient addColorStop or_default
       Math_PI Math_sin Math_cos].

Ltac canvas_cbn :=
  cbn beta iota zeta delta
      [cur saved path surface strokeStyle fillStyle lineWidth lineJoin lineCap
       shadowColor shadowBlur globalAlpha globalCompositeOperation transform
       gx0 gy0 gr0 gx1 gy1 gr1 stops fst snd app].

(** Settle a comparison of numbers that linear arithmetic decides. *)
Ltac decide_lt :=
  match goal with
  | |- context [Rlt_dec ?a ?b] =>
      first [ let H := fresh in
              assert (H : a < b) by lra;
              destruct (Rlt_dec a b); [clear H|contradiction]
            | let H := fresh in
              assert (H : ~ a < b) by lra;
              destruct (Rlt_dec a b); [contradiction|clear H] ]
  end.

(** Evaluate the colour of a literal string. *)
Ltac decide_color :=
  match goal with
  | |- context [Css.color ?s] =>
      let v := eval vm_compute in (Css.color s) in
      change (Css.color s) with v
  end.

Ltac canvas_run :=
  canvas_unfold; repeat first [progress canvas_cbn | decide_lt | decide_color].

(** ** Drawing states *)

(** Settle a statement about attribute updates by cases on whether each
    value is taken. *)
Ltac state_cases :=
  cbv beta delta
      [with_strokeStyle with_fillStyle with_lineWidth with_lineJoin
       with_lineCap with_shadowColor with_shadowBlur with_globalAlpha
       with_globalCompositeOperation with_transform];
  repeat match goal with
         | |- context [if ?b then _ else _] => destruct b
         end;
  canvas_cbn; try reflexivity; try lra; try contradiction.

Lemma transform_with_strokeStyle v s :
  transform (with_strokeStyle v s) = transform s.
Proof. state_cases. Qed.

Lemma transform_with_fillStyle v s :
  transform (with_fillStyle v s) = transform s.
Proof. state_cases. Qed.

Lemma transform_with_lineWidth v s :
  transform (with_lineWidth v s) = transform s.
Proof. state_cases. Qed.

Lemma transform_with_shadowColor v s :
  transform (with_shadowColor v s) = transform s.
Proof. state_cases. Qed.

Lemma transform_with_shadowBlur v s :
  transform (with_shadowBlur v s) = transform s.
Proof. state_cases. Qed.

Lemma transform_with_globalAlpha v s :
  transform (with_globalAlpha v s) = transform s.
Proof. state_cases. Qed.

Lemma with_fillStyle_twice v s :
  with_fillStyle v (with_fillStyle v s) = with_fillStyle v s.
Proof. state_cases. Qed.

(** An assignment that is taken sets its attribute; one that is refused
    leaves the state. *)
Lemma with_lineWidth_taken v s : 0 < v -> lineWidth (with_lineWidth v s) = v.
Proof. intros H. unfold with_lineWidth. destruct (Rlt_dec 0 v); [reflexivity|lra]. Qed.

Lemma with_lineWidth_refused v s : v <= 0 -> with_lineWidth v s = s.
Proof. intros H. unfold with_lineWidth. destruct (Rlt_dec 0 v); [lra|reflexivity]. Qed.

Lemma with_shadowBlur_taken v s : 0 <= v -> shadowBlur (with_shadowBlur v s) = v.
Proof. intros H. unfold with_shadowBlur. destruct (Rlt_dec v 0); [lra|reflexivity]. Qed.

Lemma with_shadowBlur_refused v s : v < 0 -> with_shadowBlur v s = s.
Proof. intros H. unfold with_shadowBlur. destruct (Rlt_dec v 0); [reflexivity|lra]. Qed.

Lemma with_globalAlpha_taken v s :
  0 <= v <= 1 -> globalAlpha (with_globalAlpha v s) = v.
Proof.
  intros H. unfold with_globalAlpha.
  destruct (Rlt_dec v 0); [lra|]. destruct (Rlt_dec 1 v); [lra|reflexivity].
Qed.

Lemma with_globalAlpha_refused v s :
  v < 0 \/ 1 < v -> with_globalAlpha v s = s.
Proof.
  intros H. unfold with_globalAlpha.
  destruct (Rlt_dec v 0); [reflexivity|].
  destruct (Rlt_dec 1 v); [reflexivity|lra].
Qed.

Lemma with_strokeStyle_taken v s :
  is_style v = true -> strokeStyle (with_strokeStyle v s) = v.
Proof. intros H. unfold with_strokeStyle. rewrite H. reflexivity. Qed.

Lemma with_strokeStyle_refused v s :
  is_style v = false -> with_strokeStyle v s = s.
Proof. intros H. unfold with_strokeStyle. rewrite H. reflexivity. Qed.

Lemma with_fillStyle_taken v s :
  is_style v = true -> fillStyle (with_fillStyle v s) = v.
Proof. intros H. unfold with_fillStyle. rewrite H. reflexivity. Qed.

Lemma with_fillStyle_refused v s :
  is_style v = false -> with_fillStyle v s = s.
Proof. intros H. unfold with_fillStyle. rewrite H. reflexivity. Qed.

Lemma with_shadowColor_taken v s :
  Css.is_color v = true -> shadowColor (with_shadowColor v s) = v.
Proof. intros H. unfold with_shadowColor. rewrite H. reflexivity. Qed.

Lemma with_shadowColor_refused v s :
  Css.is_color v = false -> with_shadowColor v s = s.
Proof. intros H. unfold with_shadowColor. rewrite H. reflexivity. Qed.

(** An assignment leaves the other attributes: [through] drops the
    updates an attribute read passes through. *)
Ltac is_attr f :=
  lazymatch f with
  | strokeStyle => idtac
  | fillStyle => idtac
  | lineWidth => idtac
  | lineJoin => idtac
  | lineCap => idtac
  | shadowColor => idtac
  | shadowBlur => idtac
  | globalAlpha => idtac
  | globalCompositeOperation => idtac
  | transform => idtac
  end.

Ltac keep_attr f X v s :=
  is_attr f;
  replace (f (X v s)) with (f s)
    by (generalize s; intro; unfold X;
        repeat match goal with
               | |- context [if ?b then _ else _] => destruct b
               end;
        reflexivity).

Ltac through :=
  repeat match goal with
         | |- context [?f (with_strokeStyle ?v ?s)] =>
             keep_attr f with_strokeStyle v s
         | |- context [?f (with_fillStyle ?v ?s)] =>
             keep_attr f with_fillStyle v s
         | |- context [?f (with_lineWidth ?v ?s)] =>
             keep_attr f with_lineWidth v s
         | |- context [?f (with_lineJoin ?v ?s)] =>
             keep_attr f with_lineJoin v s
         | |- context [?f (with_lineCap ?v ?s)] =>
             keep_attr f with_lineCap v s
         | |- context [?f (with_shadowColor ?v ?s)] =>
             keep_attr f with_shadowColor v s
         | |- context [?f (with_shadowBlur ?v ?s)] =>
             keep_attr f with_shadowBlur v s
         | |- context [?f (with_globalAlpha ?v ?s)] =>
             keep_attr f with_globalAlpha v s
         | |- context [?f (with_globalCompositeOperation ?v ?s)] =>
             keep_attr f with_globalCompositeOperation v s
         | |- context [?f (with_transform ?v ?s)] =>
             keep_attr f with_transform v s
         end.

(** Rewrite the transform of an updated state to the transform it keeps. *)
Lemma transform_halo_state cfg opts s :
  transform (Spec.halo_state cfg opts s) = transform s.
Proof.
  unfold Spec.halo_state.
  rewrite transform_with_lineWidth, transform_with_strokeStyle,
    transform_with_shadowBlur, transform_with_shadowColor,
    transform_with_globalAlpha.
  reflexivity.
Qed.

Lemma transform_core_state cfg opts s :
  transform (Spec.core_state cfg opts s) = transform s.
Proof.
  unfold Spec.core_state.
  rewrite transform_with_lineWidth, transform_with_strokeStyle,
    transform_with_shadowBlur.
  apply transform_halo_state.
Qed.

Lemma transform_accent_state cfg s :
  transform (Spec.accent_state cfg s) = transform s.
Proof.
  unfold Spec.accent_state.
  rewrite transform_with_globalAlpha. apply transform_with_fillStyle.
Qed.

Ltac same_transform :=
  repeat first
    [ rewrite transform_with_strokeStyle | rewrite transform_with_fillStyle
    | rewrite transform_with_lineWidth | rewrite transform_with_shadowColor
    | rewrite transform_with_shadowBlur | rewrite transform_with_globalAlpha
    | rewrite transform_halo_state | rewrite transform_core_state
    | rewrite transform_accent_state ].

(** ** Colour strings *)

Lemma hex_digits_app (s t : string) :
  Css.hex_digits (s ++ t) =
  match Css.hex_digits s, Css.hex_digits t with
  | Some a, Some b => Some (a ++ b)
  | _, _ => None
  end.
Proof.
  induction s as [|c s IH]; cbn [append Css.hex_digits].
  - destruct (Css.hex_digits t); reflexivity.
  - rewrite IH. destruct (Css.hex_digit c); [|reflexivity].
    destruct (Css.hex_digits s); [|reflexivity].
    destruct (Css.hex_digits t); reflexivity.
Qed.

(** A string of [#] and hex digits is neither of the two keywords. *)
Lemma hash_not_keyword (c : ascii) (s : string) (kw : string) :
  Ascii.eqb c "#" = true ->
  match kw with String k _ => Ascii.eqb "#" k = false | EmptyString => True end ->
  String.eqb (String c s) kw = false.
Proof.
  intros Hc Hk. apply Ascii.eqb_eq in Hc. subst c.
  destruct kw as [|k kw]; [reflexivity|].
  cbn [String.eqb]. rewrite Hk. reflexivity.
Qed.

Lemma hex_digit_not_space (c : ascii) (d : N) :
  Css.hex_digit c = Some d -> Css.is_space c = false.
Proof.
  destruct c as [[] [] [] [] [] [] [] []]; vm_compute; congruence.
Qed.

Lemma trim_right_hex_digits (s : string) (digits : list N) :
  Css.hex_digits s = Some digits -> Css.trim_right s = s.
Proof.
  revert digits. induction s as [|c rest IH]; intros digits H; [reflexivity|].
  cbn [Css.hex_digits] in H.
  destruct (Css.hex_digit c) as [d|] eqn:Hc; [|discriminate].
  destruct (Css.hex_digits rest) as [ds|]; [|discriminate].
  cbn [Css.trim_right]. rewrite (IH ds eq_refl).
  rewrite (hex_digit_not_space c d Hc). destruct rest; reflexivity.
Qed.

(** There is no white space to skip in [#] followed by hex digits. *)
Lemma trim_hex (c : ascii) (ds : string) (digits : list N) :
  Ascii.eqb c "#" = true -> Css.hex_digits ds = Some digits ->
  Css.trim (String c ds) = String c ds.
Proof.
  intros Hc Hd. apply Ascii.eqb_eq in Hc. subst c.
  unfold Css.trim. cbn [Css.trim_left].
  change (Css.is_space "#") with false. cbv iota.
  cbn [Css.trim_right]. rewrite (trim_right_hex_digits ds digits Hd).
  change (Css.is_space "#") with false. destruct ds; reflexivity.
Qed.

(** The colour of [#] followed by hex digits. *)
Lemma color_hex (c : ascii) (ds : string) (digits : list N) :
  Ascii.eqb c "#" = true -> Css.hex_digits ds = Some digits ->
  Css.color (String c ds) = Css.hex_notation digits.
Proof.
  intros Hc Hd. unfold Css.color. rewrite (trim_hex c ds digits Hc Hd).
  cbv zeta. rewrite !(hash_not_keyword c ds) by (exact Hc || reflexivity).
  rewrite Hc, Hd. reflexivity.
Qed.

(** A malformed hex string is no colour. *)
Lemma malformed_hex_color (s : string) :
  Css.malformed_hex s = true -> Css.color s = None.
Proof.
  unfold Css.malformed_hex, Css.color. cbv zeta.
  destruct (Css.trim s) as [|c ds]; [discriminate|].
  destruct (Ascii.eqb c "#") eqn:Hc; [|discriminate].
  cbn [andb]. rewrite !(hash_not_keyword c ds) by (exact Hc || reflexivity).
  destruct (Css.hex_digits ds) as [digits|]; [|discriminate].
  destruct (Css.hex_notation digits); [discriminate|reflexivity].
Qed.

(** Appending a two-digit suffix to [#rrggbb] sets the opacity to that
    byte; the string itself is the opaque colour. *)
Lemma hex6_color (s : string) (r g b : N) :
  Css.hex6 s = Some (r, g, b) ->
  Css.color s = Some (Css.mk_rgba r g b 255) /\
  forall (d1 d2 : ascii) (h l : N),
    Css.hex_digit d1 = Some h -> Css.hex_digit d2 = Some l ->
    Css.color (s ++ String d1 (String d2 EmptyString))
      = Some (Css.mk_rgba r g b (16 * h + l)).
Proof.
  unfold Css.hex6. destruct s as [|c ds]; [discriminate|].
  destruct (Ascii.eqb c "#") eqn:Hc; [|discriminate].
  destruct (Css.hex_digits ds) as [digits|] eqn:Hd; [|discriminate].
  destruct digits as [|r1 [|r2 [|g1 [|g2 [|b1 [|b2 [|x rest]]]]]]];
    try discriminate.
  intros H. injection H as <- <- <-.
  split.
  - rewrite (color_hex c ds _ Hc Hd). reflexivity.
  - intros d1 d2 h l H1 H2. cbn [append].
    erewrite (color_hex c); [|exact Hc|].
    2:{ rewrite hex_digits_app, Hd. cbn [Css.hex_digits].
        rewrite H1, H2. reflexivity. }
    reflexivity.
Qed.

(** A colour written [#rrggbb] is a style and a shadow colour. *)
Lemma hex6_is_color (s : string) (r g b : N) :
  Css.hex6 s = Some (r, g, b) -> Css.is_color s = true.
Proof.
  intros H. unfold Css.is_color.
  rewrite (proj1 (hex6_color s r g b H)). reflexivity.
Qed.

(** ** MandalaBase: the glow ring *)

(** What a call of the glow-ring primitive does to the context. *)
Lemma glow_ring_paints (x y radius thickness : R) (color : string)
    (r g b : N) (c : Ctx) :
  Css.hex6 color = Some (r, g, b) ->
  0 <= radius - thickness / 2 ->
  0 <= radius + thickness / 2 ->
  MandalaBase.drawGlowingRing x y radius thickness color c
  = (Ret tt,
     mkCtx (cur c) (saved c)
       [Spec.circle (transform (cur c)) x y (radius + thickness / 2) false;
        Spec.circle (transform (cur c)) x y (radius - thickness / 2) true;
        mkPathItem (transform (cur c)) ClosePath]
       (surface c ++
        [Spec.glow_ring (cur c) x y radius thickness (Css.mk_rgba r g b 255)])).
Proof.
  intros Hhex Hin Hout.
  destruct (hex6_color color r g b Hhex) as [Hc Hsuffix].
  pose proof (Hsuffix "8"%char "0"%char 8%N 0%N eq_refl eq_refl) as H80.
  change (16 * 8 + 0)%N with 128%N in H80.
  unfold MandalaBase.drawGlowingRing.
  canvas_unfold.
  repeat first [progress canvas_cbn | decide_lt
               | rewrite H80 | rewrite Hc | decide_color].
  destruct c as [s stack p ops]; reflexivity.
Qed.

(** C5, as amended: for every colour written [#rrggbb] and every radius and
    thickness whose inner and outer radii are not negative, the glow-ring
    primitive builds the radial gradient from [radius - thickness/2] to
    [radius + thickness/2] with the stops 0: transparent, 0.4: the colour at
    opacity 128/255, 0.5: the colour opaque, 0.6: the colour at opacity
    128/255, 1: transparent, and fills with it. *)
Theorem glow_ring_gradient_hex6 (x y radius thickness : R) (color : string)
    (r g b : N) (c : Ctx) :
  Css.hex6 color = Some (r, g, b) ->
  0 <= radius - thickness / 2 ->
  0 <= radius + thickness / 2 ->
  Css.color color = Some (Css.mk_rgba r g b 255) /\
  Spec.builds_glow_gradient x y radius thickness color
    (Css.mk_rgba r g b 255) c.
Proof.
  intros Hhex Hin Hout. split.
  - exact (proj1 (hex6_color color r g b Hhex)).
  - unfold Spec.builds_glow_gradient.
    eexists _, _. split.
    + apply (glow_ring_paints x y radius thickness color r g b c); assumption.
    + reflexivity.
Qed.

Lemma glow_ring_gradient_hex6_witness :
  Css.color "#ff00ff" = Some (Css.mk_rgba 255 0 255 255) /\
  Spec.builds_glow_gradient 400 300 170 60 "#ff00ff"
    (Css.mk_rgba 255 0 255 255) (mkCtx default_state [] [] []).
Proof.
  apply (glow_ring_gradient_hex6 400 300 170 60 "#ff00ff" 255 0 255).
  - reflexivity.
  - lra.
  - lra.
Defined.

(** C5 as stated fails: [#f0f] is the colour magenta, but [#f0f80] is no
    colour, so the second colour stop raises SyntaxError and nothing is
    painted; and with radius 10 and thickness 60 the inner radius is
    negative, so no gradient is created. *)
Lemma glow_ring_gradient_not_every_input :
  let c := mkCtx default_state [] [] [] in
  let magenta := Css.mk_rgba 255 0 255 255 in
  (Css.color "#f0f" = Some magenta /\
   MandalaBase.drawGlowingRing 400 300 170 60 "#f0f" c = (Throw SyntaxError, c) /\
   ~ Spec.builds_glow_gradient 400 300 170 60 "#f0f" magenta c) /\
  (Css.color "#ff00ff" = Some magenta /\
   MandalaBase.drawGlowingRing 400 300 10 60 "#ff00ff" c
     = (Throw IndexSizeError, c) /\
   ~ Spec.builds_glow_gradient 400 300 10 60 "#ff00ff" magenta c).
Proof.
  assert (H1 : MandalaBase.drawGlowingRing 400 300 170 60 "#f0f"
                 (mkCtx default_state [] [] [])
               = (Throw SyntaxError, mkCtx default_state [] [] [])).
  { unfold MandalaBase.drawGlowingRing. cbn [append]. canvas_run. reflexivity. }
  assert (H2 : MandalaBase.drawGlowingRing 400 300 10 60 "#ff00ff"
                 (mkCtx default_state [] [] [])
               = (Throw IndexSizeError, mkCtx default_state [] [] [])).
  { unfold MandalaBase.drawGlowingRing. canvas_run. reflexivity. }
  cbv zeta. repeat split; try assumption.
  - intros (st & p & Hrun & _). rewrite H1 in Hrun. discriminate.
  - intros (st & p & Hrun & _). rewrite H2 in Hrun. discriminate.
Qed.

(** ** MandalaBase: rings *)

Section Dots.

Variables (x y radius : R) (color : string) (n : nat).

(** The body of the loop of [drawCircle], as the source has it. *)
Let plot (i : nat) : M Ctx unit :=
  let angle := INR i * (Math_PI * 2 / INR n) in
  let dotX := x + Math_cos angle * radius in
  let dotY := y + Math_sin angle * radius in
  beginPath ;;
  arc dotX dotY 2 0 (Math_PI * 2) false ;;
  set_fillStyle (Color color) ;;
  fill.

(** The fill that one turn of the loop paints from the drawing state [s]. *)
Let plotted (s : DrawState) (i : nat) : PaintOp :=
  Fill (with_fillStyle (Color color) s)
       [Spec.circle (transform s) (fst (Spec.dot_centre x y radius n i))
                    (snd (Spec.dot_centre x y radius n i)) 2 false].

Lemma plot_paints (i : nat) (c : Ctx) :
  plot i c
  = (Ret tt,
     mkCtx (with_fillStyle (Color color) (cur c)) (saved c)
       [Spec.circle (transform (cur c))
          (fst (Spec.dot_centre x y radius n i))
          (snd (Spec.dot_centre x y radius n i)) 2 false]
       (surface c ++ [plotted (cur c) i])).
Proof.
  unfold plot, plotted. canvas_run. reflexivity.
Qed.

Lemma plots_paint (l : list nat) : forall c : Ctx,
  exists p,
    each l plot c
    = (Ret tt,
       mkCtx (match l with
              | [] => cur c
              | _ :: _ => with_fillStyle (Color color) (cur c)
              end)
             (saved c) p (surface c ++ map (plotted (cur c)) l)).
Proof.
  induction l as [|i rest IH]; intros c.
  - exists (path c). cbn [each map ret]. rewrite app_nil_r.
    destruct c; reflexivity.
  - cbn [each map]. rewrite (bind_Ret _ _ _ _ _ (plot_paints i c)).
    destruct (IH (mkCtx (with_fillStyle (Color color) (cur c)) (saved c)
                    [Spec.circle (transform (cur c))
                       (fst (Spec.dot_centre x y radius n i))
                       (snd (Spec.dot_centre x y radius n i)) 2 false]
                    (surface c ++ [plotted (cur c) i]))) as [p Hp].
    exists p. rewrite Hp. cbn [cur saved surface].
    rewrite <- app_assoc. cbn [app].
    replace (map (plotted (with_fillStyle (Color color) (cur c))) rest)
      with (map (plotted (cur c)) rest).
    + destruct rest; [reflexivity|].
      rewrite with_fillStyle_twice. reflexivity.
    + apply map_ext. intros j. unfold plotted.
      rewrite with_fillStyle_twice, transform_with_fillStyle. reflexivity.
Qed.

End Dots.

(** The dotted branch of [drawCircle] with a whole number of dots: it
    returns, paints the dots of the ring in order and nothing else, and
    leaves the drawing state and the stack of saved states as they were. *)
Lemma drawCircle_dotted (x y radius : R) (color : option string)
    (width : option R) (n : nat) (c : Ctx) :
  exists p,
    MandalaBase.drawCircle x y radius
      (MandalaBase.mkCircleOptions color width (Some true) (Some (INR n))) c
    = (Ret tt,
       mkCtx (cur c) (saved c) p
         (surface c ++
          Spec.dotted_ring (cur c) x y radius (or_default color "#ff00ff")
            (or_default width 2) n)).
Proof.
  unfold MandalaBase.drawCircle.
  cbn [MandalaBase.opt_color MandalaBase.opt_lineWidth MandalaBase.opt_dotted
       MandalaBase.opt_dotCount].
  destruct (plots_paint x y radius (or_default color "#ff00ff") n (seq 0 n)
              (mkCtx (with_lineWidth (or_default width 2)
                        (with_strokeStyle
                           (Color (or_default color "#ff00ff")) (cur c)))
                     (cur c :: saved c) (path c) (surface c))) as [p Hp].
  exists p. cbv zeta in Hp |- *.
  change (or_default (Some true) false) with true. cbv iota.
  change (or_default (Some (INR n)) 120) with (INR n).
  unfold bind at 1. cbn [save modify].
  unfold bind at 1. cbn [set_strokeStyle set_cur modify cur saved path surface].
  unfold bind at 1. cbn [set_lineWidth set_cur modify cur saved path surface].
  unfold bind at 1. rewrite for_lt_nat.
  match type of Hp with
  | ?run = _ =>
      match goal with
      | |- context [each ?l ?f ?s] => change (each l f s) with run
      end
  end.
  rewrite Hp.
  cbn [restore modify saved cur path surface].
  unfold Spec.dotted_ring, Spec.dot. same_transform. reflexivity.
Qed.

(** The points of a dotted ring lie on the circle of the given radius. *)
Lemma dot_centre_distance (x y radius : R) (n i : nat) :
  Spec.distance (Spec.dot_centre x y radius n i) (x, y) = Rabs radius.
Proof.
  unfold Spec.distance, Spec.dot_centre. cbn [fst snd].
  set (a := INR i * (PI * 2 / INR n)).
  replace ((x + cos a * radius - x)² + (y + sin a * radius - y)²)
    with (radius² * ((sin a)² + (cos a)²)) by (unfold Rsqr; ring).
  rewrite sin2_cos2, Rmult_1_r. apply sqrt_Rsqr_abs.
Qed.

(** C4: called with [dotted = true] and a dot count [N], the ring primitive
    of MandalaBase returns and plots exactly [N] dots and nothing else; the
    [i]-th dot, for [i] in [0, N), is a filled circle of radius 2 centred at
    angle [i * (2 PI / N)] on the circle of radius [radius] around the
    given centre: at distance [|radius|] from it, which is [radius] for a
    radius that is not negative. *)
Theorem dotted_ring_plots_each_dot (x y radius : R) (color : option string)
    (width : option R) (N : nat) (c : Ctx) :
  exists (dots : list PaintOp) (p : list PathItem),
    MandalaBase.drawCircle x y radius
      (MandalaBase.mkCircleOptions color width (Some true) (Some (INR N))) c
    = (Ret tt, mkCtx (cur c) (saved c) p (surface c ++ dots)) /\
    List.length dots = N /\
    forall i : nat, (i < N)%nat ->
      let angle := INR i * (2 * PI / INR N) in
      let cx := x + cos angle * radius in
      let cy := y + sin angle * radius in
      (exists st,
         nth_error dots i
         = Some (Fill st [mkPathItem (transform (cur c))
                            (Arc cx cy 2 0 (2 * PI) false)])) /\
      Spec.distance (cx, cy) (x, y) = Rabs radius /\
      (0 <= radius -> Spec.distance (cx, cy) (x, y) = radius).
Proof.
  destruct (drawCircle_dotted x y radius color width N c) as [p Hp].
  exists (Spec.dotted_ring (cur c) x y radius (or_default color "#ff00ff")
            (or_default width 2) N), p.
  split; [exact Hp|]. split.
  - unfold Spec.dotted_ring. rewrite length_map, length_seq. reflexivity.
  - intros i Hi angle cx cy.
    assert (Hc : Spec.dot_centre x y radius N i = (cx, cy)).
    { unfold Spec.dot_centre, cx, cy, angle.
      replace (PI * 2 / INR N) with (2 * PI / INR N)
        by (unfold Rdiv; ring).
      reflexivity. }
    split; [|split].
    + eexists. unfold Spec.dotted_ring.
      rewrite nth_error_map, nth_error_seq.
      destruct (Nat.ltb_spec i N) as [_|Hge]; [|lia].
      cbn [option_map Nat.add]. unfold Spec.dot, Spec.circle.
      rewrite Hc. cbn [fst snd].
      replace (PI * 2) with (2 * PI) by ring. reflexivity.
    + rewrite <- Hc. apply dot_centre_distance.
    + intros Hpos. rewrite <- Hc, dot_centre_distance.
      apply Rabs_pos_eq. exact Hpos.
Qed.

Lemma drawCircle_solid (x y radius : R) (color : option string)
    (width : option R) (c : Ctx) :
  0 <= radius ->
  MandalaBase.drawCircle x y radius
    (MandalaBase.mkCircleOptions color width None None) c
  = (Ret tt,
     mkCtx (cur c) (saved c)
       [Spec.circle (transform (cur c)) x y radius false]
       (surface c ++
        [Spec.solid_ring (cur c) x y radius (or_default color "#ff00ff")
           (or_default width 2)])).
Proof.
  intros Hr. unfold MandalaBase.drawCircle.
  cbn [MandalaBase.opt_color MandalaBase.opt_lineWidth MandalaBase.opt_dotted
       MandalaBase.opt_dotCount].
  change (or_default None false) with false. cbv iota zeta.
  canvas_unfold.
  repeat first [progress canvas_cbn | decide_lt].
  same_transform. reflexivity.
Qed.

Lemma INR_160 : 160 = INR 160.
Proof. rewrite INR_IZR_INZ. reflexivity. Qed.

(** The context calls of one MandalaBase frame. *)
Lemma mandala_scene (x y w h : R) (c : Ctx) :
  exists p,
    (clearRect 0 0 w h ;;
     MandalaBase.drawGlowingRing x y 170 60 "#ff00ff" ;;
     MandalaBase.drawCircle x y 200
       (MandalaBase.mkCircleOptions (Some "#ff66ff") (Some 4) None None) ;;
     MandalaBase.drawCircle x y 230
       (MandalaBase.mkCircleOptions (Some "#ff00ff") None (Some true)
          (Some 160))) c
    = (Ret tt,
       mkCtx (cur c) (saved c) p
         (surface c ++ Spec.mandala_frame (cur c) x y w h)).
Proof.
  set (c1 := mkCtx (cur c) (saved c) (path c)
               (surface c ++ [ClearRect (transform (cur c)) 0 0 w h])).
  assert (H1 : clearRect 0 0 w h c = (Ret tt, c1)) by reflexivity.
  pose proof (glow_ring_paints x y 170 60 "#ff00ff" 255 0 255 c1 eq_refl
                ltac:(lra) ltac:(lra)) as H2.
  set (c2 := mkCtx _ _ _ _) in H2.
  pose proof (drawCircle_solid x y 200 (Some "#ff66ff") (Some 4) c2
                ltac:(lra)) as H3.
  set (c3 := mkCtx _ _ _ _) in H3.
  destruct (drawCircle_dotted x y 230 (Some "#ff00ff") None 160 c3)
    as [p H4].
  rewrite <- INR_160 in H4.
  exists p.
  rewrite (bind_Ret _ _ _ _ _ H1), (bind_Ret _ _ _ _ _ H2),
    (bind_Ret _ _ _ _ _ H3).
  cbv beta. etransitivity; [exact H4|].
  unfold c3, c2, c1. cbn [cur saved surface or_default].
  unfold Spec.mandala_frame, Spec.magenta.
  rewrite <- !app_assoc. reflexivity.
Qed.

(** ** Running the components on a page *)

Lemma on_ctx_Ret {A : Type} (m : M Ctx A) (w : World) (a : A) (c' : Ctx) :
  m (context (canvas w)) = (Ret a, c') ->
  on_ctx m w = (Ret a, Spec.repaint w c').
Proof. intros H. unfold on_ctx. rewrite H. reflexivity. Qed.

Lemma on_ctx_Throw {A : Type} (m : M Ctx A) (w : World) (e : exn) (c' : Ctx) :
  m (context (canvas w)) = (Throw e, c') ->
  on_ctx m w = (Throw e, Spec.repaint w c').
Proof. intros H. unfold on_ctx. rewrite H. reflexivity. Qed.

Ltac world_cbn :=
  cbn beta iota zeta delta
      [innerWidth innerHeight devicePixelRatio canvasRef context2d canvas
       listeners callbacks handle closures rafRef tRef
       width height style_width style_height context
       cur saved path surface fst snd negb Spec.repaint].

(** Run the first call of a sequence when it computes. *)
Ltac run_step :=
  match goal with
  | |- context [bind ?m ?k ?s] =>
      let r := eval hnf in (m s) in
      match r with
      | (Ret ?a, ?s') => change (bind m k s) with (k a s')
      end
  end;
  cbv beta iota; world_cbn.

(** Rewrite with an equation about a run [f s], whatever form the state has
    taken in the goal. *)
Ltac rewrite_run H :=
  match type of H with
  | ?lhs = _ =>
      match lhs with
      | ?f ?s =>
          match goal with
          | |- context [f ?s'] => change (f s') with lhs; rewrite H
          end
      end
  end.

(** Run the first call of a sequence by a lemma about it. *)
Ltac step_by H := erewrite bind_Ret by (apply H); cbv beta iota; world_cbn.

Lemma mandala_resize iw ih d cr c2d cw ch sw sh c ls cbs h n r t :
  MandalaBase.resize
    (mkWorld iw ih d cr c2d (mkCanvas cw ch sw sh c) ls cbs h n r t)
  = (Ret tt,
     mkWorld iw ih d cr c2d (mkCanvas iw ih sw sh (reset (reset c)))
       ls cbs h n r t).
Proof. reflexivity. Qed.

Lemma mandala_render iw ih d cr c2d cw ch sw sh c ls cbs h n r t :
  exists p,
    MandalaBase.render
      (mkWorld iw ih d cr c2d (mkCanvas cw ch sw sh c) ls cbs h n r t)
    = (Ret tt,
       mkWorld iw ih d cr c2d
         (mkCanvas cw ch sw sh
            (mkCtx (cur c) (saved c) p
               (surface c ++
                Spec.mandala_frame (cur c) (cw / 2) (ch / 2) cw ch)))
         ls (cbs ++ [(S h, MandalaRender)]) (S h) n r t).
Proof.
  destruct (mandala_scene (cw / 2) (ch / 2) cw ch c) as [p Hp].
  exists p. unfold MandalaBase.render, MandalaBase.center.
  do 3 run_step.
  erewrite bind_Ret by (apply on_ctx_Ret; exact Hp).
  cbv beta. world_cbn. run_step. reflexivity.
Qed.

(** Mounting MandalaBase on a fresh page: the canvas takes the size of the
    viewport, the resize listener is attached, the first frame is painted
    and the next one requested. *)
Lemma mandala_mount iw ih d cw ch sw sh c h n r t :
  exists p,
    MandalaBase.effect
      (mkWorld iw ih d true true (mkCanvas cw ch sw sh c) [] [] h n r t)
    = (Ret (Some (MandalaCleanup (S n))),
       mkWorld iw ih d true true
         (mkCanvas iw ih sw sh
            (mkCtx default_state [] p
               (surface c ++ [ResetBitmap; ResetBitmap] ++
                Spec.mandala_frame default_state (iw / 2) (ih / 2) iw ih)))
         [(S n, MandalaResize)] [(S h, MandalaRender)] (S h) (S n) r t).
Proof.
  destruct (mandala_render iw ih d true true iw ih sw sh (reset (reset c))
              [(S n, MandalaResize)] [] h (S n) r t) as [p Hp].
  exists p. unfold MandalaBase.effect.
  do 3 run_step.
  step_by mandala_resize. run_step.
  erewrite bind_Ret by exact Hp. cbv beta.
  cbn [ret reset cur saved surface app]. rewrite <- !app_assoc. reflexivity.
Qed.

(** A resize event reaches the listener of a mounted MandalaBase. *)
Lemma mandala_window_resize vw vh iw ih d cr c2d cw ch sw sh c k cbs h n r t :
  window_resize vw vh
    (mkWorld iw ih d cr c2d (mkCanvas cw ch sw sh c) [(k, MandalaResize)]
       cbs h n r t)
  = mkWorld vw vh d cr c2d (mkCanvas vw vh sw sh (reset (reset c)))
      [(k, MandalaResize)] cbs h n r t.
Proof. reflexivity. Qed.

(** An animation frame runs the pending [render], which requests the
    next. *)
Lemma mandala_animation_frame now iw ih d cr c2d cw ch sw sh c ls k h n r t :
  exists p,
    animation_frame now
      (mkWorld iw ih d cr c2d (mkCanvas cw ch sw sh c) ls
         [(k, MandalaRender)] h n r t)
    = mkWorld iw ih d cr c2d
        (mkCanvas cw ch sw sh
           (mkCtx (cur c) (saved c) p
              (surface c ++
               Spec.mandala_frame (cur c) (cw / 2) (ch / 2) cw ch)))
        ls [(S h, MandalaRender)] (S h) n r t.
Proof.
  destruct (mandala_render iw ih d cr c2d cw ch sw sh c ls [] h n r t)
    as [p Hp].
  exists p.
  match goal with
  | |- ?run = _ =>
      change run with
        (snd (MandalaBase.render
                (mkWorld iw ih d cr c2d (mkCanvas cw ch sw sh c) ls []
                   h n r t)))
  end.
  rewrite Hp. reflexivity.
Qed.

(** ** MandalaBase: the frame *)



(** ** Mounting without a surface *)

(** C9: when the canvas element or its 2D context is absent at mount, the
    effect of either component returns without an exception and without a
    cleanup, and leaves the page as it was: nothing is painted, no resize
    listener is attached and no animation frame is requested. *)
Theorem mount_without_surface (c : Component) (w : World) :
  Spec.no_surface w ->
  mount c w = (Ret None, w) /\
  unmount None w = (Ret tt, w).
Proof.
  intros H. split; [|reflexivity].
  destruct w as [iw ih d cr c2d cv ls cbs h n r t].
  unfold Spec.no_surface in H. cbn [canvasRef context2d] in H.
  destruct c as [|props]; unfold mount, MandalaBase.effect, Ornament.effect.
  - destruct H as [-> | ->].
    + run_step. reflexivity.
    + run_step. destruct cr; cbn [negb]; [run_step|]; reflexivity.
  - destruct H as [-> | ->].
    + run_step. reflexivity.
    + run_step. destruct cr; cbn [negb]; [run_step|]; reflexivity.
Qed.

Lemma mount_without_surface_witness :
  let no_context :=
    mkWorld 800 600 1 true false
      (mkCanvas 300 150 None None (mkCtx default_state [] [] []))
      [] [] 0 0 None 0 in
  mount (OrnamentComponent (mkOrnamentProps None None None None (Some true)))
        no_context
  = (Ret None, no_context) /\
  unmount None no_context = (Ret tt, no_context).
Proof.
  apply mount_without_surface. right. reflexivity.
Defined.


(** ** MandalaBase: teardown *)

(** The cleanup of MandalaBase detaches the resize listener and nothing
    else: the frame requested by the last [render] stays pending, and the
    next animation frame paints the canvas again and requests another. *)
Lemma mandala_unmounted (now : R) iw ih d cw ch sw sh c h n r t :
  exists w1 w2,
    mount MandalaBaseComponent
      (mkWorld iw ih d true true (mkCanvas cw ch sw sh c) [] [] h n r t)
    = (Ret (Some (MandalaCleanup (S n))), w1) /\
    unmount (Some (MandalaCleanup (S n))) w1 = (Ret tt, w2) /\
    listeners w2 = [] /\
    callbacks w2 = [(S h, MandalaRender)] /\
    painted w2 = painted w1 /\
    painted (step w2 (AnimationFrame now))
    = painted w2 ++ Spec.mandala_frame default_state (iw / 2) (ih / 2) iw ih /\
    callbacks (step w2 (AnimationFrame now)) = [(S (S h), MandalaRender)].
Proof.
  destruct (mandala_mount iw ih d cw ch sw sh c h n r t) as [p Hp].
  unfold mount. rewrite Hp.
  eexists. eexists.
  split; [reflexivity|].
  split.
  { unfold unmount, MandalaBase.cleanup, removeEventListener, set_listeners,
      modify.
    cbn [innerWidth innerHeight devicePixelRatio canvasRef context2d canvas
         listeners callbacks handle closures rafRef tRef filter fst].
    rewrite Nat.eqb_refl. cbn [negb]. reflexivity. }
  cbn [listeners callbacks step].
  match goal with
  | |- context [animation_frame now (mkWorld ?a ?b ?c0 ?d0 ?e (mkCanvas ?f ?g ?i ?j ?k) ?l [(?m, _)] ?o ?q ?u ?v)] =>
      destruct (mandala_animation_frame now a b c0 d0 e f g i j k l m o q u v)
        as [p' Hp']
  end.
  rewrite Hp'. unfold painted. cbn [canvas context surface cur callbacks].
  repeat split; reflexivity.
Qed.

(** C3 fails for MandalaBase: mounted in a viewport of 800 by 600 and then
    unmounted, the component has no resize listener left, but its [render]
    is still pending; the animation frame at 16 ms runs it, the canvas is
    cleared and painted again, and the next [render] is requested. *)
Theorem mandala_renders_after_unmount :
  exists w1 w2,
    mount MandalaBaseComponent (Spec.blank_page 800 600 1)
    = (Ret (Some (MandalaCleanup 1)), w1) /\
    unmount (Some (MandalaCleanup 1)) w1 = (Ret tt, w2) /\
    listeners w2 = [] /\
    callbacks w2 = [(1%nat, MandalaRender)] /\
    painted (step w2 (AnimationFrame 16))
    = painted w2 ++ Spec.mandala_frame default_state 400 300 800 600 /\
    painted (step w2 (AnimationFrame 16)) <> painted w2 /\
    callbacks (step w2 (AnimationFrame 16)) = [(2%nat, MandalaRender)].
Proof.
  destruct (mandala_unmounted 16 800 600 1 300 150 None None
              (mkCtx default_state [] [] []) 0 0 None 0)
    as (w1 & w2 & Hm & Hu & Hl & Hc & _ & Hp & Hc3).
  replace (800 / 2) with 400 in Hp by lra.
  replace (600 / 2) with 300 in Hp by lra.
  exists w1, w2. repeat split; try assumption.
  rewrite Hp. intros Heq.
  apply (f_equal (@List.length PaintOp)) in Heq.
  rewrite length_app in Heq. unfold Spec.mandala_frame in Heq.
  rewrite length_app in Heq. cbn [List.length] in Heq. lia.
Qed.

(** ** Ornament: the neon stroke *)

(** Run the first context call of a sequence when it computes. *)
Ltac ctx_step := erewrite bind_Ret by reflexivity; cbv beta; canvas_cbn.

(** The neon stroke around a procedure that returns: both runs of the
    procedure are followed by a stroke, and the saved state comes back when
    the procedure leaves the stack alone. *)
Lemma neon_stroke_runs (cfg : Config) (proc : M Ctx unit)
    (opts : Ornament.StrokeOptions) (c c2 c5 : Ctx) :
  let c1 := mkCtx (Spec.halo_state cfg opts (cur c)) (cur c :: saved c)
              (path c) (surface c) in
  let c3 := mkCtx (cur c2) (saved c2) (path c2)
              (surface c2 ++ [Stroke (cur c2) (path c2)]) in
  let c4 := mkCtx (with_lineWidth (or_default (Ornament.opt_w opts) 2.2)
                     (with_strokeStyle (Color (color cfg))
                        (with_shadowBlur 0 (cur c3))))
              (saved c3) (path c3) (surface c3) in
  let c6 := mkCtx (cur c5) (saved c5) (path c5)
              (surface c5 ++ [Stroke (cur c5) (path c5)]) in
  proc c1 = (Ret tt, c2) ->
  proc c4 = (Ret tt, c5) ->
  Ornament.neonStroke cfg proc opts c = restore c6.
Proof.
  intros c1 c3 c4 c6 H1 H2. unfold Ornament.neonStroke. cbv zeta.
  do 8 ctx_step.
  erewrite bind_Ret by exact H1. cbv beta.
  do 4 ctx_step.
  erewrite bind_Ret by exact H2. cbv beta.
  ctx_step. reflexivity.
Qed.

(** C10, as amended: a call of the neon stroke returns with the drawing
    state of the context as it was before the call (stroke style, line
    width, shadow colour and blur, global alpha, line join and cap, and the
    rest of the saved part) and with the same stack of saved states, for
    every path procedure that returns and leaves that stack as it found
    it. *)
Theorem neon_stroke_restores_state (cfg : Config) (proc : M Ctx unit)
    (opts : Ornament.StrokeOptions) (c : Ctx) :
  Spec.balanced proc ->
  exists c',
    Ornament.neonStroke cfg proc opts c = (Ret tt, c') /\
    cur c' = cur c /\
    saved c' = saved c /\
    strokeStyle (cur c') = strokeStyle (cur c) /\
    lineWidth (cur c') = lineWidth (cur c) /\
    shadowColor (cur c') = shadowColor (cur c) /\
    shadowBlur (cur c') = shadowBlur (cur c) /\
    globalAlpha (cur c') = globalAlpha (cur c) /\
    lineJoin (cur c') = lineJoin (cur c) /\
    lineCap (cur c') = lineCap (cur c).
Proof.
  intros Hb.
  destruct (Hb (mkCtx (Spec.halo_state cfg opts (cur c)) (cur c :: saved c)
                  (path c) (surface c))) as (c2 & H1 & Hs2).
  cbn [saved] in Hs2.
  destruct (Hb (mkCtx (with_lineWidth (or_default (Ornament.opt_w opts) 2.2)
                         (with_strokeStyle (Color (color cfg))
                            (with_shadowBlur 0 (cur c2))))
                  (saved c2) (path c2)
                  (surface c2 ++ [Stroke (cur c2) (path c2)])))
    as (c5 & H2 & Hs5).
  cbn [saved] in Hs5.
  rewrite (neon_stroke_runs cfg proc opts c c2 c5 H1 H2).
  unfold restore, modify. cbn [saved]. rewrite Hs5, Hs2.
  eexists. split; [reflexivity|].
  cbn [cur saved]. repeat split; reflexivity.
Qed.

Lemma neon_stroke_restores_state_witness :
  exists c',
    Ornament.neonStroke (destructure (mkOrnamentProps None None None None None))
      Ornament.oval_path (Ornament.mkStrokeOptions (Some 4) None None)
      (mkCtx default_state [] [] [])
    = (Ret tt, c') /\
    cur c' = default_state /\
    saved c' = [] /\
    strokeStyle (cur c') = Color "#000000" /\
    lineWidth (cur c') = 1 /\
    shadowColor (cur c') = "rgba(0, 0, 0, 0)" /\
    shadowBlur (cur c') = 0 /\
    globalAlpha (cur c') = 1 /\
    lineJoin (cur c') = "miter" /\
    lineCap (cur c') = "butt".
Proof.
  apply (neon_stroke_restores_state
           (destructure (mkOrnamentProps None None None None None))
           Ornament.oval_path (Ornament.mkStrokeOptions (Some 4) None None)
           (mkCtx default_state [] [] [])).
  intros c. unfold Ornament.oval_path. canvas_run.
  eexists. split; reflexivity.
Defined.

(** The five path procedures of the source return and leave the stack of
    saved states as they found it. *)
Lemma ornament_paths_balanced :
  Spec.balanced Ornament.crown_path /\
  Spec.balanced Ornament.oval_path /\
  Spec.balanced Ornament.rod_path /\
  Spec.balanced Ornament.circlet_path /\
  Spec.balanced Ornament.pendant_path.
Proof.
  repeat split; intros c;
    unfold Ornament.crown_path, Ornament.oval_path, Ornament.rod_path,
      Ornament.circlet_path, Ornament.pendant_path;
    canvas_run; eexists; split; reflexivity.
Qed.

(** C10 as stated fails for a path procedure that does not return, or
    does not leave the stack of saved states as it found it.  With the
    procedure [() => ctx.save()] the [restore] of the neon stroke pops the
    state the procedure saved in the second pass: the call returns with
    the line width 2.2 and the line join "round" of the core stroke
    instead of 1 and "miter", and two more saved states.  With a procedure
    that raises, here an arc of radius -1, the call ends in the exception
    before its [restore]: the context keeps the halo's line width
    [2.2 * 2.6] and one more saved state. *)
Lemma neon_stroke_unbalanced_path :
  let cfg := destructure (mkOrnamentProps None None None None None) in
  let c := mkCtx default_state [] [] [] in
  let halo := Spec.halo_state cfg Ornament.no_options default_state in
  let core := Spec.core_state cfg Ornament.no_options default_state in
  (~ Spec.balanced save /\
   exists c',
     Ornament.neonStroke cfg save Ornament.no_options c = (Ret tt, c') /\
     cur c' = core /\
     lineWidth (cur c') = 2.2 /\ lineWidth (cur c) = 1 /\
     lineJoin (cur c') = "round" /\ lineJoin (cur c) = "miter" /\
     saved c' = [halo; default_state] /\ saved c = []) /\
  (exists c',
     Ornament.neonStroke cfg (arc 0 0 (-1) 0 (PI * 2) false)
       Ornament.no_options c
     = (Throw IndexSizeError, c') /\
     cur c' = halo /\
     lineWidth (cur c') = 2.2 * 2.6 /\ lineWidth (cur c) = 1 /\
     saved c' = [default_state] /\ saved c = []).
Proof.
  cbv zeta. split.
  - split.
    + intros Hb. destruct (Hb (mkCtx default_state [] [] [])) as (c' & Hc & Hs).
      injection Hc as <-. discriminate Hs.
    + erewrite neon_stroke_runs; [| reflexivity | reflexivity].
      eexists. split; [reflexivity|]. cbn [cur saved].
      split; [reflexivity|].
      split; [unfold Spec.core_state; apply with_lineWidth_taken; lra|].
      split; [reflexivity|].
      split; [unfold Spec.core_state, Spec.halo_state; through; reflexivity|].
      repeat split; reflexivity.
  - unfold Ornament.neonStroke. cbv zeta.
    do 8 ctx_step.
    erewrite bind_Throw
      by (unfold arc; destruct (Rlt_dec (-1) 0); [reflexivity|lra]).
    eexists. split; [reflexivity|]. cbn [cur saved].
    split; [reflexivity|].
    split; [apply with_lineWidth_taken;
            cbn [or_default Ornament.opt_w Ornament.no_options]; lra|].
    repeat split; reflexivity.
Qed.

(** The neon stroke around a procedure that only builds the path: two
    strokes, the first in the halo state and the second in the core
    state. *)
Lemma neon_stroke_path_only (cfg : Config) (proc : M Ctx unit)
    (opts : Ornament.StrokeOptions) (c : Ctx) :
  Spec.path_only proc ->
  let halo := Spec.halo_state cfg opts (cur c) in
  let core := Spec.core_state cfg opts (cur c) in
  exists p1 p2,
    proc (mkCtx halo (cur c :: saved c) (path c) (surface c))
    = (Ret tt, mkCtx halo (cur c :: saved c) p1 (surface c)) /\
    proc (mkCtx core (cur c :: saved c) p1 (surface c ++ [Stroke halo p1]))
    = (Ret tt,
       mkCtx core (cur c :: saved c) p2 (surface c ++ [Stroke halo p1])) /\
    Ornament.neonStroke cfg proc opts c
    = (Ret tt,
       mkCtx (cur c) (saved c) p2
         (surface c ++ [Stroke halo p1; Stroke core p2])).
Proof.
  intros Hp halo core.
  destruct (Hp (mkCtx halo (cur c :: saved c) (path c) (surface c)))
    as [p1 H1].
  cbn [cur saved surface] in H1.
  destruct (Hp (mkCtx core (cur c :: saved c) p1
                  (surface c ++ [Stroke halo p1]))) as [p2 H2].
  cbn [cur saved surface] in H2.
  exists p1, p2.
  split; [exact H1|]. split; [exact H2|].
  rewrite (neon_stroke_runs cfg proc opts c _ _ H1 H2).
  unfold restore, modify. cbn [saved cur path surface].
  rewrite <- app_assoc. reflexivity.
Qed.

(** The attributes of the two passes when the canvas takes the colour, the
    width and the blur. *)
Lemma halo_state_taken (cfg : Config) (opts : Ornament.StrokeOptions)
    (s : DrawState) :
  Css.is_color (color cfg) = true ->
  0 < or_default (Ornament.opt_w opts) 2.2 ->
  0 <= or_default (Ornament.opt_blur opts) (glow cfg) ->
  let halo := Spec.halo_state cfg opts s in
  let core := Spec.core_state cfg opts s in
  lineWidth halo = or_default (Ornament.opt_w opts) 2.2 * 2.6 /\
  shadowBlur halo = or_default (Ornament.opt_blur opts) (glow cfg) /\
  strokeStyle halo = Color (color cfg) /\
  shadowColor halo = color cfg /\
  lineWidth core = or_default (Ornament.opt_w opts) 2.2 /\
  shadowBlur core = 0 /\
  strokeStyle core = Color (color cfg) /\
  shadowColor core = color cfg.
Proof.
  intros Hc Hw Hb. cbv zeta. unfold Spec.core_state, Spec.halo_state.
  repeat split.
  - apply with_lineWidth_taken. lra.
  - through. apply with_shadowBlur_taken. exact Hb.
  - through. apply with_strokeStyle_taken. exact Hc.
  - through. apply with_shadowColor_taken. exact Hc.
  - apply with_lineWidth_taken. exact Hw.
  - through. apply with_shadowBlur_taken. lra.
  - through. apply with_strokeStyle_taken. exact Hc.
  - through. rewrite with_shadowBlur_refused || idtac.
    through. apply with_shadowColor_taken. exact Hc.
Qed.

Lemma halo_state_alpha (cfg : Config) (opts : Ornament.StrokeOptions)
    (s : DrawState) :
  0 <= or_default (Ornament.opt_alpha opts) 1 <= 1 ->
  globalAlpha (Spec.halo_state cfg opts s)
    = or_default (Ornament.opt_alpha opts) 1 /\
  globalAlpha (Spec.core_state cfg opts s)
    = or_default (Ornament.opt_alpha opts) 1.
Proof.
  intros Ha. unfold Spec.core_state, Spec.halo_state.
  split; through; apply with_globalAlpha_taken; exact Ha.
Qed.

(** C8, as amended: for every path procedure that only builds the path, a
    configured colour that is a colour for the canvas, a width [w > 0] and
    a blur [blur >= 0], the neon stroke strokes twice and paints nothing
    else: first the path the procedure builds, with line width [w * 2.6],
    the shadow blur [blur] and the configured colour as stroke style and
    shadow colour, then the path the procedure builds again, with line
    width [w] and shadow blur 0; [w] defaults to 2.2, [blur] to the
    configured glow and [alpha] to 1, and both passes have the global
    alpha [alpha] when it lies in [0, 1]. *)
Theorem neon_stroke_two_passes (cfg : Config) (proc : M Ctx unit)
    (opts : Ornament.StrokeOptions) (c : Ctx) :
  Spec.path_only proc ->
  Css.is_color (color cfg) = true ->
  0 < or_default (Ornament.opt_w opts) 2.2 ->
  0 <= or_default (Ornament.opt_blur opts) (glow cfg) ->
  let halo := Spec.halo_state cfg opts (cur c) in
  let core := Spec.core_state cfg opts (cur c) in
  exists p1 p2,
    proc (mkCtx halo (cur c :: saved c) (path c) (surface c))
    = (Ret tt, mkCtx halo (cur c :: saved c) p1 (surface c)) /\
    proc (mkCtx core (cur c :: saved c) p1 (surface c ++ [Stroke halo p1]))
    = (Ret tt,
       mkCtx core (cur c :: saved c) p2 (surface c ++ [Stroke halo p1])) /\
    Ornament.neonStroke cfg proc opts c
    = (Ret tt,
       mkCtx (cur c) (saved c) p2
         (surface c ++ [Stroke halo p1; Stroke core p2])) /\
    Spec.stroked_twice cfg proc opts c /\
    lineWidth halo = or_default (Ornament.opt_w opts) 2.2 * 2.6 /\
    shadowBlur halo = or_default (Ornament.opt_blur opts) (glow cfg) /\
    strokeStyle halo = Color (color cfg) /\
    shadowColor halo = color cfg /\
    lineWidth core = or_default (Ornament.opt_w opts) 2.2 /\
    shadowBlur core = 0 /\
    strokeStyle core = Color (color cfg) /\
    (0 <= or_default (Ornament.opt_alpha opts) 1 <= 1 ->
     globalAlpha halo = or_default (Ornament.opt_alpha opts) 1 /\
     globalAlpha core = or_default (Ornament.opt_alpha opts) 1).
Proof.
  intros Hp Hc Hw Hb halo core.
  destruct (neon_stroke_path_only cfg proc opts c Hp)
    as (p1 & p2 & H1 & H2 & Hrun).
  destruct (halo_state_taken cfg opts (cur c) Hc Hw Hb)
    as (A1 & A2 & A3 & A4 & A5 & A6 & A7 & _).
  exists p1, p2.
  split; [exact H1|]. split; [exact H2|]. split; [exact Hrun|].
  split.
  - unfold Spec.stroked_twice. cbv zeta.
    exists halo, p1, core, p2. eexists.
    split; [exact Hrun|]. cbn [surface]. repeat split; assumption.
  - repeat split; try assumption;
      apply (halo_state_alpha cfg opts (cur c)); assumption.
Qed.

Lemma neon_stroke_two_passes_witness :
  let cfg := destructure (mkOrnamentProps None None None None None) in
  let opts := Ornament.mkStrokeOptions (Some 3.2) (Some (28 * 0.9)) None in
  let c := mkCtx default_state [] [] [] in
  let halo := Spec.halo_state cfg opts (cur c) in
  let core := Spec.core_state cfg opts (cur c) in
  exists p1 p2,
    Ornament.rod_path (mkCtx halo (cur c :: saved c) (path c) (surface c))
    = (Ret tt, mkCtx halo (cur c :: saved c) p1 (surface c)) /\
    Ornament.rod_path
      (mkCtx core (cur c :: saved c) p1 (surface c ++ [Stroke halo p1]))
    = (Ret tt,
       mkCtx core (cur c :: saved c) p2 (surface c ++ [Stroke halo p1])) /\
    Ornament.neonStroke cfg Ornament.rod_path opts c
    = (Ret tt,
       mkCtx (cur c) (saved c) p2
         (surface c ++ [Stroke halo p1; Stroke core p2])) /\
    Spec.stroked_twice cfg Ornament.rod_path opts c /\
    lineWidth halo = or_default (Ornament.opt_w opts) 2.2 * 2.6 /\
    shadowBlur halo = or_default (Ornament.opt_blur opts) (glow cfg) /\
    strokeStyle halo = Color (color cfg) /\
    shadowColor halo = color cfg /\
    lineWidth core = or_default (Ornament.opt_w opts) 2.2 /\
    shadowBlur core = 0 /\
    strokeStyle core = Color (color cfg) /\
    (0 <= or_default (Ornament.opt_alpha opts) 1 <= 1 ->
     globalAlpha halo = or_default (Ornament.opt_alpha opts) 1 /\
     globalAlpha core = or_default (Ornament.opt_alpha opts) 1).
Proof.
  apply (neon_stroke_two_passes
           (destructure (mkOrnamentProps None None None None None))
           Ornament.rod_path
           (Ornament.mkStrokeOptions (Some 3.2) (Some (28 * 0.9)) None)
           (mkCtx default_state [] [] [])).
  - intros c. unfold Ornament.rod_path. canvas_run.
    eexists. reflexivity.
  - reflexivity.
  - cbn [or_default Ornament.opt_w]. lra.
  - cbn [or_default Ornament.opt_blur]. lra.
Defined.

(** The oval's path procedure only builds the path. *)
Lemma oval_path_only : Spec.path_only Ornament.oval_path.
Proof.
  intros c. unfold Ornament.oval_path. canvas_run.
  eexists. reflexivity.
Qed.

(** What refutes [Spec.stroked_twice]: a run that paints other than two
    strokes, or whose first stroke has another line width, blur or stroke
    style than the claim gives it. *)
Lemma not_stroked_twice (cfg : Config) (proc : M Ctx unit)
    (opts : Ornament.StrokeOptions) (c c' : Ctx) (st1 st2 : DrawState)
    (p1 p2 : list PathItem) :
  Ornament.neonStroke cfg proc opts c = (Ret tt, c') ->
  surface c' = surface c ++ [Stroke st1 p1; Stroke st2 p2] ->
  lineWidth st1 <> or_default (Ornament.opt_w opts) 2.2 * 2.6 \/
  shadowBlur st1 <> or_default (Ornament.opt_blur opts) (glow cfg) \/
  strokeStyle st1 <> Color (color cfg) ->
  ~ Spec.stroked_twice cfg proc opts c.
Proof.
  intros Hrun Hs Hne. unfold Spec.stroked_twice. cbv zeta.
  intros (st1' & q1 & st2' & q2 & c'' & Hc'' & Hs' & Hw & Hb & _ & Hst & _).
  rewrite Hrun in Hc''. injection Hc'' as <-.
  rewrite Hs in Hs'. apply app_inv_head in Hs'.
  injection Hs' as <- _ _ _.
  destruct Hne as [H|[H|H]]; contradiction.
Qed.

(** C8 as stated fails in four ways.  The first path procedure Ornament
    itself passes is [() => ctx.stroke()], so the crown path is stroked
    four times, twice in each pass.  A width of 0 is no line width: the
    halo of the oval is stroked with the line width the context had (1),
    not with [0 * 2.6].  A configured glow of -5 is no blur: the halo is
    stroked with the blur the context had (0).  The configured colour
    [#f0] is no colour: both passes stroke in the stroke style the
    context had ([#000000]). *)
Lemma neon_stroke_crown_four_strokes :
  let cfg := destructure (mkOrnamentProps None None None None None) in
  let opts := Ornament.mkStrokeOptions (Some 2.2) None None in
  let crown := [mkPathItem identity (MoveTo 0 (-44));
                mkPathItem identity (QuadraticCurveTo 0 (-50) 0 (-56))] in
  let c := mkCtx default_state [] crown [] in
  let halo := Spec.halo_state cfg opts default_state in
  let core := Spec.core_state cfg opts default_state in
  (Ornament.neonStroke cfg Ornament.crown_path opts c
   = (Ret tt,
      mkCtx default_state [] crown
        [Stroke halo crown; Stroke halo crown;
         Stroke core crown; Stroke core crown]) /\
   ~ Spec.stroked_twice cfg Ornament.crown_path opts c) /\
  (let opts0 := Ornament.mkStrokeOptions (Some 0) None None in
   lineWidth (Spec.halo_state cfg opts0 default_state) = 1 /\
   ~ Spec.stroked_twice cfg Ornament.oval_path opts0
       (mkCtx default_state [] [] [])) /\
  (let dim := destructure (mkOrnamentProps None None (Some (-5)) None None) in
   shadowBlur (Spec.halo_state dim opts default_state) = 0 /\
   ~ Spec.stroked_twice dim Ornament.oval_path opts
       (mkCtx default_state [] [] [])) /\
  (let odd := destructure
                (mkOrnamentProps None (Some "#f0") None None None) in
   strokeStyle (Spec.halo_state odd opts default_state) = Color "#000000" /\
   ~ Spec.stroked_twice odd Ornament.oval_path opts
       (mkCtx default_state [] [] [])).
Proof.
  cbv zeta.
  assert (Hrun :
    Ornament.neonStroke (destructure (mkOrnamentProps None None None None None))
      Ornament.crown_path (Ornament.mkStrokeOptions (Some 2.2) None None)
      (mkCtx default_state []
         [mkPathItem identity (MoveTo 0 (-44));
          mkPathItem identity (QuadraticCurveTo 0 (-50) 0 (-56))] [])
    = (Ret tt,
       mkCtx default_state []
         [mkPathItem identity (MoveTo 0 (-44));
          mkPathItem identity (QuadraticCurveTo 0 (-50) 0 (-56))]
         [Stroke (Spec.halo_state
                    (destructure (mkOrnamentProps None None None None None))
                    (Ornament.mkStrokeOptions (Some 2.2) None None)
                    default_state)
            [mkPathItem identity (MoveTo 0 (-44));
             mkPathItem identity (QuadraticCurveTo 0 (-50) 0 (-56))];
          Stroke (Spec.halo_state
                    (destructure (mkOrnamentProps None None None None None))
                    (Ornament.mkStrokeOptions (Some 2.2) None None)
                    default_state)
            [mkPathItem identity (MoveTo 0 (-44));
             mkPathItem identity (QuadraticCurveTo 0 (-50) 0 (-56))];
          Stroke (Spec.core_state
                    (destructure (mkOrnamentProps None None None None None))
                    (Ornament.mkStrokeOptions (Some 2.2) None None)
                    default_state)
            [mkPathItem identity (MoveTo 0 (-44));
             mkPathItem identity (QuadraticCurveTo 0 (-50) 0 (-56))];
          Stroke (Spec.core_state
                    (destructure (mkOrnamentProps None None None None None))
                    (Ornament.mkStrokeOptions (Some 2.2) None None)
                    default_state)
            [mkPathItem identity (MoveTo 0 (-44));
             mkPathItem identity (QuadraticCurveTo 0 (-50) 0 (-56))]])).
  { reflexivity. }
  assert (Hwidth :
    lineWidth (Spec.halo_state
                 (destructure (mkOrnamentProps None None None None None))
                 (Ornament.mkStrokeOptions (Some 0) None None) default_state)
    = 1).
  { unfold Spec.halo_state. cbn [or_default Ornament.opt_w].
    rewrite with_lineWidth_refused by lra. through. reflexivity. }
  assert (Hblur :
    shadowBlur (Spec.halo_state
                  (destructure
                     (mkOrnamentProps None None (Some (-5)) None None))
                  (Ornament.mkStrokeOptions (Some 2.2) None None)
                  default_state)
    = 0).
  { unfold Spec.halo_state.
    cbn [or_default Ornament.opt_blur glow destructure prop_glow].
    through. rewrite with_shadowBlur_refused by lra.
    through. reflexivity. }
  assert (Hstyle :
    strokeStyle (Spec.halo_state
                   (destructure
                      (mkOrnamentProps None (Some "#f0") None None None))
                   (Ornament.mkStrokeOptions (Some 2.2) None None)
                   default_state)
    = Color "#000000").
  { unfold Spec.halo_state.
    cbn [or_default color destructure prop_color].
    through. rewrite with_strokeStyle_refused by reflexivity.
    through. reflexivity. }
  split; [|split; [|split]].
  - split; [exact Hrun|].
    unfold Spec.stroked_twice. cbv zeta.
    intros (st1 & p1 & st2 & p2 & c' & Hc' & Hs & _).
    rewrite Hrun in Hc'. injection Hc' as <-.
    cbn [surface app] in Hs. discriminate Hs.
  - split; [exact Hwidth|].
    destruct (neon_stroke_path_only
                (destructure (mkOrnamentProps None None None None None))
                Ornament.oval_path
                (Ornament.mkStrokeOptions (Some 0) None None)
                (mkCtx default_state [] [] []) oval_path_only)
      as (p1 & p2 & _ & _ & Hoval).
    eapply not_stroked_twice; [exact Hoval|reflexivity|].
    left. cbn [cur]. rewrite Hwidth. cbn [or_default Ornament.opt_w]. lra.
  - split; [exact Hblur|].
    destruct (neon_stroke_path_only
                (destructure
                   (mkOrnamentProps None None (Some (-5)) None None))
                Ornament.oval_path
                (Ornament.mkStrokeOptions (Some 2.2) None None)
                (mkCtx default_state [] [] []) oval_path_only)
      as (p1 & p2 & _ & _ & Hoval).
    eapply not_stroked_twice; [exact Hoval|reflexivity|].
    right. left. cbn [cur]. rewrite Hblur.
    cbn [or_default Ornament.opt_blur glow destructure prop_glow]. lra.
  - split; [exact Hstyle|].
    destruct (neon_stroke_path_only
                (destructure
                   (mkOrnamentProps None (Some "#f0") None None None))
                Ornament.oval_path
                (Ornament.mkStrokeOptions (Some 2.2) None None)
                (mkCtx default_state [] [] []) oval_path_only)
      as (p1 & p2 & _ & _ & Hoval).
    eapply not_stroked_twice; [exact Hoval|reflexivity|].
    right. right. cbn [cur]. rewrite Hstyle.
    cbn [or_default color destructure prop_color]. discriminate.
Qed.

(** ** Binary64 products *)






(** [nearest_even] is a nearest whole number. *)
Lemma nearest_even_close (m : R) : Rabs (IZR (nearest_even m) - m) <= 1 / 2.
Proof.
  unfold nearest_even. pose proof (Zfloor_bound m) as [Hlo Hhi].
  destruct (Rlt_dec (m - IZR (Zfloor m)) (1 / 2)) as [H1|H1].
  - apply Rabs_le. lra.
  - destruct (Rlt_dec (1 / 2) (m - IZR (Zfloor m))) as [H2|H2].
    + rewrite plus_IZR. apply Rabs_le. lra.
    + destruct (Z.even (Zfloor m)); [|rewrite plus_IZR]; apply Rabs_le; lra.
Qed.

(** [binary64 x] is a multiple of the unit in the last place of [x], at
    most half a unit away from [x]. *)
Lemma binary64_nearest (x : R) :
  Rabs (binary64 x - x) <= ulp x / 2 /\
  exists n : Z, binary64 x = IZR n * ulp x.
Proof.
  assert (Hu : 0 < ulp x) by (apply powerRZ_lt; lra).
  unfold binary64. destruct (Req_dec_T x 0) as [->|Hx].
  - split; [|exists 0%Z; ring].
    rewrite Rminus_0_r, Rabs_R0. lra.
  - split; [|eexists; reflexivity].
    replace (IZR (nearest_even (x / ulp x)) * ulp x - x)
      with ((IZR (nearest_even (x / ulp x)) - x / ulp x) * ulp x)
      by (field; lra).
    rewrite Rabs_mult, (Rabs_pos_eq (ulp x)) by lra.
    pose proof (nearest_even_close (x / ulp x)) as Hc.
    apply Rle_trans with (1 / 2 * ulp x); [|lra].
    apply Rmult_le_compat_r; lra.
Qed.



(** ** Ornament: surface sizing *)

Lemma Math_ceil_is_ceiling (x : R) :
  exists z : Z, Math_ceil x = IZR z /\ IZR z - 1 < x <= IZR z.
Proof. exists (Zceil x). split; [reflexivity|apply Zceil_bound]. Qed.







Lemma ornament_resizeCanvas cfg iw ih d cr c2d cw ch sw sh c ls cbs h n r t :
  Ornament.resizeCanvas cfg
    (mkWorld iw ih d cr c2d (mkCanvas cw ch sw sh c) ls cbs h n r t)
  = (Ret tt,
     mkWorld iw ih d cr c2d
       (mkCanvas
          (unsigned_long 300 (Math_ceil (times (size cfg) (number_or d 1))))
          (unsigned_long 150 (Math_ceil (times (size cfg) (number_or d 1))))
          (declared sw (size cfg)) (declared sh (size cfg))
          (if c2d
           then mkCtx (with_transform
                         (fun _ => mkMatrix (number_or d 1) 0 0
                                     (number_or d 1) 0 0)
                         default_state)
                  [] [] (surface c ++ [ResetBitmap; ResetBitmap])
           else reset (reset c)))
       ls cbs h n r t).
Proof.
  unfold Ornament.resizeCanvas, assign_width, assign_height. destruct c2d.
  - do 6 run_step.
    unfold on_ctx, setTransform, set_transform, set_cur, modify, set_canvas.
    cbn [canvas context reset cur saved path surface snd width height
         style_width style_height innerWidth innerHeight devicePixelRatio
         canvasRef context2d listeners callbacks handle closures rafRef tRef].
    rewrite <- app_assoc. reflexivity.
  - reflexivity.
Qed.




(** ** Paint operations are only ever added *)

Create HintDb canvas.

Lemma appends_ret {A : Type} (a : A) : Spec.appends (ret a).
Proof. intros c. exists []. cbn [ret snd]. rewrite app_nil_r. reflexivity. Qed.

Lemma appends_throw {A : Type} (e : exn) : Spec.appends (@throw Ctx A e).
Proof. intros c. exists []. cbn [throw snd]. rewrite app_nil_r. reflexivity. Qed.

Lemma appends_gets {A : Type} (f : Ctx -> A) : Spec.appends (gets f).
Proof. intros c. exists []. cbn [gets snd]. rewrite app_nil_r. reflexivity. Qed.

Lemma appends_bind {A B : Type} (m : M Ctx A) (k : A -> M Ctx B) :
  Spec.appends m -> (forall a, Spec.appends (k a)) -> Spec.appends (bind m k).
Proof.
  intros Hm Hk c. unfold bind.
  destruct (Hm c) as [ops1 H1].
  destruct (m c) as [[a|e] c1]; cbn [snd] in H1 |- *.
  - destruct (Hk a c1) as [ops2 H2].
    exists (ops1 ++ ops2). rewrite H2, H1, app_assoc. reflexivity.
  - exists ops1. exact H1.
Qed.

Lemma appends_set_cur (f : DrawState -> DrawState) : Spec.appends (set_cur f).
Proof. intros c. exists []. cbn. rewrite app_nil_r. reflexivity. Qed.

Lemma appends_set_path (f : list PathItem -> list PathItem) :
  Spec.appends (set_path f).
Proof. intros c. exists []. cbn. rewrite app_nil_r. reflexivity. Qed.

Lemma appends_paint (op : Ctx -> PaintOp) : Spec.appends (paint op).
Proof. intros c. exists [op c]. reflexivity. Qed.

Lemma appends_save : Spec.appends save.
Proof. intros c. exists []. cbn. rewrite app_nil_r. reflexivity. Qed.

Lemma appends_restore : Spec.appends restore.
Proof.
  intros c. exists []. unfold restore, modify. cbn [snd].
  rewrite app_nil_r. destruct (saved c); reflexivity.
Qed.

Lemma appends_if {A : Type} {P Q : Prop} (d : {P} + {Q}) (m1 m2 : M Ctx A) :
  Spec.appends m1 -> Spec.appends m2 -> Spec.appends (if d then m1 else m2).
Proof. destruct d; trivial. Qed.

Lemma appends_for_from (bound : R) (body : nat -> M Ctx unit) :
  (forall i, Spec.appends (body i)) ->
  forall fuel i, Spec.appends (for_from fuel i bound body).
Proof.
  intros Hb. induction fuel as [|fuel IH]; intros i; cbn [for_from].
  - apply appends_ret.
  - apply appends_if; [|apply appends_ret].
    apply appends_bind; [apply Hb|]. intros _. apply IH.
Qed.

#[local] Hint Resolve appends_ret appends_throw appends_gets appends_set_cur
  appends_set_path appends_paint appends_save appends_restore : canvas.
#[local] Hint Unfold set_strokeStyle set_fillStyle set_lineWidth set_lineJoin
  set_lineCap set_shadowColor set_shadowBlur set_globalAlpha
  set_globalCompositeOperation set_transform setTransform translate rotate
  Canvas2D.scale add_segment beginPath moveTo lineTo quadraticCurveTo
  bezierCurveTo closePath arc ellipse fill stroke clearRect : canvas.

(** Break a sequence of context calls down to the calls it is made of. *)
Ltac appends_tac :=
  repeat first
    [ assumption
    | solve [auto with canvas]
    | apply appends_bind; [|intro]
    | apply appends_if
    | unfold for_lt; apply appends_for_from; intro
    | progress autounfold with canvas ].

Lemma appends_neonStroke (cfg : Config) (proc : M Ctx unit)
    (opts : Ornament.StrokeOptions) :
  Spec.appends proc -> Spec.appends (Ornament.neonStroke cfg proc opts).
Proof.
  intros Hp. unfold Ornament.neonStroke. cbv zeta. appends_tac.
Qed.

Lemma appends_drawOrnamentAt (cfg : Config) (scale : option number) :
  Spec.appends (Ornament.drawOrnamentAt cfg scale).
Proof.
  unfold Ornament.drawOrnamentAt, Ornament.petal, Ornament.crown_path,
    Ornament.oval_path, Ornament.rod_path, Ornament.circlet_path,
    Ornament.pendant_path.
  cbv zeta.
  repeat first [apply appends_neonStroke | progress appends_tac].
Qed.

(** ** Ornament: pulse and scale *)

Lemma PI_gt_3 : 3 < PI.
Proof. pose proof PI2_3_2. lra. Qed.

Lemma sin_1_pos : 0 < sin 1.
Proof. apply sin_gt_0; pose proof PI_gt_3; lra. Qed.

Lemma sin_2_pos : 0 < sin 2.
Proof. apply sin_gt_0; pose proof PI_gt_3; lra. Qed.

Lemma sin_5_neg : sin 5 < 0.
Proof. apply sin_lt_0; pose proof PI_gt_3; pose proof PI_4; lra. Qed.

Lemma cos_lt_1 (x : R) : 0 < x < 2 * PI -> cos x < 1.
Proof.
  intros [H0 H1].
  replace x with (2 * (x / 2)) by field.
  rewrite cos_2a_sin.
  assert (Hs : 0 < sin (x / 2)) by (apply sin_gt_0; lra).
  nra.
Qed.

Lemma pulseFactor_bounds (cfg : Config) (now : R) :
  0.93 <= Ornament.pulseFactor cfg now <= 1.
Proof.
  unfold Ornament.pulseFactor, Math_sin. destruct (pulse cfg); [|lra].
  pose proof (SIN_bound (now / 250)). lra.
Qed.

Lemma scale_nonneg (cfg : Config) (now : R) :
  0 <= size cfg -> 0 <= Ornament.scale cfg now.
Proof.
  intros Hs. unfold Ornament.scale, Ornament.baseDesignHeight.
  pose proof (pulseFactor_bounds cfg now).
  apply Rmult_le_pos; [|lra].
  unfold Rdiv. apply Rmult_le_pos; lra.
Qed.

(** ** Ornament: the frame *)

Lemma createRadialGradient_runs (x0 y0 r0 x1 y1 r1 : R) (c : Ctx) :
  0 <= r0 -> 0 <= r1 ->
  createRadialGradient x0 y0 r0 x1 y1 r1 c
  = (Ret (mkGradient x0 y0 r0 x1 y1 r1 []), c).
Proof.
  intros H0 H1. unfold createRadialGradient.
  destruct (Rlt_dec r0 0); [lra|]. destruct (Rlt_dec r1 0); [lra|].
  reflexivity.
Qed.

Lemma addColorStop_runs (g : Gradient) (offset : R) (s : string)
    (col : Css.rgba) (c : Ctx) :
  0 <= offset <= 1 ->
  Css.color s = Some col ->
  addColorStop g offset s c
  = (Ret (mkGradient (gx0 g) (gy0 g) (gr0 g) (gx1 g) (gy1 g) (gr1 g)
            (stops g ++ [(offset, col)])), c).
Proof.
  intros [H0 H1] Hc. unfold addColorStop.
  destruct (Rlt_dec offset 0); [lra|]. destruct (Rlt_dec 1 offset); [lra|].
  rewrite Hc. reflexivity.
Qed.

Lemma ellipse_runs (x y rx ry rot a0 a1 : R) (c : Ctx) :
  0 <= rx -> 0 <= ry ->
  ellipse x y rx ry rot a0 a1 c
  = (Ret tt,
     mkCtx (cur c) (saved c)
       (path c ++ [mkPathItem (transform (cur c))
                     (Ellipse x y rx ry rot a0 a1)])
       (surface c)).
Proof.
  intros H0 H1. unfold ellipse.
  destruct (Rlt_dec rx 0); [lra|]. destruct (Rlt_dec ry 0); [lra|].
  reflexivity.
Qed.

(** The frame of Ornament paints what its context calls paint. *)
Lemma ornament_frame_painted (cfg : Config) (now : R) (w : World) :
  painted (snd (Ornament.frame cfg now w))
  = surface (snd (Spec.frame_drawing cfg now (width (canvas w))
                    (height (canvas w)) (context (canvas w)))).
Proof.
  destruct w as [iw ih d cr c2d [cw ch sw sh c] ls cbs h n r t].
  unfold Ornament.frame. cbv zeta. do 3 run_step.
  change (on_ctx _) with (on_ctx (Spec.frame_drawing cfg now cw ch)).
  destruct (Spec.frame_drawing cfg now cw ch c) as [[[]|e] c'] eqn:Hd.
  - erewrite bind_Ret by (apply on_ctx_Ret; exact Hd). cbv beta.
    run_step. reflexivity.
  - erewrite bind_Throw by (apply on_ctx_Throw; exact Hd). reflexivity.
Qed.

(** The time a frame records is the timestamp it was called with, also
    when its drawing raises an exception. *)
Lemma ornament_frame_time (cfg : Config) (now : R) (w : World) :
  tRef (snd (Ornament.frame cfg now w)) = now / 1000.
Proof.
  destruct w as [iw ih d cr c2d [cw ch sw sh c] ls cbs h n r t].
  unfold Ornament.frame. cbv zeta. do 3 run_step.
  change (on_ctx _) with (on_ctx (Spec.frame_drawing cfg now cw ch)).
  destruct (Spec.frame_drawing cfg now cw ch c) as [[[]|e] c'] eqn:Hd.
  - erewrite bind_Ret by (apply on_ctx_Ret; exact Hd). cbv beta.
    run_step. reflexivity.
  - erewrite bind_Throw by (apply on_ctx_Throw; exact Hd). reflexivity.
Qed.

(** C1, as amended: at every frame of Ornament the pulse factor is
    [0.965 + 0.035 * sin (t / 250)] with pulse enabled, where [t] is the
    timestamp in milliseconds that the frame scheduler passes to the frame
    callback, whatever the state of the page and whenever the loop started,
    and 1 with pulse disabled.  It is the factor the frame renders with:
    an animation frame of the host at time [t] runs the pending frame
    callback of Ornament with [t], the frame records [t / 1000] as its
    time, and what it paints are the context calls of
    [Spec.frame_drawing] at the scale [size / 160 * pulse factor]. *)
Theorem ornament_pulse_factor (cfg : Config) (now : R) (w : World) :
  let factor := if pulse cfg then 0.965 + 0.035 * sin (now / 250) else 1 in
  let pending l := snd (set_callbacks (fun _ => l) w) in
  Ornament.pulseFactor cfg now = factor /\
  Ornament.scale cfg now = size cfg / 160 * factor /\
  (forall h : nat,
     step (pending [(h, OrnamentFrame cfg)]) (AnimationFrame now)
     = snd (Ornament.frame cfg now (pending []))) /\
  tRef (snd (Ornament.frame cfg now w)) = now / 1000 /\
  painted (snd (Ornament.frame cfg now w))
  = surface (snd (Spec.frame_drawing cfg now (width (canvas w))
                    (height (canvas w)) (context (canvas w)))).
Proof.
  intros factor pending.
  assert (Hf : Ornament.pulseFactor cfg now = factor).
  { unfold Ornament.pulseFactor, factor, Math_sin.
    destruct (pulse cfg); [reflexivity|lra]. }
  split; [exact Hf|]. split; [|split; [|split]].
  - unfold Ornament.scale, Ornament.baseDesignHeight. rewrite Hf.
    reflexivity.
  - intros h. destruct w. reflexivity.
  - apply ornament_frame_time.
  - apply ornament_frame_painted.
Qed.

(** C1 as stated fails: for a loop that started when the scheduler's clock
    read 1000 ms, the frame at timestamp 1250 has the pulse factor
    [0.965 + 0.035 * sin 5], below 0.965, and not
    [0.965 + 0.035 * sin 1], above it: the 250 ms elapsed since the loop
    started play no part. *)
Lemma pulse_factor_not_since_loop_start :
  let cfg := destructure (mkOrnamentProps None None None None (Some true)) in
  Ornament.pulseFactor cfg 1250 < 0.965 /\
  0.965 < Spec.pulse_since_loop_start 1000 1250 /\
  Ornament.pulseFactor cfg 1250 <> Spec.pulse_since_loop_start 1000 1250.
Proof.
  cbv zeta.
  assert (H1 : Ornament.pulseFactor
                 (destructure (mkOrnamentProps None None None None (Some true)))
                 1250 = 0.965 + 0.035 * sin 5).
  { unfold Ornament.pulseFactor, Math_sin. cbn [destructure pulse or_default
      prop_pulse]. replace (1250 / 250) with 5 by lra. reflexivity. }
  assert (H2 : Spec.pulse_since_loop_start 1000 1250 = 0.965 + 0.035 * sin 1).
  { unfold Spec.pulse_since_loop_start.
    replace ((1250 - 1000) / 250) with 1 by lra. reflexivity. }
  rewrite H1, H2. pose proof sin_5_neg. pose proof sin_1_pos.
  repeat split; lra.
Qed.

(** C2, as amended: with pulse enabled and a positive size, the scale of
    every frame lies in [0.93 * (size / 160), 1.0 * (size / 160)], and as a
    function of the frame timestamp it is the sinusoid
    [size / 160 * 0.965 + size / 160 * 0.035 * sin (t / 250)], whose period
    is [500 * PI] ms (about 1571 ms): no shorter time is a period. *)
Theorem ornament_scale_oscillates (cfg : Config) (now : R) :
  pulse cfg = true ->
  0 < size cfg ->
  0.93 * (size cfg / 160) <= Ornament.scale cfg now <= 1.0 * (size cfg / 160) /\
  Ornament.scale cfg now
  = size cfg / 160 * 0.965 + size cfg / 160 * 0.035 * sin (now / 250) /\
  Spec.periodic (Ornament.scale cfg) (500 * PI) /\
  (forall T, 0 < T < 500 * PI -> ~ Spec.periodic (Ornament.scale cfg) T).
Proof.
  intros Hp Hs.
  assert (Hscale : forall t,
             Ornament.scale cfg t
             = size cfg / 160 * 0.965 + size cfg / 160 * 0.035 * sin (t / 250)).
  { intros t. unfold Ornament.scale, Ornament.pulseFactor,
      Ornament.baseDesignHeight, Math_sin, number. rewrite Hp. cbv iota.
    ring. }
  assert (Hk : 0 < size cfg / 160) by (unfold Rdiv; nra).
  split; [|split; [apply Hscale|split]].
  - rewrite Hscale. pose proof (SIN_bound (now / 250)). nra.
  - intros t. rewrite !Hscale.
    replace ((t + 500 * PI) / 250) with (t / 250 + 2 * INR 1 * PI)
      by (cbn [INR]; field).
    rewrite sin_period. reflexivity.
  - intros T [HT0 HT1] Hper.
    specialize (Hper (125 * PI)). rewrite !Hscale in Hper.
    replace ((125 * PI + T) / 250) with (PI / 2 + T / 250) in Hper by field.
    replace (125 * PI / 250) with (PI / 2) in Hper by field.
    rewrite sin_PI2, <- cos_sin in Hper.
    assert (Hc : cos (T / 250) < 1) by (apply cos_lt_1; lra).
    nra.
Qed.

Lemma ornament_scale_oscillates_witness :
  let cfg := destructure (mkOrnamentProps None None None None (Some true)) in
  0.93 * (160 / 160) <= Ornament.scale cfg 1250 <= 1.0 * (160 / 160) /\
  Ornament.scale cfg 1250
  = 160 / 160 * 0.965 + 160 / 160 * 0.035 * sin (1250 / 250) /\
  Spec.periodic (Ornament.scale cfg) (500 * PI) /\
  (forall T, 0 < T < 500 * PI -> ~ Spec.periodic (Ornament.scale cfg) T).
Proof.
  apply (ornament_scale_oscillates
           (destructure (mkOrnamentProps None None None None (Some true)))
           1250).
  - reflexivity.
  - cbn [destructure size or_default prop_size]. lra.
Defined.

(** C2 as stated fails: 500 ms is not a period of the scale.  At size 160
    the scale is 0.965 at timestamp 0 and [0.965 + 0.035 * sin 2], which is
    larger, 500 ms later. *)
Lemma scale_period_is_not_500 :
  let cfg := destructure (mkOrnamentProps None None None None (Some true)) in
  Ornament.scale cfg 0 = 0.965 /\
  Ornament.scale cfg (0 + 500) = 0.965 + 0.035 * sin 2 /\
  Ornament.scale cfg 0 < Ornament.scale cfg (0 + 500) /\
  ~ Spec.periodic (Ornament.scale cfg) 500.
Proof.
  cbv zeta.
  assert (H0 : Ornament.scale
                 (destructure (mkOrnamentProps None None None None (Some true)))
                 0 = 0.965).
  { unfold Ornament.scale, Ornament.pulseFactor, Ornament.baseDesignHeight,
      Math_sin.
    cbn [destructure pulse size or_default prop_pulse prop_size].
    replace (0 / 250) with 0 by lra. rewrite sin_0. lra. }
  assert (H5 : Ornament.scale
                 (destructure (mkOrnamentProps None None None None (Some true)))
                 (0 + 500) = 0.965 + 0.035 * sin 2).
  { unfold Ornament.scale, Ornament.pulseFactor, Ornament.baseDesignHeight,
      Math_sin.
    cbn [destructure pulse size or_default prop_pulse prop_size].
    replace ((0 + 500) / 250) with 2 by lra. lra. }
  pose proof sin_2_pos as Hsin.
  split; [exact H0|]. split; [exact H5|]. split; [lra|].
  intros Hper. specialize (Hper 0). lra.
Qed.

(** ** Ornament: teardown *)

(** What a frame of Ornament does to the page besides painting: it
    requests the next frame and keeps its handle, unless a context call
    raised an exception. *)
Lemma ornament_frame_page cfg now iw ih d cr c2d cw ch sw sh c ls cbs h n r t :
  exists c',
    Ornament.frame cfg now
      (mkWorld iw ih d cr c2d (mkCanvas cw ch sw sh c) ls cbs h n r t)
    = (Ret tt,
       mkWorld iw ih d cr c2d (mkCanvas cw ch sw sh c') ls
         (cbs ++ [(S h, OrnamentFrame cfg)]) (S h) n (Some (S h))
         (now / 1000)) \/
    exists e,
      Ornament.frame cfg now
        (mkWorld iw ih d cr c2d (mkCanvas cw ch sw sh c) ls cbs h n r t)
      = (Throw e,
         mkWorld iw ih d cr c2d (mkCanvas cw ch sw sh c') ls cbs h n r
           (now / 1000)).
Proof.
  unfold Ornament.frame. cbv zeta. do 3 run_step.
  change (on_ctx _) with (on_ctx (Spec.frame_drawing cfg now cw ch)).
  destruct (Spec.frame_drawing cfg now cw ch c) as [[[]|e] c'] eqn:Hd;
    exists c'.
  - left. erewrite bind_Ret by (apply on_ctx_Ret; exact Hd). cbv beta.
    run_step. reflexivity.
  - right. exists e.
    erewrite bind_Throw by (apply on_ctx_Throw; exact Hd). reflexivity.
Qed.

(** Mounting Ornament on a fresh page. *)
Lemma ornament_mount cfg iw ih d cw ch sw sh c h n r t :
  exists cv,
    Ornament.effect cfg
      (mkWorld iw ih d true true (mkCanvas cw ch sw sh c) [] [] h n r t)
    = (Ret (Some (OrnamentCleanup (S n))),
       mkWorld iw ih d true true cv [(S n, OrnamentOnResize cfg)]
         [(S h, OrnamentFrame cfg)] (S h) (S n) (Some (S h)) t).
Proof.
  unfold Ornament.effect. do 2 run_step.
  step_by ornament_resizeCanvas. do 4 run_step.
  eexists. reflexivity.
Qed.

Lemma ornament_step_running (cfg : Config) (id : nat) (w : World) (e : Event) :
  Spec.ornament_running cfg id w -> Spec.ornament_running cfg id (step w e).
Proof.
  intros [Hl Hc].
  destruct w as [iw ih d cr c2d [cw ch sw sh c] ls cbs h n r t].
  cbn [listeners callbacks rafRef] in Hl, Hc. subst ls.
  destruct e as [now|vw vh]; cbn [step].
  - unfold animation_frame.
    cbn [callbacks set_callbacks modify snd].
    destruct Hc as [->|(h0 & -> & ->)]; cbn [fold_left].
    + split; [reflexivity|left; reflexivity].
    + cbn [snd run_callback].
      destruct (ornament_frame_page cfg now iw ih d cr c2d cw ch sw sh c
                  [(id, OrnamentOnResize cfg)] [] h n (Some (S h0)) t)
        as [c' [H|[e H]]]; rewrite_run H; cbn [snd].
      * split; [reflexivity|]. right. exists h. split; reflexivity.
      * split; [reflexivity|]. left. reflexivity.
  - unfold window_resize.
    cbn [listeners set_viewport modify snd fold_left run_listener].
    cbn [innerWidth innerHeight devicePixelRatio canvasRef context2d canvas
         callbacks handle closures rafRef tRef].
    rewrite ornament_resizeCanvas. cbn [snd].
    split; [reflexivity|exact Hc].
Qed.

Lemma ornament_run_running (cfg : Config) (id : nat) (es : list Event) :
  forall w, Spec.ornament_running cfg id w ->
            Spec.ornament_running cfg id (run es w).
Proof.
  induction es as [|e es IH]; intros w H; [exact H|].
  cbn [run fold_left]. apply IH. apply ornament_step_running. exact H.
Qed.

(** The cleanup of Ornament cancels the pending frame and detaches the
    resize listener. *)
Lemma ornament_cleanup_quiet (cfg : Config) (id : nat) (w : World) :
  Spec.ornament_running cfg id w ->
  fst (Ornament.cleanup id w) = Ret tt /\
  Spec.quiet (snd (Ornament.cleanup id w)) /\
  canvas (snd (Ornament.cleanup id w)) = canvas w.
Proof.
  intros [Hl Hc].
  destruct w as [iw ih d cr c2d cv ls cbs h n r t].
  cbn [listeners callbacks rafRef] in Hl, Hc. subst ls.
  unfold Ornament.cleanup. run_step.
  destruct Hc as [->|(h0 & -> & ->)].
  - destruct (Ornament.truthy r).
    + unfold cancelAnimationFrame, removeEventListener, set_callbacks,
        set_listeners, modify, bind, Spec.quiet.
      cbn [fst snd listeners callbacks canvas filter]. rewrite Nat.eqb_refl.
      repeat split; reflexivity.
    + unfold removeEventListener, set_listeners, modify, bind, ret,
        Spec.quiet.
      cbn [fst snd listeners callbacks canvas filter]. rewrite Nat.eqb_refl.
      repeat split; reflexivity.
  - cbn [Ornament.truthy Nat.eqb negb or_default].
    unfold cancelAnimationFrame, removeEventListener, set_callbacks,
      set_listeners, modify, bind, Spec.quiet.
    cbn [fst snd listeners callbacks canvas filter]. rewrite !Nat.eqb_refl.
    repeat split; reflexivity.
Qed.

(** On a quiet page no event touches the canvas. *)
Lemma quiet_step (w : World) (e : Event) :
  Spec.quiet w -> Spec.quiet (step w e) /\ canvas (step w e) = canvas w.
Proof.
  intros [Hl Hc].
  destruct w as [iw ih d cr c2d cv ls cbs h n r t].
  cbn [listeners callbacks] in Hl, Hc. subst ls cbs.
  destruct e; repeat split; reflexivity.
Qed.

Lemma quiet_run (es : list Event) :
  forall w, Spec.quiet w ->
            Spec.quiet (run es w) /\ canvas (run es w) = canvas w.
Proof.
  induction es as [|e es IH]; intros w H; [split; [exact H|reflexivity]|].
  cbn [run fold_left].
  destruct (quiet_step w e H) as [Hq Hcv].
  destruct (IH (step w e) Hq) as [Hq' Hcv'].
  split; [exact Hq'|]. unfold run in Hcv'. rewrite Hcv'. exact Hcv.
Qed.

(** The Ornament half of C3: mounted on a fresh page and unmounted after
    any events, Ornament leaves no pending frame callback and no resize
    listener, and whatever events follow, frames or resizes, the canvas
    stays as it was at unmount. *)
Lemma ornament_unmount_stops (props : OrnamentProps) (w : World)
    (before after : list Event) :
  Spec.fresh_page w ->
  exists cl w1,
    mount (OrnamentComponent props) w = (Ret (Some cl), w1) /\
    let w2 := run before w1 in
    let w3 := snd (unmount (Some cl) w2) in
    fst (unmount (Some cl) w2) = Ret tt /\
    listeners w3 = [] /\
    callbacks w3 = [] /\
    canvas w3 = canvas w2 /\
    canvas (run after w3) = canvas w3.
Proof.
  intros (Href & Hctx & Hls & Hcbs).
  destruct w as [iw ih d cr c2d [cw ch sw sh c] ls cbs h n r t].
  cbn [canvasRef context2d listeners callbacks] in Href, Hctx, Hls, Hcbs.
  subst cr c2d ls cbs.
  destruct (ornament_mount (destructure props) iw ih d cw ch sw sh c h n r t)
    as [cv Hm].
  unfold mount. rewrite Hm.
  eexists. eexists. split; [reflexivity|]. cbv zeta.
  set (w1 := mkWorld _ _ _ _ _ _ _ _ _ _ _ _).
  assert (H1 : Spec.ornament_running (destructure props) (S n) w1).
  { split; [reflexivity|]. right. exists h. split; reflexivity. }
  pose proof (ornament_run_running _ _ before w1 H1) as H2.
  destruct (ornament_cleanup_quiet _ _ _ H2) as (Hret & Hq & Hcv).
  cbn [unmount].
  split; [exact Hret|].
  destruct Hq as [Hql Hqc].
  split; [exact Hql|]. split; [exact Hqc|]. split; [exact Hcv|].
  apply quiet_run. split; assumption.
Qed.

(** * Further properties of the drawing routines *)

(** ** Loops with any bound *)



(** ** MandalaBase: the dotted ring with any dot count *)

Section DotsAt.

Variables (x y radius angleStep : R) (color : string).





End DotsAt.


(** ** MandalaBase: the solid ring *)

(** What the two assignments of [drawCircle] leave of the stroke style
    and the line width. *)
Lemma ring_state (col : string) (lw : R) (s : DrawState) :
  let st := with_lineWidth lw (with_strokeStyle (Color col) s) in
  (Css.is_color col = true -> strokeStyle st = Color col) /\
  (Css.is_color col = false -> strokeStyle st = strokeStyle s) /\
  (0 < lw -> lineWidth st = lw) /\
  (lw <= 0 -> lineWidth st = lineWidth s).
Proof.
  cbv zeta. repeat split; intros H.
  - through. apply with_strokeStyle_taken. exact H.
  - through. rewrite with_strokeStyle_refused by exact H. reflexivity.
  - apply with_lineWidth_taken. exact H.
  - rewrite with_lineWidth_refused by exact H. through. reflexivity.
Qed.

(** X2: without [dotted] (left out or false) and with a radius that is not
    negative, [drawCircle] strokes one full circle of that radius around
    the given centre, whatever [dotCount] says; it paints nothing else and
    returns with the drawing state and the stack of saved states as they
    were.  The stroke is in the given colour when the string is a colour
    and in the stroke style the context had when it is not, and has the
    given line width when it is positive and the line width the context
    had when it is not; colour and width are magenta [#ff00ff] and 2 when
    they are left out. *)
Theorem solid_ring_strokes_once (x y radius : R) (color : option string)
    (width : option R) (dotted : option bool) (dotCount : option R) (c : Ctx) :
  0 <= radius ->
  or_default dotted false = false ->
  let col := or_default color "#ff00ff" in
  let lw := or_default width 2 in
  let st := with_lineWidth lw (with_strokeStyle (Color col) (cur c)) in
  MandalaBase.drawCircle x y radius
    (MandalaBase.mkCircleOptions color width dotted dotCount) c
  = (Ret tt,
     mkCtx (cur c) (saved c)
       [mkPathItem (transform (cur c)) (Arc x y radius 0 (PI * 2) false)]
       (surface c ++
        [Stroke st
           [mkPathItem (transform (cur c))
              (Arc x y radius 0 (PI * 2) false)]])) /\
  (Css.is_color col = true -> strokeStyle st = Color col) /\
  (Css.is_color col = false -> strokeStyle st = strokeStyle (cur c)) /\
  (0 < lw -> lineWidth st = lw) /\
  (lw <= 0 -> lineWidth st = lineWidth (cur c)).
Proof.
  intros Hr Hd. cbv zeta. split; [|apply ring_state].
  unfold MandalaBase.drawCircle.
  cbn [MandalaBase.opt_color MandalaBase.opt_lineWidth MandalaBase.opt_dotted
       MandalaBase.opt_dotCount].
  rewrite Hd. cbv iota zeta.
  canvas_unfold.
  repeat first [progress canvas_cbn | decide_lt].
  same_transform. reflexivity.
Qed.

Lemma solid_ring_strokes_once_witness :
  let st := with_lineWidth 4
              (with_strokeStyle (Color "#ff66ff") default_state) in
  MandalaBase.drawCircle 400 300 200
    (MandalaBase.mkCircleOptions (Some "#ff66ff") (Some 4) None None)
    (mkCtx default_state [] [] [])
  = (Ret tt,
     mkCtx default_state []
       [mkPathItem identity (Arc 400 300 200 0 (PI * 2) false)]
       ([] ++
        [Stroke st
           [mkPathItem identity (Arc 400 300 200 0 (PI * 2) false)]])) /\
  (Css.is_color "#ff66ff" = true -> strokeStyle st = Color "#ff66ff") /\
  (Css.is_color "#ff66ff" = false -> strokeStyle st = Color "#000000") /\
  (0 < 4 -> lineWidth st = 4) /\
  (4 <= 0 -> lineWidth st = 1).
Proof.
  apply (solid_ring_strokes_once 400 300 200 (Some "#ff66ff") (Some 4)
           None None (mkCtx default_state [] [] [])).
  - lra.
  - reflexivity.
Defined.

(** X3: on a negative radius the solid branch of [drawCircle] ends in the
    IndexSizeError of [arc], after [save] and without [restore]: nothing is
    painted, but the context keeps what the two assignments of the call
    left of stroke style and line width (the colour when the string is a
    colour, the line width when it is positive), an empty path, and one
    more saved state than before. *)
Theorem solid_ring_negative_radius (x y radius : R) (color : option string)
    (width : option R) (dotted : option bool) (dotCount : option R) (c : Ctx) :
  radius < 0 ->
  or_default dotted false = false ->
  let col := or_default color "#ff00ff" in
  let lw := or_default width 2 in
  let st := with_lineWidth lw (with_strokeStyle (Color col) (cur c)) in
  MandalaBase.drawCircle x y radius
    (MandalaBase.mkCircleOptions color width dotted dotCount) c
  = (Throw IndexSizeError, mkCtx st (cur c :: saved c) [] (surface c)) /\
  (Css.is_color col = true -> strokeStyle st = Color col) /\
  (Css.is_color col = false -> strokeStyle st = strokeStyle (cur c)) /\
  (0 < lw -> lineWidth st = lw) /\
  (lw <= 0 -> lineWidth st = lineWidth (cur c)).
Proof.
  intros Hr Hd. cbv zeta. split; [|apply ring_state].
  unfold MandalaBase.drawCircle.
  cbn [MandalaBase.opt_color MandalaBase.opt_lineWidth MandalaBase.opt_dotted
       MandalaBase.opt_dotCount].
  rewrite Hd. cbv iota zeta.
  canvas_unfold.
  repeat first [progress canvas_cbn | decide_lt].
  reflexivity.
Qed.

Lemma solid_ring_negative_radius_witness :
  let st := with_lineWidth 2
              (with_strokeStyle (Color "#ff00ff") default_state) in
  MandalaBase.drawCircle 400 300 (-1)
    (MandalaBase.mkCircleOptions None None (Some false) None)
    (mkCtx default_state [] [] [])
  = (Throw IndexSizeError, mkCtx st [default_state] [] []) /\
  (Css.is_color "#ff00ff" = true -> strokeStyle st = Color "#ff00ff") /\
  (Css.is_color "#ff00ff" = false -> strokeStyle st = Color "#000000") /\
  (0 < 2 -> lineWidth st = 2) /\
  (2 <= 0 -> lineWidth st = 1).
Proof.
  apply (solid_ring_negative_radius 400 300 (-1) None None (Some false) None
           (mkCtx default_state [] [] [])).
  - lra.
  - reflexivity.
Defined.

(** ** MandalaBase: the glow ring, state and failure *)

(** X4: for a colour [#rrggbb] and radii that are not negative, the
    glow-ring primitive returns after one paint operation, the fill of the
    annulus (outer circle clockwise, inner circle counterclockwise, path
    closed) under the blending mode "lighter"; the drawing state, fill
    style and blending mode included, and the stack of saved states come
    back as they were, and the annulus stays as the current path. *)
Theorem glow_ring_fills_annulus (x y radius thickness : R) (color : string)
    (r g b : N) (c : Ctx) :
  Css.hex6 color = Some (r, g, b) ->
  0 <= radius - thickness / 2 ->
  0 <= radius + thickness / 2 ->
  let m := transform (cur c) in
  let annulus :=
    [mkPathItem m (Arc x y (radius + thickness / 2) 0 (PI * 2) false);
     mkPathItem m (Arc x y (radius - thickness / 2) 0 (PI * 2) true);
     mkPathItem m ClosePath] in
  exists st,
    MandalaBase.drawGlowingRing x y radius thickness color c
    = (Ret tt, mkCtx (cur c) (saved c) annulus
                 (surface c ++ [Fill st annulus])) /\
    globalCompositeOperation st = "lighter" /\
    strokeStyle st = strokeStyle (cur c) /\
    lineWidth st = lineWidth (cur c) /\
    globalAlpha st = globalAlpha (cur c) /\
    transform st = transform (cur c).
Proof.
  intros Hhex Hin Hout. cbv zeta.
  rewrite (glow_ring_paints x y radius thickness color r g b c Hhex Hin Hout).
  eexists. split; [reflexivity|]. repeat split; reflexivity.
Qed.

Lemma glow_ring_fills_annulus_witness :
  let c := mkCtx default_state [] [] [] in
  let annulus :=
    [mkPathItem identity (Arc 400 300 (170 + 60 / 2) 0 (PI * 2) false);
     mkPathItem identity (Arc 400 300 (170 - 60 / 2) 0 (PI * 2) true);
     mkPathItem identity ClosePath] in
  exists st,
    MandalaBase.drawGlowingRing 400 300 170 60 "#ff00ff" c
    = (Ret tt, mkCtx default_state [] annulus ([] ++ [Fill st annulus])) /\
    globalCompositeOperation st = "lighter" /\
    strokeStyle st = Color "#000000" /\
    lineWidth st = 1 /\
    globalAlpha st = 1 /\
    transform st = identity.
Proof.
  apply (glow_ring_fills_annulus 400 300 170 60 "#ff00ff" 255 0 255
           (mkCtx default_state [] [] [])).
  - reflexivity.
  - lra.
  - lra.
Defined.

(** X5: the glow-ring primitive fails before it touches the context: when
    a radius is negative it ends in IndexSizeError, and when [color + "80"]
    is [#] followed by hex digits that are not 3, 4, 6 or 8 in number (as
    for a colour written [#rgb]) it ends in SyntaxError, in both cases with
    the context exactly as it was (nothing saved, nothing painted, path
    untouched). *)
Theorem glow_ring_fails_untouched (x y radius thickness : R) (color : string)
    (c : Ctx) :
  (radius - thickness / 2 < 0 \/ radius + thickness / 2 < 0 ->
   MandalaBase.drawGlowingRing x y radius thickness color c
   = (Throw IndexSizeError, c)) /\
  (0 <= radius - thickness / 2 -> 0 <= radius + thickness / 2 ->
   Css.malformed_hex (color ++ "80") = true ->
   MandalaBase.drawGlowingRing x y radius thickness color c
   = (Throw SyntaxError, c)).
Proof.
  split.
  - intros H. unfold MandalaBase.drawGlowingRing, createRadialGradient.
    cbv zeta. unfold bind at 1.
    destruct (Rlt_dec (radius - thickness / 2) 0); [reflexivity|].
    destruct (Rlt_dec (radius + thickness / 2) 0); [reflexivity|].
    lra.
  - intros Hin Hout Hc. unfold MandalaBase.drawGlowingRing. cbv zeta.
    erewrite bind_Ret by (apply createRadialGradient_runs; assumption).
    erewrite bind_Ret by (apply addColorStop_runs; [lra|reflexivity]).
    apply bind_Throw. unfold addColorStop.
    destruct (Rlt_dec 0.4 0); [lra|]. destruct (Rlt_dec 1 0.4); [lra|].
    rewrite (malformed_hex_color _ Hc). reflexivity.
Qed.

(** ** MandalaBase: the render loop while mounted *)

Lemma mandala_step_running (id : nat) (w : World) (e : Event) :
  Spec.mandala_running id w -> Spec.mandala_running id (step w e).
Proof.
  intros (Hl & [h0 Hc] & Hw & Hh & Hcur & Hsaved).
  destruct w as [iw ih d cr c2d [cw ch sw sh c] ls cbs h n r t].
  cbn [listeners callbacks canvas width height context innerWidth
       innerHeight] in Hl, Hc, Hw, Hh, Hcur, Hsaved.
  subst ls cbs cw ch.
  destruct e as [now|vw vh]; cbn [step].
  - destruct (mandala_animation_frame now iw ih d cr c2d iw ih sw sh c
                [(id, MandalaResize)] h0 h n r t) as [p Hp].
    rewrite Hp. unfold Spec.mandala_running.
    cbn [listeners callbacks canvas width height context innerWidth
         innerHeight cur saved].
    repeat split; try assumption; try reflexivity.
    eexists; reflexivity.
  - rewrite mandala_window_resize. unfold Spec.mandala_running.
    cbn [listeners callbacks canvas width height context innerWidth
         innerHeight cur saved reset].
    repeat split; try reflexivity.
    eexists; reflexivity.
Qed.

Lemma mandala_run_running (id : nat) (es : list Event) :
  forall w, Spec.mandala_running id w -> Spec.mandala_running id (run es w).
Proof.
  induction es as [|e es IH]; intros w H; [exact H|].
  cbn [run fold_left]. apply IH. apply mandala_step_running. exact H.
Qed.

Lemma mandala_mount_running (w : World) :
  Spec.fresh_page w ->
  exists id,
    fst (mount MandalaBaseComponent w) = Ret (Some (MandalaCleanup id)) /\
    Spec.mandala_running id (snd (mount MandalaBaseComponent w)).
Proof.
  intros (Href & Hctx & Hls & Hcbs).
  destruct w as [iw ih d cr c2d [cw ch sw sh c] ls cbs h n r t].
  cbn [canvasRef context2d listeners callbacks] in Href, Hctx, Hls, Hcbs.
  subst cr c2d ls cbs.
  destruct (mandala_mount iw ih d cw ch sw sh c h n r t) as [p Hp].
  unfold mount. rewrite Hp. exists (S n). split; [reflexivity|].
  unfold Spec.mandala_running.
  cbn [snd listeners callbacks canvas width height context innerWidth
       innerHeight cur saved].
  repeat split; try reflexivity.
  eexists; reflexivity.
Qed.

(** X6: while MandalaBase is mounted, whatever animation frames and window
    resizes the page goes through, there is exactly one resize listener
    and exactly one pending [render] (the loop neither stops nor doubles),
    the canvas has the size of the viewport, and between events the
    context is in its default state with nothing saved. *)
Theorem mandala_loop_invariant (w : World) (es : list Event) :
  Spec.fresh_page w ->
  let w' := run es (snd (mount MandalaBaseComponent w)) in
  (exists id, listeners w' = [(id, MandalaResize)]) /\
  (exists h, callbacks w' = [(h, MandalaRender)]) /\
  width (canvas w') = innerWidth w' /\
  height (canvas w') = innerHeight w' /\
  cur (context (canvas w')) = default_state /\
  saved (context (canvas w')) = [].
Proof.
  intros Hfresh. cbv zeta.
  destruct (mandala_mount_running w Hfresh) as (id & _ & Hrun).
  destruct (mandala_run_running id es _ Hrun) as (Hl & Hc & Hrest).
  split; [exists id; exact Hl|]. split; [exact Hc|exact Hrest].
Qed.

Lemma mandala_loop_invariant_witness :
  let w' := run [AnimationFrame 16; WindowResize 1024 768; AnimationFrame 33]
              (snd (mount MandalaBaseComponent (Spec.blank_page 800 600 1))) in
  (exists id, listeners w' = [(id, MandalaResize)]) /\
  (exists h, callbacks w' = [(h, MandalaRender)]) /\
  width (canvas w') = innerWidth w' /\
  height (canvas w') = innerHeight w' /\
  cur (context (canvas w')) = default_state /\
  saved (context (canvas w')) = [].
Proof.
  apply (mandala_loop_invariant (Spec.blank_page 800 600 1)
           [AnimationFrame 16; WindowResize 1024 768; AnimationFrame 33]).
  repeat split; reflexivity.
Defined.

Lemma mandala_frame_length (base : DrawState) (x y w h : R) :
  List.length (Spec.mandala_frame base x y w h) = 163%nat.
Proof.
  unfold Spec.mandala_frame, Spec.dotted_ring.
  rewrite length_app, length_map, length_seq. reflexivity.
Qed.

(** X7: every animation frame of a mounted MandalaBase, after whatever
    frames and resizes, adds the same 163 paint operations: the clearing of
    the whole canvas, the glow ring, the solid ring and the 160 dots, all
    around the centre of the viewport as the last resize left it; and a
    window resize adds nothing but the two reallocations of the bitmap. *)
Theorem mandala_every_frame (w : World) (es : list Event) (now vw vh : R) :
  Spec.fresh_page w ->
  let w' := run es (snd (mount MandalaBaseComponent w)) in
  let frame :=
    Spec.mandala_frame default_state (innerWidth w' / 2) (innerHeight w' / 2)
      (innerWidth w') (innerHeight w') in
  painted (step w' (AnimationFrame now)) = painted w' ++ frame /\
  List.length frame = 163%nat /\
  painted (step w' (WindowResize vw vh))
  = painted w' ++ [ResetBitmap; ResetBitmap] /\
  width (canvas (step w' (WindowResize vw vh))) = vw /\
  height (canvas (step w' (WindowResize vw vh))) = vh.
Proof.
  intros Hfresh. cbv zeta.
  destruct (mandala_mount_running w Hfresh) as (id & _ & Hrun).
  pose proof (mandala_run_running id es _ Hrun) as Hinv.
  set (w' := run es (snd (mount MandalaBaseComponent w))) in *.
  destruct Hinv as (Hl & [h0 Hc] & Hw & Hh & Hcur & Hsaved).
  destruct w' as [iw ih d cr c2d [cw ch sw sh c] ls cbs h n r t].
  cbn [listeners callbacks canvas width height context innerWidth
       innerHeight] in Hl, Hc, Hw, Hh, Hcur, Hsaved |- *.
  subst ls cbs cw ch.
  split; [|split; [apply mandala_frame_length|]].
  - cbn [step].
    destruct (mandala_animation_frame now iw ih d cr c2d iw ih sw sh c
                [(id, MandalaResize)] h0 h n r t) as [p Hp].
    rewrite Hp. unfold painted. cbn [canvas context surface].
    rewrite Hcur. reflexivity.
  - cbn [step]. rewrite mandala_window_resize. unfold painted.
    cbn [canvas context surface reset width height].
    rewrite <- app_assoc. repeat split; reflexivity.
Qed.

Lemma mandala_every_frame_witness :
  let w' := run [AnimationFrame 16; WindowResize 1024 768]
              (snd (mount MandalaBaseComponent (Spec.blank_page 800 600 1))) in
  let frame :=
    Spec.mandala_frame default_state (innerWidth w' / 2) (innerHeight w' / 2)
      (innerWidth w') (innerHeight w') in
  painted (step w' (AnimationFrame 33)) = painted w' ++ frame /\
  List.length frame = 163%nat /\
  painted (step w' (WindowResize 640 480))
  = painted w' ++ [ResetBitmap; ResetBitmap] /\
  width (canvas (step w' (WindowResize 640 480))) = 640 /\
  height (canvas (step w' (WindowResize 640 480))) = 480.
Proof.
  apply (mandala_every_frame (Spec.blank_page 800 600 1)
           [AnimationFrame 16; WindowResize 1024 768] 33 640 480).
  repeat split; reflexivity.
Defined.

(** ** Ornament: the crown *)

Lemma crown_cos (t : R) : cos (- PI / 2 + t) = sin t.
Proof.
  replace (- PI / 2 + t) with (- (PI / 2 - t)) by field.
  rewrite cos_neg. apply cos_shift.
Qed.

Lemma crown_sin (t : R) : sin (- PI / 2 + t) = - cos t.
Proof.
  replace (- PI / 2 + t) with (- (PI / 2 - t)) by field.
  rewrite sin_neg, sin_shift. reflexivity.
Qed.

Lemma petal_runs (i : nat) (c : Ctx) :
  Ornament.petal i c
  = (Ret tt,
     mkCtx (cur c) (saved c)
       (path c ++ Spec.petal_segments (transform (cur c)) i) (surface c)).
Proof.
  unfold Ornament.petal. cbv zeta. canvas_run.
  unfold Ornament.crownCount, Ornament.crownRadius.
  replace (- PI / 2 + (INR i - (7 - 1) / 2) * (PI / 10) - 0.12)
    with (- PI / 2 + (Spec.lean i - 0.12)) by (unfold Spec.lean; field).
  replace (- PI / 2 + (INR i - (7 - 1) / 2) * (PI / 10) + 0.12)
    with (- PI / 2 + (Spec.lean i + 0.12)) by (unfold Spec.lean; field).
  replace (- PI / 2 + (INR i - (7 - 1) / 2) * (PI / 10))
    with (- PI / 2 + Spec.lean i) by (unfold Spec.lean; field).
  rewrite !crown_cos, !crown_sin.
  replace (36 + 6) with 42 by lra.
  rewrite <- !app_assoc. reflexivity.
Qed.

(** X8: one turn of the crown loop adds three segments to the current path
    and does nothing else: a move to the left foot of the petal and two
    quadratic curves, to the tip and to the right foot.  Petal [i] leans by
    [(i - 3) * PI / 10] from the upward vertical; its tip lies at distance
    42 from [(0, -14)] and its feet at distance 36 from [(0, -8)]; the
    middle petal points straight up, with its tip at [(0, -56)]. *)
Theorem crown_petal_geometry (i : nat) (c : Ctx) :
  Ornament.petal i c
  = (Ret tt,
     mkCtx (cur c) (saved c)
       (path c ++
        [mkPathItem (transform (cur c))
           (MoveTo (fst (Spec.petal_left i)) (snd (Spec.petal_left i)));
         mkPathItem (transform (cur c))
           (QuadraticCurveTo (fst (Spec.petal_tip i) * 0.9)
              (snd (Spec.petal_tip i) * 0.9)
              (fst (Spec.petal_tip i)) (snd (Spec.petal_tip i)));
         mkPathItem (transform (cur c))
           (QuadraticCurveTo (fst (Spec.petal_tip i) * 0.95)
              (snd (Spec.petal_tip i) * 0.95)
              (fst (Spec.petal_right i)) (snd (Spec.petal_right i)))])
       (surface c)) /\
  Spec.distance (Spec.petal_tip i) (0, -14) = 42 /\
  Spec.distance (Spec.petal_left i) (0, -8) = 36 /\
  Spec.distance (Spec.petal_right i) (0, -8) = 36 /\
  Spec.petal_tip 3 = (0, -56).
Proof.
  split; [apply petal_runs|].
  assert (Hd : forall t k a, 0 <= k ->
             Spec.distance (sin t * k, - cos t * k - a) (0, - a) = k).
  { intros t k a Hk. unfold Spec.distance. cbn [fst snd].
    replace ((sin t * k - 0)² + (- cos t * k - a - - a)²)
      with (k² * ((sin t)² + (cos t)²)) by (unfold Rsqr; ring).
    rewrite sin2_cos2, Rmult_1_r. apply sqrt_Rsqr. exact Hk. }
  split; [apply (Hd (Spec.lean i) 42 14); lra|].
  split; [apply (Hd (Spec.lean i - 0.12) 36 8); lra|].
  split; [apply (Hd (Spec.lean i + 0.12) 36 8); lra|].
  unfold Spec.petal_tip, Spec.lean.
  replace ((INR 3 - 3) * (PI / 10)) with 0
    by (rewrite INR_IZR_INZ; cbn [Z.of_nat Pos.of_succ_nat Pos.succ]; lra).
  rewrite sin_0, cos_0. f_equal; lra.
Qed.

Lemma lean_mirror (i : nat) : (i <= 6)%nat -> Spec.lean (6 - i) = - Spec.lean i.
Proof.
  intros H. unfold Spec.lean. rewrite minus_INR by exact H.
  replace (INR 6) with 6
    by (rewrite INR_IZR_INZ; reflexivity).
  lra.
Qed.

(** X9: the crown is symmetric in its tips and feet: for [i] from 0 to 6,
    petal [6 - i] moves to the mirror image (across the vertical axis) of
    the right foot of petal [i], curves to the mirror image of its tip and
    ends on the mirror image of its left foot. *)
Theorem crown_mirror (i : nat) (c : Ctx) :
  (i <= 6)%nat ->
  Ornament.petal (6 - i) c
  = (Ret tt,
     mkCtx (cur c) (saved c)
       (path c ++
        [mkPathItem (transform (cur c))
           (MoveTo (- fst (Spec.petal_right i)) (snd (Spec.petal_right i)));
         mkPathItem (transform (cur c))
           (QuadraticCurveTo (- fst (Spec.petal_tip i) * 0.9)
              (snd (Spec.petal_tip i) * 0.9)
              (- fst (Spec.petal_tip i)) (snd (Spec.petal_tip i)));
         mkPathItem (transform (cur c))
           (QuadraticCurveTo (- fst (Spec.petal_tip i) * 0.95)
              (snd (Spec.petal_tip i) * 0.95)
              (- fst (Spec.petal_left i)) (snd (Spec.petal_left i)))])
       (surface c)) /\
  Spec.petal_tip (6 - i) = Spec.mirror (Spec.petal_tip i) /\
  Spec.petal_left (6 - i) = Spec.mirror (Spec.petal_right i) /\
  Spec.petal_right (6 - i) = Spec.mirror (Spec.petal_left i).
Proof.
  intros Hi.
  assert (Ht : Spec.petal_tip (6 - i) = Spec.mirror (Spec.petal_tip i)).
  { unfold Spec.petal_tip, Spec.mirror. cbn [fst snd].
    rewrite (lean_mirror i Hi), sin_neg, cos_neg. f_equal; ring. }
  assert (Hl : Spec.petal_left (6 - i) = Spec.mirror (Spec.petal_right i)).
  { unfold Spec.petal_left, Spec.petal_right, Spec.mirror. cbn [fst snd].
    rewrite (lean_mirror i Hi).
    replace (- Spec.lean i - 0.12) with (- (Spec.lean i + 0.12)) by ring.
    rewrite sin_neg, cos_neg. f_equal; ring. }
  assert (Hr : Spec.petal_right (6 - i) = Spec.mirror (Spec.petal_left i)).
  { unfold Spec.petal_left, Spec.petal_right, Spec.mirror. cbn [fst snd].
    rewrite (lean_mirror i Hi).
    replace (- Spec.lean i + 0.12) with (- (Spec.lean i - 0.12)) by ring.
    rewrite sin_neg, cos_neg. f_equal; ring. }
  split; [|split; [exact Ht|split; [exact Hl|exact Hr]]].
  rewrite petal_runs. unfold Spec.petal_segments.
  rewrite Ht, Hl, Hr. reflexivity.
Qed.

Lemma crown_mirror_witness :
  let c := mkCtx default_state [] [] [] in
  Ornament.petal (6 - 1) c
  = (Ret tt,
     mkCtx (cur c) (saved c)
       (path c ++
        [mkPathItem (transform (cur c))
           (MoveTo (- fst (Spec.petal_right 1)) (snd (Spec.petal_right 1)));
         mkPathItem (transform (cur c))
           (QuadraticCurveTo (- fst (Spec.petal_tip 1) * 0.9)
              (snd (Spec.petal_tip 1) * 0.9)
              (- fst (Spec.petal_tip 1)) (snd (Spec.petal_tip 1)));
         mkPathItem (transform (cur c))
           (QuadraticCurveTo (- fst (Spec.petal_tip 1) * 0.95)
              (snd (Spec.petal_tip 1) * 0.95)
              (- fst (Spec.petal_left 1)) (snd (Spec.petal_left 1)))])
       (surface c)) /\
  Spec.petal_tip (6 - 1) = Spec.mirror (Spec.petal_tip 1) /\
  Spec.petal_left (6 - 1) = Spec.mirror (Spec.petal_right 1) /\
  Spec.petal_right (6 - 1) = Spec.mirror (Spec.petal_left 1).
Proof.
  apply (crown_mirror 1 (mkCtx default_state [] [] [])). lia.
Defined.

(** ** Ornament: the glyph *)

Lemma crownCount_INR : Ornament.crownCount = INR 7.
Proof. unfold Ornament.crownCount. rewrite INR_IZR_INZ. reflexivity. Qed.

Lemma petals_run (l : list nat) : forall c : Ctx,
  each l Ornament.petal c
  = (Ret tt,
     mkCtx (cur c) (saved c)
       (path c ++ flat_map (Spec.petal_segments (transform (cur c))) l)
       (surface c)).
Proof.
  induction l as [|i rest IH]; intros c.
  - cbn [each flat_map ret]. rewrite app_nil_r. destruct c; reflexivity.
  - cbn [each flat_map]. rewrite (bind_Ret _ _ _ _ _ (petal_runs i c)).
    rewrite IH. cbn [cur saved path surface]. rewrite <- app_assoc.
    reflexivity.
Qed.

Lemma crown_loop_runs (c : Ctx) :
  for_lt Ornament.crownCount Ornament.petal c
  = (Ret tt,
     mkCtx (cur c) (saved c) (path c ++ Spec.crown (transform (cur c)))
       (surface c)).
Proof. rewrite crownCount_INR, for_lt_nat. apply petals_run. Qed.

(** The neon stroke of a procedure that replaces the current path by a
    path of its own. *)
Lemma neon_stroke_of_path (cfg : Config) (proc : M Ctx unit)
    (opts : Ornament.StrokeOptions) (P : Matrix -> list PathItem) (c : Ctx) :
  (forall c0, proc c0
              = (Ret tt,
                 mkCtx (cur c0) (saved c0) (P (transform (cur c0)))
                   (surface c0))) ->
  Ornament.neonStroke cfg proc opts c
  = (Ret tt,
     mkCtx (cur c) (saved c) (P (transform (cur c)))
       (surface c ++ Spec.neon cfg opts (cur c) (P (transform (cur c))))).
Proof.
  intros Hp.
  erewrite neon_stroke_runs; [| apply Hp | apply Hp].
  unfold restore, modify. cbn [saved cur path surface].
  rewrite <- app_assoc. same_transform. reflexivity.
Qed.

(** The neon stroke of the crown's procedure, which strokes. *)
Lemma neon_stroke_of_crown (cfg : Config) (opts : Ornament.StrokeOptions)
    (c : Ctx) :
  Ornament.neonStroke cfg Ornament.crown_path opts c
  = (Ret tt,
     mkCtx (cur c) (saved c) (path c)
       (surface c ++
        [Stroke (Spec.halo_state cfg opts (cur c)) (path c);
         Stroke (Spec.halo_state cfg opts (cur c)) (path c);
         Stroke (Spec.core_state cfg opts (cur c)) (path c);
         Stroke (Spec.core_state cfg opts (cur c)) (path c)])).
Proof.
  erewrite neon_stroke_runs; [| reflexivity | reflexivity].
  unfold restore, modify. cbn [saved cur path surface].
  rewrite <- !app_assoc. reflexivity.
Qed.

Lemma oval_path_runs (c : Ctx) :
  Ornament.oval_path c
  = (Ret tt,
     mkCtx (cur c) (saved c) (Spec.oval (transform (cur c))) (surface c)).
Proof. unfold Ornament.oval_path. canvas_run. reflexivity. Qed.

Lemma rod_path_runs (c : Ctx) :
  Ornament.rod_path c
  = (Ret tt,
     mkCtx (cur c) (saved c) (Spec.rod (transform (cur c))) (surface c)).
Proof. unfold Ornament.rod_path. canvas_run. reflexivity. Qed.

Lemma circlet_path_runs (c : Ctx) :
  Ornament.circlet_path c
  = (Ret tt,
     mkCtx (cur c) (saved c) (Spec.circlet (transform (cur c))) (surface c)).
Proof. unfold Ornament.circlet_path. canvas_run. reflexivity. Qed.

Lemma pendant_path_runs (c : Ctx) :
  Ornament.pendant_path c
  = (Ret tt,
     mkCtx (cur c) (saved c) (Spec.pendant (transform (cur c))) (surface c)).
Proof. unfold Ornament.pendant_path. canvas_run. reflexivity. Qed.

Lemma glyph_runs (cfg : Config) (scale : option number) (c : Ctx) :
  Ornament.drawOrnamentAt cfg scale c
  = (Ret tt,
     mkCtx (cur c) (saved c)
       [mkPathItem (transform (Spec.scaled (or_default scale 1) (cur c)))
          (Arc 0 34 2.2 0 (PI * 2) false)]
       (surface c ++
        Spec.glyph cfg (Spec.scaled (or_default scale 1) (cur c)))).
Proof.
  unfold Ornament.drawOrnamentAt. cbv zeta.
  set (s := Spec.scaled (or_default scale 1) (cur c)).
  unfold bind at 1. cbn [save modify].
  unfold bind at 1.
  cbn [Canvas2D.scale set_transform set_cur modify cur saved path surface].
  unfold bind at 1. cbn [beginPath set_path modify cur saved path surface].
  fold (Spec.scaled (or_default scale 1) (cur c)). fold s.
  erewrite bind_Ret by apply crown_loop_runs.
  cbv beta. cbn [cur saved path surface app].
  erewrite bind_Ret by apply neon_stroke_of_crown.
  cbv beta. cbn [cur saved path surface].
  erewrite bind_Ret
    by (apply (neon_stroke_of_path cfg _ _ Spec.oval); apply oval_path_runs).
  cbv beta. cbn [cur saved path surface].
  erewrite bind_Ret
    by (apply (neon_stroke_of_path cfg _ _ Spec.rod); apply rod_path_runs).
  cbv beta. cbn [cur saved path surface].
  erewrite bind_Ret
    by (apply (neon_stroke_of_path cfg _ _ Spec.circlet);
        apply circlet_path_runs).
  cbv beta. cbn [cur saved path surface].
  erewrite bind_Ret
    by (apply (neon_stroke_of_path cfg _ _ Spec.pendant);
        apply pendant_path_runs).
  cbv beta. cbn [cur saved path surface].
  canvas_run. same_transform.
  unfold Spec.glyph, Spec.neon, Spec.accent_state. cbv zeta.
  rewrite <- !app_assoc. reflexivity.
Qed.

(** X10: for every configuration, scale and context, the glyph routine
    returns without an exception, with the drawing state and the stack of
    saved states as they were, after exactly 14 paint operations under the
    scaled transform: twelve strokes (the crown stroked four times, since
    its path procedure strokes, then oval, rod, circlet and pendant twice
    each, halo then core) and the fills of the two accent dots at alpha
    0.9. *)
Theorem glyph_paints_fourteen (cfg : Config) (scale : option number) (c : Ctx) :
  let s := Spec.scaled (or_default scale 1) (cur c) in
  exists p,
    Ornament.drawOrnamentAt cfg scale c
    = (Ret tt, mkCtx (cur c) (saved c) p (surface c ++ Spec.glyph cfg s)) /\
    List.length (Spec.glyph cfg s) = 14%nat /\
    map Spec.is_stroke (Spec.glyph cfg s)
    = [true; true; true; true; true; true; true; true; true; true; true; true;
       false; false] /\
    List.length (Spec.crown (transform s)) = 21%nat /\
    Forall (fun op =>
              match op with
              | Stroke st _ | Fill st _ => transform st = transform s
              | _ => False
              end) (Spec.glyph cfg s).
Proof.
  cbv zeta. eexists. split; [apply glyph_runs|].
  split; [reflexivity|]. split; [reflexivity|]. split; [reflexivity|].
  unfold Spec.glyph, Spec.neon. cbv zeta. cbn [app].
  repeat (apply Forall_cons;
          [first [ apply transform_halo_state | apply transform_core_state
                 | apply transform_accent_state ]|]).
  apply Forall_nil.
Qed.

(** ** Ornament: a whole frame *)

Lemma frame_drawing_runs (cfg : Config) (now cw ch : R) (c : Ctx) (r g b : N) :
  Css.hex6 (color cfg) = Some (r, g, b) ->
  0 <= size cfg ->
  exists p,
    Spec.frame_drawing cfg now cw ch c
    = (Ret tt,
       mkCtx (cur c) (saved c) p
         (surface c ++
          Spec.ornament_frame cfg (Css.mk_rgba r g b 255) now cw ch (cur c))).
Proof.
  intros Hhex Hsize.
  destruct (hex6_color (color cfg) r g b Hhex) as [_ Hsuffix].
  pose proof (Hsuffix "2"%char "2"%char 2%N 2%N eq_refl eq_refl) as H22.
  change (16 * 2 + 2)%N with 34%N in H22.
  pose proof (scale_nonneg cfg now Hsize) as Hscale.
  unfold Spec.frame_drawing.
  do 4 ctx_step.
  erewrite bind_Ret
    by (apply createRadialGradient_runs;
        [lra|apply Rle_trans with 80; [lra|apply Rmax_l]]).
  cbv beta.
  erewrite bind_Ret by (apply addColorStop_runs; [lra|exact H22]).
  cbv beta.
  erewrite bind_Ret by (apply addColorStop_runs; [lra|reflexivity]).
  cbv beta. canvas_cbn.
  do 2 ctx_step.
  erewrite bind_Ret by (apply ellipse_runs; lra).
  cbv beta. canvas_cbn.
  ctx_step.
  erewrite bind_Ret by apply glyph_runs.
  cbv beta. cbn [restore modify cur saved path surface].
  eexists. unfold Spec.ornament_frame. cbv zeta.
  rewrite <- !app_assoc. cbn [app or_default]. reflexivity.
Qed.

(** X11: with a colour [#rrggbb] and a size that is not negative, a frame
    of Ornament returns without an exception: it records [now / 1000] in
    [tRef], paints the clearing of the canvas, the halo ellipse of radii
    [72 * scale] and [98 * scale] and the 14 operations of the glyph at
    that scale (16 in all), gives the context back its drawing state and
    stack of saved states, requests exactly one next frame and keeps its
    handle in [rafRef]. *)
Theorem ornament_frame_runs (cfg : Config) (now : R) (w : World) (r g b : N) :
  Css.hex6 (color cfg) = Some (r, g, b) ->
  0 <= size cfg ->
  let c := context (canvas w) in
  let ops := Spec.ornament_frame cfg (Css.mk_rgba r g b 255) now
               (width (canvas w)) (height (canvas w)) (cur c) in
  exists w',
    Ornament.frame cfg now w = (Ret tt, w') /\
    painted w' = painted w ++ ops /\
    List.length ops = 16%nat /\
    cur (context (canvas w')) = cur c /\
    saved (context (canvas w')) = saved c /\
    callbacks w' = callbacks w ++ [(S (handle w), OrnamentFrame cfg)] /\
    rafRef w' = Some (S (handle w)) /\
    tRef w' = now / 1000 /\
    listeners w' = listeners w /\
    width (canvas w') = width (canvas w) /\
    height (canvas w') = height (canvas w).
Proof.
  intros Hhex Hsize. cbv zeta.
  destruct w as [iw ih d cr c2d [cw ch sw sh c] ls cbs h n r0 t].
  destruct (frame_drawing_runs cfg now cw ch c r g b Hhex Hsize) as [p Hp].
  unfold Ornament.frame. cbv zeta. do 3 run_step.
  change (on_ctx _) with (on_ctx (Spec.frame_drawing cfg now cw ch)).
  erewrite bind_Ret by (apply on_ctx_Ret; exact Hp). cbv beta.
  run_step. eexists. split; [reflexivity|].
  unfold painted.
  cbn [canvas context surface cur saved callbacks rafRef tRef listeners
       handle width height].
  repeat split; reflexivity.
Qed.

Lemma ornament_frame_runs_witness :
  let cfg := destructure (mkOrnamentProps None None None None None) in
  let w := Spec.blank_page 800 600 1 in
  let ops := Spec.ornament_frame cfg (Css.mk_rgba 255 2 230 255) 16
               300 150 default_state in
  exists w',
    Ornament.frame cfg 16 w = (Ret tt, w') /\
    painted w' = painted w ++ ops /\
    List.length ops = 16%nat /\
    cur (context (canvas w')) = default_state /\
    saved (context (canvas w')) = [] /\
    callbacks w' = callbacks w ++ [(S (handle w), OrnamentFrame cfg)] /\
    rafRef w' = Some (S (handle w)) /\
    tRef w' = 16 / 1000 /\
    listeners w' = listeners w /\
    width (canvas w') = width (canvas w) /\
    height (canvas w') = height (canvas w).
Proof.
  apply (ornament_frame_runs
           (destructure (mkOrnamentProps None None None None None)) 16
           (Spec.blank_page 800 600 1) 255 2 230).
  - reflexivity.
  - cbn [destructure size or_default prop_size]. lra.
Defined.

Lemma frame_drawing_bad_colour (cfg : Config) (now cw ch : R) (c : Ctx) :
  Css.color (color cfg ++ "22") = None ->
  exists st,
    Spec.frame_drawing cfg now cw ch c
    = (Throw SyntaxError,
       mkCtx st (cur c :: saved c) (path c)
         (surface c ++ [ClearRect (transform (cur c)) 0 0 cw ch])).
Proof.
  intros Hc. unfold Spec.frame_drawing.
  do 4 ctx_step.
  erewrite bind_Ret
    by (apply createRadialGradient_runs;
        [lra|apply Rle_trans with 80; [lra|apply Rmax_l]]).
  cbv beta. eexists. apply bind_Throw. unfold addColorStop.
  destruct (Rlt_dec 0 0); [lra|]. destruct (Rlt_dec 1 0); [lra|].
  rewrite Hc. reflexivity.
Qed.

Lemma ornament_frame_throws cfg now iw ih d cr c2d cw ch sw sh c ls cbs h n r t :
  Css.color (color cfg ++ "22") = None ->
  exists st,
    Ornament.frame cfg now
      (mkWorld iw ih d cr c2d (mkCanvas cw ch sw sh c) ls cbs h n r t)
    = (Throw SyntaxError,
       mkWorld iw ih d cr c2d
         (mkCanvas cw ch sw sh
            (mkCtx st (cur c :: saved c) (path c)
               (surface c ++ [ClearRect (transform (cur c)) 0 0 cw ch])))
         ls cbs h n r (now / 1000)).
Proof.
  intros Hc.
  destruct (frame_drawing_bad_colour cfg now cw ch c Hc) as [st Hd].
  exists st.
  unfold Ornament.frame. cbv zeta. do 3 run_step.
  change (on_ctx _) with (on_ctx (Spec.frame_drawing cfg now cw ch)).
  erewrite bind_Throw by (apply on_ctx_Throw; exact Hd).
  reflexivity.
Qed.

(** X12: when [color + "22"] is [#] followed by hex digits that are not
    3, 4, 6 or 8 in number (as for a colour written [#rgb], like [#f0f]),
    a frame of Ornament ends in the SyntaxError of [addColorStop]: the
    canvas has been cleared and nothing else is painted, the context is
    left with one more saved state, and no next frame is requested. *)
Theorem ornament_frame_bad_colour (cfg : Config) (now : R) (w : World) :
  Css.malformed_hex (color cfg ++ "22") = true ->
  let c := context (canvas w) in
  exists w',
    Ornament.frame cfg now w = (Throw SyntaxError, w') /\
    painted w'
    = painted w ++ [ClearRect (transform (cur c)) 0 0 (width (canvas w))
                      (height (canvas w))] /\
    saved (context (canvas w')) = cur c :: saved c /\
    callbacks w' = callbacks w /\
    handle w' = handle w /\
    rafRef w' = rafRef w.
Proof.
  intros Hc. apply malformed_hex_color in Hc. cbv zeta.
  destruct w as [iw ih d cr c2d [cw ch sw sh c] ls cbs h n r0 t].
  destruct (ornament_frame_throws cfg now iw ih d cr c2d cw ch sw sh c ls cbs
              h n r0 t Hc) as [st Hf].
  rewrite Hf. eexists. split; [reflexivity|].
  unfold painted.
  cbn [canvas context surface cur saved callbacks rafRef handle].
  repeat split; reflexivity.
Qed.

Lemma ornament_frame_bad_colour_witness :
  let cfg :=
    destructure (mkOrnamentProps None (Some "#f0f") None None None) in
  let w := Spec.blank_page 800 600 1 in
  exists w',
    Ornament.frame cfg 16 w = (Throw SyntaxError, w') /\
    painted w' = painted w ++ [ClearRect identity 0 0 300 150] /\
    saved (context (canvas w')) = [default_state] /\
    callbacks w' = callbacks w /\
    handle w' = handle w /\
    rafRef w' = rafRef w.
Proof.
  apply (ornament_frame_bad_colour
           (destructure (mkOrnamentProps None (Some "#f0f") None None None))
           16 (Spec.blank_page 800 600 1)).
  reflexivity.
Defined.

(** ** Ornament: the loop while mounted *)

(** X13: while Ornament is mounted, whatever animation frames and window
    resizes the page goes through, its resize listener is the one listener
    and at most one frame callback is pending, its own, under the handle
    kept in [rafRef]: the loop never doubles. *)
Theorem ornament_loop_invariant (props : OrnamentProps) (w : World)
    (es : list Event) :
  Spec.fresh_page w ->
  let cfg := destructure props in
  let w' := run es (snd (mount (OrnamentComponent props) w)) in
  (exists id, listeners w' = [(id, OrnamentOnResize cfg)]) /\
  (callbacks w' = [] \/
   exists h, callbacks w' = [(S h, OrnamentFrame cfg)] /\
             rafRef w' = Some (S h)).
Proof.
  intros (Href & Hctx & Hls & Hcbs). cbv zeta.
  destruct w as [iw ih d cr c2d [cw ch sw sh c] ls cbs h n r t].
  cbn [canvasRef context2d listeners callbacks] in Href, Hctx, Hls, Hcbs.
  subst cr c2d ls cbs.
  destruct (ornament_mount (destructure props) iw ih d cw ch sw sh c h n r t)
    as [cv Hm].
  unfold mount. rewrite Hm. cbn [snd].
  set (w1 := mkWorld _ _ _ _ _ _ _ _ _ _ _ _).
  assert (H1 : Spec.ornament_running (destructure props) (S n) w1).
  { split; [reflexivity|]. right. exists h. split; reflexivity. }
  destruct (ornament_run_running _ _ es w1 H1) as [Hl Hc].
  split; [exists (S n); exact Hl|exact Hc].
Qed.

Lemma ornament_loop_invariant_witness :
  let cfg := destructure (mkOrnamentProps (Some 200) None None None None) in
  let w' := run [AnimationFrame 16; WindowResize 1024 768; AnimationFrame 33]
              (snd (mount (OrnamentComponent
                             (mkOrnamentProps (Some 200) None None None None))
                          (Spec.blank_page 800 600 2))) in
  (exists id, listeners w' = [(id, OrnamentOnResize cfg)]) /\
  (callbacks w' = [] \/
   exists h, callbacks w' = [(S h, OrnamentFrame cfg)] /\
             rafRef w' = Some (S h)).
Proof.
  apply (ornament_loop_invariant
           (mkOrnamentProps (Some 200) None None None None)
           (Spec.blank_page 800 600 2)
           [AnimationFrame 16; WindowResize 1024 768; AnimationFrame 33]).
  repeat split; reflexivity.
Defined.

(** X14: mounted on a fresh page and unmounted after any events, Ornament
    leaves no pending frame callback and no resize listener; its cleanup
    returns normally and does not touch the canvas, and whatever frames
    and resizes follow, the canvas stays as it was at unmount. *)
Theorem ornament_teardown (props : OrnamentProps) (w : World)
    (before after : list Event) :
  Spec.fresh_page w ->
  exists cl w1,
    mount (OrnamentComponent props) w = (Ret (Some cl), w1) /\
    fst (unmount (Some cl) (run before w1)) = Ret tt /\
    listeners (snd (unmount (Some cl) (run before w1))) = [] /\
    callbacks (snd (unmount (Some cl) (run before w1))) = [] /\
    canvas (snd (unmount (Some cl) (run before w1))) = canvas (run before w1) /\
    canvas (run after (snd (unmount (Some cl) (run before w1))))
    = canvas (run before w1).
Proof.
  intros Hfresh.
  destruct (ornament_unmount_stops props w before after Hfresh)
    as (cl & w1 & Hm & Hret & Hl & Hc & Hcv & Hafter).
  exists cl, w1. repeat split; try assumption.
  rewrite Hafter. exact Hcv.
Qed.

Lemma ornament_teardown_witness :
  exists cl w1,
    mount (OrnamentComponent (mkOrnamentProps None None None None (Some true)))
          (Spec.blank_page 800 600 2)
    = (Ret (Some cl), w1) /\
    fst (unmount (Some cl) (run [AnimationFrame 16] w1)) = Ret tt /\
    listeners (snd (unmount (Some cl) (run [AnimationFrame 16] w1))) = [] /\
    callbacks (snd (unmount (Some cl) (run [AnimationFrame 16] w1))) = [] /\
    canvas (snd (unmount (Some cl) (run [AnimationFrame 16] w1)))
    = canvas (run [AnimationFrame 16] w1) /\
    canvas (run [AnimationFrame 33; WindowResize 640 480]
              (snd (unmount (Some cl) (run [AnimationFrame 16] w1))))
    = canvas (run [AnimationFrame 16] w1).
Proof.
  apply (ornament_teardown (mkOrnamentProps None None None None (Some true))
           (Spec.blank_page 800 600 2) [AnimationFrame 16]
           [AnimationFrame 33; WindowResize 640 480]).
  repeat split; reflexivity.
Defined.

Lemma ornament_stopped_step (cfg : Config) (id : nat) (w : World) (e : Event) :
  listeners w = [(id, OrnamentOnResize cfg)] ->
  callbacks w = [] ->
  listeners (step w e) = [(id, OrnamentOnResize cfg)] /\
  callbacks (step w e) = [] /\
  (forall now, e = AnimationFrame now -> step w e = w).
Proof.
  intros Hl Hc.
  destruct w as [iw ih d cr c2d [cw ch sw sh c] ls cbs h n r t].
  cbn [listeners callbacks] in Hl, Hc. subst ls cbs.
  destruct e as [now|vw vh]; cbn [step].
  - repeat split; try reflexivity.
  - unfold window_resize.
    cbn [listeners set_viewport modify snd fold_left run_listener].
    cbn [innerWidth innerHeight devicePixelRatio canvasRef context2d canvas
         callbacks handle closures rafRef tRef].
    rewrite ornament_resizeCanvas. cbn [snd listeners callbacks].
    repeat split; try reflexivity. intros now H. discriminate H.
Qed.

Lemma ornament_stopped_run (cfg : Config) (id : nat) (es : list Event) :
  forall w,
    listeners w = [(id, OrnamentOnResize cfg)] ->
    callbacks w = [] ->
    callbacks (run es w) = [].
Proof.
  induction es as [|e es IH]; intros w Hl Hc; [exact Hc|].
  cbn [run fold_left].
  destruct (ornament_stopped_step cfg id w e Hl Hc) as (Hl' & Hc' & _).
  apply IH; assumption.
Qed.

(** X15: an Ornament whose [color + "22"] is [#] followed by hex digits
    that are not 3, 4, 6 or 8 in number (a colour written [#rgb], say)
    stops at its first frame: mounted on a fresh page, it clears the
    canvas at the first animation frame and paints nothing, and from then
    on, whatever events follow, no frame callback is pending any more. *)
Theorem ornament_bad_colour_stops (props : OrnamentProps) (w : World)
    (now : R) (es : list Event) :
  Spec.fresh_page w ->
  Css.malformed_hex (color (destructure props) ++ "22") = true ->
  let w1 := snd (mount (OrnamentComponent props) w) in
  let w2 := step w1 (AnimationFrame now) in
  callbacks w1 = [(S (handle w), OrnamentFrame (destructure props))] /\
  (exists m, painted w2
             = painted w1 ++ [ClearRect m 0 0 (width (canvas w1))
                                (height (canvas w1))]) /\
  callbacks w2 = [] /\
  callbacks (run es w2) = [].
Proof.
  intros (Href & Hctx & Hls & Hcbs) Hc. apply malformed_hex_color in Hc.
  cbv zeta.
  destruct w as [iw ih d cr c2d [cw ch sw sh c] ls cbs h n r t].
  cbn [canvasRef context2d listeners callbacks] in Href, Hctx, Hls, Hcbs.
  subst cr c2d ls cbs.
  destruct (ornament_mount (destructure props) iw ih d cw ch sw sh c h n r t)
    as [cv Hm].
  unfold mount. rewrite Hm. cbn [snd callbacks handle].
  split; [reflexivity|].
  destruct cv as [cvw cvh cvsw cvsh cvc].
  destruct (ornament_frame_throws (destructure props) now iw ih d true true
              cvw cvh cvsw cvsh cvc
              [(S n, OrnamentOnResize (destructure props))] []
              (S h) (S n) (Some (S h)) t Hc) as [st Hf].
  match goal with
  | |- context [step ?w1 (AnimationFrame now)] =>
      change (step w1 (AnimationFrame now))
        with (snd (Ornament.frame (destructure props) now
                     (mkWorld iw ih d true true
                        (mkCanvas cvw cvh cvsw cvsh cvc)
                        [(S n, OrnamentOnResize (destructure props))] []
                        (S h) (S n) (Some (S h)) t)))
  end.
  rewrite Hf. cbn [snd]. unfold painted.
  cbn [canvas context surface callbacks width height].
  split; [eexists; reflexivity|]. split; [reflexivity|].
  apply (ornament_stopped_run (destructure props) (S n)); reflexivity.
Qed.

Lemma ornament_bad_colour_stops_witness :
  let props := mkOrnamentProps None (Some "#f0f") None None None in
  let w := Spec.blank_page 800 600 1 in
  let w1 := snd (mount (OrnamentComponent props) w) in
  let w2 := step w1 (AnimationFrame 16) in
  callbacks w1 = [(S (handle w), OrnamentFrame (destructure props))] /\
  (exists m, painted w2
             = painted w1 ++ [ClearRect m 0 0 (width (canvas w1))
                                (height (canvas w1))]) /\
  callbacks w2 = [] /\
  callbacks (run [AnimationFrame 33; WindowResize 640 480; AnimationFrame 50]
               w2) = [].
Proof.
  apply (ornament_bad_colour_stops
           (mkOrnamentProps None (Some "#f0f") None None None)
           (Spec.blank_page 800 600 1) 16
           [AnimationFrame 33; WindowResize 640 480; AnimationFrame 50]).
  - repeat split; reflexivity.
  - reflexivity.
Defined.

(** ** Ornament: surface sizing at mount and without a pixel ratio *)





(** ** Ornament: a change of configuration *)

Lemma run_callback_flags (cb : FrameCallback) (now : R) (w : World) :
  canvasRef (snd (run_callback cb now w)) = canvasRef w /\
  context2d (snd (run_callback cb now w)) = context2d w.
Proof.
  destruct w as [iw ih d cr c2d [cw ch sw sh c] ls cbs h n r t].
  destruct cb as [|cfg]; cbn [run_callback].
  - destruct (mandala_render iw ih d cr c2d cw ch sw sh c ls cbs h n r t)
      as [p Hp].
    rewrite Hp. split; reflexivity.
  - destruct (ornament_frame_page cfg now iw ih d cr c2d cw ch sw sh c ls cbs
                h n r t) as [c' [H|[e H]]]; rewrite H; split; reflexivity.
Qed.

Lemma run_listener_flags (l : ResizeListener) (w : World) :
  canvasRef (snd (run_listener l w)) = canvasRef w /\
  context2d (snd (run_listener l w)) = context2d w.
Proof.
  destruct w as [iw ih d cr c2d [cw ch sw sh c] ls cbs h n r t].
  destruct l as [|cfg]; cbn [run_listener].
  - rewrite mandala_resize. split; reflexivity.
  - rewrite ornament_resizeCanvas. split; reflexivity.
Qed.

Lemma step_flags (w : World) (e : Event) :
  canvasRef (step w e) = canvasRef w /\ context2d (step w e) = context2d w.
Proof.
  destruct e as [now|vw vh]; cbn [step].
  - unfold animation_frame.
    assert (H : forall l w0,
               canvasRef (fold_left
                            (fun (w1 : World) (e : nat * FrameCallback) =>
                               snd (run_callback (snd e) now w1))
                            l w0) = canvasRef w0 /\
               context2d (fold_left
                            (fun (w1 : World) (e : nat * FrameCallback) =>
                               snd (run_callback (snd e) now w1))
                            l w0) = context2d w0).
    { induction l as [|x l IH]; intros w0; [split; reflexivity|].
      cbn [fold_left]. destruct (IH (snd (run_callback (snd x) now w0)))
        as [H1 H2].
      destruct (run_callback_flags (snd x) now w0) as [H3 H4].
      split; congruence. }
    destruct (H (callbacks w) (snd (set_callbacks (fun _ => []) w)))
      as [H1 H2].
    rewrite H1, H2. destruct w; split; reflexivity.
  - unfold window_resize.
    assert (H : forall l w0,
               canvasRef (fold_left
                            (fun (w1 : World) (e : nat * ResizeListener) =>
                               snd (run_listener (snd e) w1))
                            l w0) = canvasRef w0 /\
               context2d (fold_left
                            (fun (w1 : World) (e : nat * ResizeListener) =>
                               snd (run_listener (snd e) w1))
                            l w0) = context2d w0).
    { induction l as [|x l IH]; intros w0; [split; reflexivity|].
      cbn [fold_left]. destruct (IH (snd (run_listener (snd x) w0)))
        as [H1 H2].
      destruct (run_listener_flags (snd x) w0) as [H3 H4].
      split; congruence. }
    destruct (H (listeners w) (snd (set_viewport vw vh w))) as [H1 H2].
    rewrite H1, H2. destruct w; split; reflexivity.
Qed.

Lemma run_flags (es : list Event) : forall w,
  canvasRef (run es w) = canvasRef w /\ context2d (run es w) = context2d w.
Proof.
  induction es as [|e es IH]; intros w; [split; reflexivity|].
  cbn [run fold_left]. destruct (IH (step w e)) as [H1 H2].
  destruct (step_flags w e) as [H3 H4]. unfold run in H1, H2.
  split; congruence.
Qed.

Lemma ornament_cleanup_flags (id : nat) (w : World) :
  canvasRef (snd (Ornament.cleanup id w)) = canvasRef w /\
  context2d (snd (Ornament.cleanup id w)) = context2d w.
Proof.
  destruct w as [iw ih d cr c2d cv ls cbs h n r t].
  unfold Ornament.cleanup. run_step.
  destruct (Ornament.truthy r); split; reflexivity.
Qed.

(** X18: when the configuration changes, React runs the cleanup of the old
    effect and then the effect again.  After any events, that leaves
    exactly one resize listener and exactly one pending frame callback,
    both closed over the new configuration, with the handle of that frame
    in [rafRef]: nothing of the old loop is left running beside the
    new. *)
Theorem ornament_restart (props props' : OrnamentProps) (w : World)
    (es : list Event) :
  Spec.fresh_page w ->
  exists cl w1 cl' w4,
    mount (OrnamentComponent props) w = (Ret (Some cl), w1) /\
    mount (OrnamentComponent props')
          (snd (unmount (Some cl) (run es w1)))
    = (Ret (Some cl'), w4) /\
    (exists id, listeners w4 = [(id, OrnamentOnResize (destructure props'))]) /\
    (exists h, callbacks w4 = [(h, OrnamentFrame (destructure props'))] /\
               rafRef w4 = Some h).
Proof.
  intros (Href & Hctx & Hls & Hcbs).
  destruct w as [iw ih d cr c2d [cw ch sw sh c] ls cbs h n r t].
  cbn [canvasRef context2d listeners callbacks] in Href, Hctx, Hls, Hcbs.
  subst cr c2d ls cbs.
  destruct (ornament_mount (destructure props) iw ih d cw ch sw sh c h n r t)
    as [cv Hm].
  unfold mount at 1. rewrite Hm.
  set (w1 := mkWorld _ _ _ _ _ _ _ _ _ _ _ _).
  exists (OrnamentCleanup (S n)), w1.
  assert (H1 : Spec.ornament_running (destructure props) (S n) w1).
  { split; [reflexivity|]. right. exists h. split; reflexivity. }
  pose proof (ornament_run_running _ _ es w1 H1) as H2.
  destruct (ornament_cleanup_quiet _ _ _ H2) as (_ & [Hql Hqc] & _).
  destruct (run_flags es w1) as [Hf1 Hf2].
  destruct (ornament_cleanup_flags (S n) (run es w1)) as [Hf3 Hf4].
  cbn [unmount].
  destruct (snd (Ornament.cleanup (S n) (run es w1)))
    as [iw3 ih3 d3 cr3 c2d3 [cw3 ch3 sw3 sh3 c3] ls3 cbs3 h3 n3 r3 t3].
  cbn [listeners callbacks canvasRef context2d] in Hql, Hqc, Hf3, Hf4.
  rewrite Hf1 in Hf3. rewrite Hf2 in Hf4. cbn [canvasRef context2d w1] in Hf3, Hf4.
  subst ls3 cbs3 cr3 c2d3.
  destruct (ornament_mount (destructure props') iw3 ih3 d3 cw3 ch3 sw3 sh3 c3
              h3 n3 r3 t3) as [cv' Hm'].
  unfold mount. rewrite Hm'.
  eexists. eexists. split; [reflexivity|]. split; [reflexivity|].
  cbn [listeners callbacks rafRef].
  split; eexists; [reflexivity|split; reflexivity].
Qed.

Lemma ornament_restart_witness :
  exists cl w1 cl' w4,
    mount (OrnamentComponent (mkOrnamentProps None None None None None))
          (Spec.blank_page 800 600 2)
    = (Ret (Some cl), w1) /\
    mount (OrnamentComponent (mkOrnamentProps (Some 200) None None None
                                (Some true)))
          (snd (unmount (Some cl) (run [AnimationFrame 16] w1)))
    = (Ret (Some cl'), w4) /\
    (exists id,
        listeners w4
        = [(id, OrnamentOnResize
                  (destructure (mkOrnamentProps (Some 200) None None None
                                  (Some true))))]) /\
    (exists h,
        callbacks w4
        = [(h, OrnamentFrame
                 (destructure (mkOrnamentProps (Some 200) None None None
                                 (Some true))))] /\
        rafRef w4 = Some h).
Proof.
  apply (ornament_restart (mkOrnamentProps None None None None None)
           (mkOrnamentProps (Some 200) None None None (Some true))
           (Spec.blank_page 800 600 2) [AnimationFrame 16]).
  repeat split; reflexivity.
Defined.

(** X19: a window resize reaches a mounted Ornament as a new surface
    sizing: whatever the new viewport, the canvas gets the size given by
    the configured [size] and the pixel ratio again (the ceiling of their
    machine product as the attributes [width] and [height] convert it, and
    [size] px as CSS size unless [size] is negative), but its bitmap is
    reallocated (the drawing is gone until the next frame) and its context
    is back in the default state under the pixel-ratio scale; the pending
    frame callback and [rafRef] are left alone. *)
Theorem ornament_resize_event (cfg : Config) (id : nat) (w : World)
    (vw vh : R) :
  listeners w = [(id, OrnamentOnResize cfg)] ->
  context2d w = true ->
  let dpr := number_or (devicePixelRatio w) 1 in
  let w' := step w (WindowResize vw vh) in
  painted w' = painted w ++ [ResetBitmap; ResetBitmap] /\
  width (canvas w') = unsigned_long 300 (Math_ceil (times (size cfg) dpr)) /\
  height (canvas w') = unsigned_long 150 (Math_ceil (times (size cfg) dpr)) /\
  style_width (canvas w') = declared (style_width (canvas w)) (size cfg) /\
  style_height (canvas w') = declared (style_height (canvas w)) (size cfg) /\
  cur (context (canvas w'))
  = with_transform (fun _ => mkMatrix dpr 0 0 dpr 0 0) default_state /\
  saved (context (canvas w')) = [] /\
  path (context (canvas w')) = [] /\
  callbacks w' = callbacks w /\
  rafRef w' = rafRef w /\
  innerWidth w' = vw /\
  innerHeight w' = vh.
Proof.
  intros Hl Hctx. cbv zeta.
  destruct w as [iw ih d cr c2d [cw ch sw sh c] ls cbs h n r t].
  cbn [listeners context2d] in Hl, Hctx. subst ls c2d.
  cbn [step]. unfold window_resize.
  cbn [listeners set_viewport modify snd fold_left run_listener].
  cbn [innerWidth innerHeight devicePixelRatio canvasRef context2d canvas
       callbacks handle closures rafRef tRef].
  rewrite ornament_resizeCanvas. unfold painted.
  cbn [snd canvas context surface width height style_width style_height cur
       saved path callbacks rafRef innerWidth innerHeight devicePixelRatio].
  repeat split; reflexivity.
Qed.

Lemma ornament_resize_event_witness :
  let props := mkOrnamentProps None None None None None in
  let cfg := destructure props in
  let w := snd (mount (OrnamentComponent props) (Spec.blank_page 800 600 2)) in
  let dpr := number_or (devicePixelRatio w) 1 in
  let w' := step w (WindowResize 1024 768) in
  painted w' = painted w ++ [ResetBitmap; ResetBitmap] /\
  width (canvas w') = unsigned_long 300 (Math_ceil (times (size cfg) dpr)) /\
  height (canvas w') = unsigned_long 150 (Math_ceil (times (size cfg) dpr)) /\
  style_width (canvas w') = declared (style_width (canvas w)) (size cfg) /\
  style_height (canvas w') = declared (style_height (canvas w)) (size cfg) /\
  cur (context (canvas w'))
  = with_transform (fun _ => mkMatrix dpr 0 0 dpr 0 0) default_state /\
  saved (context (canvas w')) = [] /\
  path (context (canvas w')) = [] /\
  callbacks w' = callbacks w /\
  rafRef w' = rafRef w /\
  innerWidth w' = 1024 /\
  innerHeight w' = 768.
Proof.
  apply (ornament_resize_event
           (destructure (mkOrnamentProps None None None None None)) 1%nat
           (snd (mount (OrnamentComponent
                          (mkOrnamentProps None None None None None))
                       (Spec.blank_page 800 600 2)))
           1024 768); reflexivity.
Defined.

Lemma glow_ring_fails_untouched_witness :
  let c := mkCtx default_state [] [] [] in
  MandalaBase.drawGlowingRing 400 300 10 60 "#ff00ff" c
  = (Throw IndexSizeError, c) /\
  MandalaBase.drawGlowingRing 400 300 170 60 "#f0f" c
  = (Throw SyntaxError, c).
Proof.
  destruct (glow_ring_fails_untouched 400 300 10 60 "#ff00ff"
              (mkCtx default_state [] [] [])) as [H1 _].
  destruct (glow_ring_fails_untouched 400 300 170 60 "#f0f"
              (mkCtx default_state [] [] [])) as [_ H2].
  split.
  - apply H1. left. lra.
  - apply H2; [lra|lra|reflexivity].
Defined.
